(** * SYNEX_Telescopes.py: the [Athena] instrument class

    A shallow embedding of [src/SYNEX/SYNEX_Telescopes.py] and the
    properties its specification states about it.

    Conventions of the embedding
    - Python [float]s are idealised as rationals ([Q]); the functions that
      have no rational counterpart ([log10], [sqrt], random draws, the Kuiper
      routine, ...) are fields of the [Collaborators] interface.
    - [str] values are [string]s of ASCII characters.
    - a [dict] used as a keyed store is a [gmap string value]; a [dict] that
      is iterated ([**kwargs], the tile dictionary) is an association list in
      insertion order.
    - an exception is a value of [exn]; a statement that raises makes the
      whole computation return [Raise].  File writes, directory creations
      and advisory prints are recorded, in order, in a log of [event]s. *)

From Stdlib Require Import ZArith QArith Qround Qpower Lqa List Ascii String DecimalString
  DecimalZ Lia.
From stdpp Require Import base option list gmap strings.

Local Open Scope Z_scope.

(* ===================================================================== *)
(** * Python runtime fragments used by the module *)
(* ===================================================================== *)

Module Py.

(** Exceptions the modelled statements can raise. *)
Inductive exn : Type :=
  | NameError (name : string)
  | KeyError (key : string)
  | AttributeError (attr : string)
  | TypeError
  | ValueError
  | IndexError
  | ZeroDivisionError
  | UnboundLocalError (name : string)
  | FileNotFoundError (path : string)
  | ExternalError (what : string)       (* raised inside a collaborator *)
  | OutOfFuel.                          (* no exception of Python: a loop of the
                                           model did not end within its bound *)

Inductive result (A : Type) : Type :=
  | Ok (a : A)
  | Raise (e : exn).
Arguments Ok {A} a.
Arguments Raise {A} e.

Definition bind {A B : Type} (r : result A) (k : A -> result B) : result B :=
  match r with
  | Ok a => k a
  | Raise e => Raise e
  end.

Definition is_ok {A : Type} (r : result A) : bool :=
  match r with Ok _ => true | Raise _ => false end.

(** ** Strings: [str.split], [str.join], [in], slices *)

(** [s.split(sep)] for a non-empty separator: [skip] counts the characters
    of a separator occurrence that are still to be passed over. *)
Fixpoint split_from (sep : string) (skip : nat) (s : string) : list string :=
  match s with
  | EmptyString => [EmptyString]
  | String c s' =>
      match skip with
      | S k => split_from sep k s'
      | O =>
          if String.prefix sep s
          then EmptyString :: split_from sep (String.length sep - 1) s'
          else match split_from sep 0 s' with
               | h :: t => String c h :: t
               | [] => [String c EmptyString]
               end
      end
  end.

Definition split (sep s : string) : list string := split_from sep 0 s.

(** [sep.join(l)] *)
Definition join (sep : string) (l : list string) : string := String.concat sep l.

(** [l[-1]] and [l[0]] of a list of strings that [split] returned (never empty). *)
Definition last_item (l : list string) : string := List.last l EmptyString.
Definition first_item (l : list string) : string := List.hd EmptyString l.
(** [l[:-1]] *)
Definition but_last (l : list string) : list string := List.removelast l.

(** [sub in s] for strings. *)
Fixpoint contains (sub s : string) : bool :=
  String.prefix sub s ||
  match s with
  | EmptyString => false
  | String _ s' => contains sub s'
  end.

(** [c not in s] for a character. *)
Fixpoint lacks (c : ascii) (s : string) : bool :=
  match s with
  | EmptyString => true
  | String d s' => negb (Ascii.eqb c d) && lacks c s'
  end.

(** ** [int(str)] and [str(int)] *)

Definition is_space (c : ascii) : bool :=
  let n := nat_of_ascii c in
  ((9 <=? n)%nat && (n <=? 13)%nat) || (n =? 32)%nat.

Definition digit_of (c : ascii) : option Z :=
  let n := nat_of_ascii c in
  if ((48 <=? n)%nat && (n <=? 57)%nat)%bool then Some (Z.of_nat (n - 48)) else None.

Fixpoint lstrip (s : string) : string :=
  match s with
  | String c s' => if is_space c then lstrip s' else s
  | EmptyString => EmptyString
  end.

Fixpoint rstrip (s : string) : string :=
  match s with
  | EmptyString => EmptyString
  | String c s' =>
      match rstrip s' with
      | EmptyString => if is_space c then EmptyString else String c EmptyString
      | r => String c r
      end
  end.

(** Decimal digits, single underscores allowed between two digits. *)
Fixpoint parse_digits (s : string) (acc : Z) (after_digit : bool) : option Z :=
  match s with
  | EmptyString => if after_digit then Some acc else None
  | String c s' =>
      match digit_of c with
      | Some d => parse_digits s' (10 * acc + d) true
      | None =>
          if (Ascii.eqb c "_" && after_digit)%bool
          then parse_digits s' acc false
          else None
      end
  end.

(** [int(s)]: surrounding white space, an optional sign, decimal digits.
    [None] stands for the [ValueError] Python raises. *)
Definition int_of_str (s : string) : option Z :=
  match lstrip (rstrip s) with
  | String "-" t => option_map Z.opp (parse_digits t 0 false)
  | String "+" t => parse_digits t 0 false
  | t => parse_digits t 0 false
  end.

(** [str(n)] for an [int]. *)
Definition str_of_int (n : Z) : string := NilZero.string_of_int (Z.to_int n).

(** ** Values held by the parameter dictionaries *)

Inductive value : Type :=
  | VNone
  | VBool (b : bool)
  | VInt (n : Z)
  | VFloat (x : Q)
  | VStr (s : string)
  | VArr (a : list Q)          (* a numeric sequence, e.g. [Tobs] *)
  | VTable (rows : list (list Q))  (* a two-dimensional array, e.g. [tesselation] *)
  | VObj (tag : string).       (* an object of a collaborator, e.g. the orbit dictionary *)

(** The number a numeric value denotes ([bool] is a subtype of [int]). *)
Definition num_of (v : value) : option Q :=
  match v with
  | VBool b => Some (if b then 1%Q else 0%Q)
  | VInt n => Some (inject_Z n)
  | VFloat x => Some x
  | _ => None
  end.

Fixpoint seq_eqb (a b : list Q) : bool :=
  match a, b with
  | [], [] => true
  | x :: a', y :: b' => Qeq_bool x y && seq_eqb a' b'
  | _, _ => false
  end.

Fixpoint table_eqb (a b : list (list Q)) : bool :=
  match a, b with
  | [], [] => true
  | x :: a', y :: b' => seq_eqb x y && table_eqb a' b'
  | _, _ => false
  end.

(** [v == w].  Numbers compare by value across [bool], [int] and [float];
    sequences compare like Python lists.  A numpy array compares element
    by element instead, and gives an array whose truth value raises
    [ValueError] when it holds two or more elements: a statement about the
    outcome of [==] or [!=] on any values is made for values that are no
    arrays. *)
Definition py_eq (v w : value) : bool :=
  match num_of v, num_of w with
  | Some x, Some y => Qeq_bool x y
  | Some _, None | None, Some _ => false
  | None, None =>
      match v, w with
      | VNone, VNone => true
      | VStr s, VStr t => String.eqb s t
      | VArr a, VArr b => seq_eqb a b
      | VTable a, VTable b => table_eqb a b
      | VObj s, VObj t => String.eqb s t
      | _, _ => false
      end
  end.

(** [v != w] *)
Definition py_ne (v w : value) : bool := negb (py_eq v w).

(** [numpy.array_equal(v, w)]: same shape and equal elements. *)
Definition array_equal (v w : value) : bool :=
  match v, w with
  | VArr a, VArr b => seq_eqb a b
  | VArr _, _ | _, VArr _ => false
  | _, _ => py_eq v w
  end.

(** Truth value of [v] in an [if]. *)
Definition truthy (v : value) : bool :=
  match v with
  | VNone => false
  | VBool b => b
  | VInt n => negb (n =? 0)
  | VFloat x => negb (Qeq_bool x 0)
  | VStr s => negb (String.eqb s EmptyString)
  | VArr a => match a with [] => false | _ => true end
  | VTable a => match a with [] => false | _ => true end
  | VObj _ => true
  end.

(** A value used where a [str] is concatenated, where a [str] method is
    called, and where a number is needed. *)
Definition as_str (v : value) : result string :=
  match v with VStr s => Ok s | _ => Raise TypeError end.

Definition splittable (v : value) : result string :=
  match v with VStr s => Ok s | _ => Raise (AttributeError "split") end.

Definition as_num (v : value) : result Q :=
  match num_of v with Some x => Ok x | None => Raise TypeError end.

(** ** Dictionaries *)

(** [d[k]] *)
Definition getitem (d : gmap string value) (k : string) : result value :=
  match d !! k with
  | Some v => Ok v
  | None => Raise (KeyError k)
  end.

(** [k in d] *)
Definition has_key (d : gmap string value) (k : string) : bool :=
  bool_decide (is_Some (d !! k)).

(** [**kwargs]: keyword arguments in the order they were given. *)
Definition kw_has (k : string) (kw : list (string * value)) : bool :=
  existsb (fun kv => String.eqb (fst kv) k) kw.

Definition kw_get (k : string) (kw : list (string * value)) : option value :=
  option_map snd (List.find (fun kv => String.eqb (fst kv) k) kw).

(** [del kwargs[k]] / [kwargs.pop(k)] *)
Definition kw_del (k : string) (kw : list (string * value)) : list (string * value) :=
  List.filter (fun kv => negb (String.eqb (fst kv) k)) kw.

(** [kwargs[k] = v] for a key that is present. *)
Definition kw_set (k : string) (v : value) (kw : list (string * value))
  : list (string * value) :=
  List.map (fun kv => if String.eqb (fst kv) k then (k, v) else kv) kw.

(** [any(l)] *)
Definition any (l : list bool) : bool := existsb (fun b => b) l.

End Py.

Import Py.
Local Open Scope string_scope.
Local Open Scope list_scope.

(** A state-and-exception monad: a statement runs on a state, and returns
    the state it leaves behind together with its value or the exception it
    raised.  The state is the event log for the constructor and the saving
    methods, and the run's variables for [GetKuiper]. *)
Definition M (S A : Type) : Type := S -> result A * S.

Definition ret {S A : Type} (a : A) : M S A := fun s => (Ok a, s).

Definition raise {S A : Type} (e : exn) : M S A := fun s => (Raise e, s).

Definition bindM {S A B : Type} (m : M S A) (k : A -> M S B) : M S B :=
  fun s =>
    match m s with
    | (Ok a, s') => k a s'
    | (Raise e, s') => (Raise e, s')
    end.

Definition lift {S A : Type} (r : result A) : M S A := fun s => (r, s).

Definition modify {S : Type} (f : S -> S) : M S unit := fun s => (Ok tt, f s).

Definition get {S : Type} : M S S := fun s => (Ok s, s).

#[export] Instance M_ret {S : Type} : MRet (M S) := fun A a => ret a.
#[export] Instance M_bind {S : Type} : MBind (M S) := fun A B k m => bindM m k.
#[export] Instance result_ret : MRet result := fun A a => Ok a.
#[export] Instance result_bind : MBind result := fun A B k r => bind r k.

(** [for x in l: body] threading an accumulator. *)
Fixpoint for_each {S A B : Type} (l : list A) (body : A -> B -> M S B) (b : B) : M S B :=
  match l with
  | [] => ret b
  | x :: l' => b' ← body x b; for_each l' body b'
  end.

(* ===================================================================== *)
(** * Data model *)
(* ===================================================================== *)

Abbreviation dict := (gmap string value).
Abbreviation kwargs := (list (string * value)).

(** [telescope_source_coverage]: the three files of the source it was
    computed for, and the fields derived by the tiling. *)
Record coverage : Type := {
  source_JsonFile : option string;      (* ["source JsonFile"] *)
  source_H5File : option string;        (* ["source H5File"] *)
  source_save_file : option string;     (* ["source save file"] *)
  cov_derived : dict
}.

(** A tile: its angular bounding box. *)
Record tile : Type := {
  beta_range : Q * Q;
  lambda_range : Q * Q
}.

(** Keys of a tile dictionary are tile numbers, as [int] or as [str]. *)
Inductive tile_key : Type :=
  | KInt (n : Z)
  | KStr (s : string).

Abbreviation tile_struct := (list (tile_key * tile)).

(** The pickled snapshot of an instrument, as the constructor reads it
    back: a field is [None] when the key is missing from the file. *)
Record SavedDict : Type := {
  sd_telescope_go_params : option dict;
  sd_telescope_config_struct : option dict;
  sd_telescope_source_coverage : option (option coverage);
  sd_telescope_tile_struct : option (option tile_struct);
  sd_MutatedFromTelescopeFile : option (option string)
}.

(** Values of the pickled tile dictionary [GetKuiper] reads. *)
Inductive tvalue : Type :=
  | TVal (v : value)
  | TTile (t : tile)
  | TStructs (s : list (string * list (tile_key * tile))).

Abbreviation TileDict := (list (tile_key * tvalue)).

(** The source object handed to [GetKuiper]. *)
Record source : Type := {
  xray_time : list Q;
  xray_flux : list Q;
  GW_phi : list Q;
  CTR : list Q;
  beta : Q;
  lamda : Q
}.

(** The files the process can see.  [mkdir_ok] tells whether creating a
    directory succeeds; [load_json] gives
    [input_params["waveform_params"]["DeltatL_cut"]] of a json file
    ([Some None] when the entry is missing). *)
Record filesystem : Type := {
  isfile : string -> bool;
  mkdir_ok : string -> bool;
  load_SavedDict : string -> option SavedDict;
  load_TileDict : string -> option TileDict;
  load_json : string -> option (option Q)
}.

(** What a run leaves on disk and on the terminal.  Informational prints
    are not recorded; the two advisories about unknown keys are. *)
Inductive event : Type :=
  | MkDir (dir : string)
  | WriteOrbit (path : string)
  | WriteTess (path : string)
  | WriteSave (path : string) (content : SavedDict)
  | PrintNewKey (key : string)
  | PrintReminder.

(** An [Athena] object: the attributes the constructor sets.
    [MutatedFromTelescopeFile] and [ARF_file_loc_name] are [None] while the
    attribute does not exist; [T_lat] is never set by this file. *)
Record Athena : Type := {
  verbose : value;
  PermissionToWrite : bool;
  ExistentialFileName : string;
  MutatedFromTelescopeFile : option (option string);
  telescope_go_params : dict;
  telescope_config_struct : dict;
  telescope_source_coverage : option coverage;
  telescope_tile_struct : option tile_struct;
  ARF_file_loc_name : option string;
  T_lat : option Q
}.

(** The collaborators of the module: what it imports from [SYNEX_Utils],
    [gwemopt_defaults], [segments_athena], [gwemopt], [astropy], [numpy],
    [scipy] and [random]. *)
Class Collaborators : Type := {
  SYNEX_PATH : string;
  go_params_default : dict;
  config_struct_default : dict;
  GWEMOPTPathChecks : dict -> dict -> dict * dict;
  gps_isot : value -> result string;          (* Time(t, format='gps').isot *)
  float_str : Q -> string;                    (* str(x) for a float *)
  get_telescope_orbit : dict -> bool -> dict;
  tesselation_spiral : dict -> list Q * list Q;
  tesselation_packing : dict -> list Q * list Q;
  np_float : string -> option Q;              (* numpy's str -> float *)
  np_log10 : Q -> Q;
  np_sqrt : Q -> Q;
  np_empty3 : list Q;                         (* np.empty((3,)) *)
  read_reference_images : value -> result value;
  CompleteLisabetaDataAndJsonFileNames : value -> result (string * string);
  np_trapz : list Q -> list Q -> Q;
  np_random_choice : list Q -> Z -> list Q -> result (list Q);
  interp1d : list Q -> list Q -> list Q -> result (list Q);
  random_random : nat -> Q;                   (* the n-th draw of random.random() *)
  two_pi : Q;                                 (* 2.*np.pi *)
  kuiper : list Q -> result (Q * Q)           (* astropy.stats.kuiper against the uniform cdf *)
}.

(* ===================================================================== *)
(** * The class [Athena] *)
(* ===================================================================== *)

Section Model.

Context `{Ext : Collaborators} (fs : filesystem).

Abbreviation IO := (M (list event)).

Definition emit (e : event) : IO unit := modify (fun log => log ++ [e]).

(** [pathlib.Path(p).mkdir(parents=True, exist_ok=True)] inside a
    [try]: [false] where Python raises. *)
Definition try_mkdir (p : string) : IO bool :=
  if mkdir_ok fs p then emit (MkDir p);; mret true else mret false.

(** The same call outside a [try]. *)
Definition mkdir (p : string) : IO unit :=
  ok ← try_mkdir p;
  if ok : bool then mret tt else raise (ExternalError "mkdir").

(** ["/".join(p.split("/")[:-1])] *)
Definition dirname (p : string) : string := join "/" (but_last (split "/" p)).

(** [SYNEX_PATH+"/"+p.split("/SYNEX/")[-1]] *)
Definition under_SYNEX_PATH (p : string) : string :=
  SYNEX_PATH +:+ "/" +:+ last_item (split "/SYNEX/" p).

(** ** [__init__], lines 89-94 and 97-104: the two save-file names *)

Definition check_NewExistentialFileName (kw : kwargs) : IO kwargs :=
  match kw_get "NewExistentialFileName" kw with
  | Some v =>
      name ← lift (splittable v);
      ok ← try_mkdir (dirname name);
      if ok : bool then mret kw
      else mret (kw_set "NewExistentialFileName" (VStr (under_SYNEX_PATH name)) kw)
  | None => mret kw
  end.

Definition check_ExistentialFileName (v : value) : IO string :=
  name ← lift (splittable v);
  ok ← try_mkdir (dirname name);
  if ok : bool then mret name else mret (under_SYNEX_PATH name).

(** ** Lines 117-137: the saved coverage, adapted to this machine *)

(** Lines 120-122: a path below some [/SYNEX/] is moved below [SYNEX_PATH]. *)
Definition adapt_path (f : option string) : option string :=
  match f with
  | Some p => if contains "/SYNEX/" p then Some (under_SYNEX_PATH p) else Some p
  | None => None
  end.

(** Lines 124-135: a file that is not found is looked for under the
    directory layout of the save file. *)
Definition with_architecture (sub ExistentialFileName : string) (f : option string)
  : option string :=
  match f with
  | Some p =>
      if negb (isfile fs p) then
        let FileWithArch :=
          SYNEX_PATH +:+ sub
          +:+ join "/" (but_last (split "/"
                 (last_item (split "/Saved_Telescope_Dicts/" ExistentialFileName))))
          +:+ "/" +:+ last_item (split "/" p) in
        if isfile fs FileWithArch then Some FileWithArch else Some p
      else Some p
  | None => None
  end.

Definition adapt_coverage (ExistentialFileName : string) (c : coverage) : coverage :=
  {| source_JsonFile :=
       with_architecture "/inference_param_files/" ExistentialFileName
         (adapt_path (source_JsonFile c));
     source_H5File :=
       with_architecture "/inference_data/" ExistentialFileName
         (adapt_path (source_H5File c));
     source_save_file :=
       with_architecture "/Saved_Source_Dicts/" ExistentialFileName
         (adapt_path (source_save_file c));
     cov_derived := cov_derived c |}.

Definition saved_coverage (ExistentialFileName : string) (sd : SavedDict)
  : option coverage :=
  match sd_telescope_source_coverage sd with
  | Some (Some c) => Some (adapt_coverage ExistentialFileName c)
  | _ => None
  end.

(** Lines 138-145 *)
Definition saved_tile_struct (sd : SavedDict) : option tile_struct :=
  match sd_telescope_tile_struct sd with
  | Some t => t
  | None => None
  end.

(** Line 146 *)
Definition saved_MutatedFromTelescopeFile (sd : SavedDict) : option string :=
  match sd_MutatedFromTelescopeFile sd with
  | Some f => f
  | None => None
  end.

(** ** Lines 148-159: has the saved instrument been changed? *)

(** [[value!=d[key] for key,value in kwargs.items() if key in d and key not in ["Tobs"]]] *)
Definition ValueCheck (d : dict) (kw : kwargs) : list bool :=
  flat_map (fun kv =>
              match d !! fst kv with
              | Some old => if String.eqb (fst kv) "Tobs" then [] else [py_ne (snd kv) old]
              | None => []
              end) kw.

Definition KeysCheck (go cfg : dict) (kw : kwargs) : list bool :=
  List.map (fun kv => negb (has_key go (fst kv)) && negb (has_key cfg (fst kv))) kw.

Definition decide_MUTATED (kw : kwargs) (go cfg : dict) : result bool :=
  if kw_has "NewExistentialFileName" kw then Ok true
  else if (1 <? length kw)%nat then
    let ValueCheck1 := ValueCheck go kw in
    let ValueCheck2 := ValueCheck cfg kw in
    let KeysCheck := KeysCheck go cfg kw in
    Tobs_changed ←
      match kw_get "Tobs" kw with
      | Some new => old ← getitem go "Tobs"; Ok (negb (array_equal new old))
      | None => Ok false
      end;
    if Tobs_changed : bool then Ok true
    else if any (ValueCheck1 ++ ValueCheck2 ++ KeysCheck) then Ok true
    else Ok false
  else Ok false.

(** ** Lines 163-171: keys of the defaults that the save file lacks *)

Definition not_gwemopt_keys : list string := ["NewExistentialFileName"; "NeworbitFile"].

Definition is_not_gwemopt_key (k : string) : bool := existsb (String.eqb k) not_gwemopt_keys.

Definition backfill_key (defaults : dict) (k : string) (v : value) (d : dict) : dict :=
  match defaults !! k with
  | Some dv =>
      if negb (has_key d k) && negb (is_not_gwemopt_key k)
      then <[k := v]> d
      else <[k := dv]> d
  | None => d
  end.

Definition backfill (kw : kwargs) (go cfg : dict) : dict * dict :=
  fold_left (fun st kv =>
               (backfill_key go_params_default (fst kv) (snd kv) (fst st),
                backfill_key config_struct_default (fst kv) (snd kv) (snd st)))
            kw (go, cfg).

(** ** Lines 183-192: the keyword arguments overwrite the parameters *)

Definition merge_key (verbose : value) (kv : string * value) (st : dict * dict * bool)
  : IO (dict * dict * bool) :=
  let '(go, cfg, print_reminder) := st in
  let '(key, v) := kv in
  if has_key go key then mret (<[key := v]> go, cfg, print_reminder)
  else if has_key cfg key then mret (go, <[key := v]> cfg, print_reminder)
  else if negb (is_not_gwemopt_key key) then
    (if truthy verbose then emit (PrintNewKey key) else mret tt);;
    mret (go, <[key := v]> cfg, true)
  else mret st.

Definition merge_kwargs (verbose : value) (kw : kwargs) (go cfg : dict)
  : IO (dict * dict * bool) :=
  for_each kw (merge_key verbose) (go, cfg, false).

(** ** Lines 195-200: the tesselation file when none is set *)

(** [".".join(p.split(".")[:-1])+ext] *)
Definition with_extension (p ext : string) : string :=
  join "." (but_last (split "." p)) +:+ ext.

(** [SYNEX_PATH+dir+name.split("Saved_Telescope_Dicts")[-1]], with the
    extension replaced: the sibling of a save file in another directory. *)
Definition sibling_of_save_file (dir ext name : string) : string :=
  with_extension (SYNEX_PATH +:+ dir +:+ last_item (split "Saved_Telescope_Dicts" name)) ext.

Definition default_tesselationFile (kw : kwargs) (cfg : dict) : result dict :=
  tf ← getitem cfg "tesselationFile";
  if py_eq tf VNone then
    match kw_get "ExistentialFileName" kw with
    | Some e =>
        name ← splittable e;
        Ok (<["tesselationFile" := VStr (sibling_of_save_file "/gwemopt_tess_files" ".tess" name)]> cfg)
    | None =>
        telescope ← getitem cfg "telescope";
        telescope ← as_str telescope;
        Ok (<["tesselationFile" :=
                VStr (SYNEX_PATH +:+ "/gwemopt_tess_files/" +:+ telescope +:+ ".tess")]> cfg)
    end
  else Ok cfg.

(** ** Lines 213-225, 247-258 and 310-322: the next free version of a file name *)

(** The [try] block: [int(name.split("_")[-1].split(".")[0])]. *)
Definition version_suffix (name : string) : option Z :=
  int_of_str (first_item (split "." (last_item (split "_" name)))).

(** The [try]/[except]: the number to start from, and the name to start with. *)
Definition version_start (name : string) : Z * string :=
  match version_suffix name with
  | Some n => (n, name)
  | None =>
      (1, join "." (but_last (split "." name)) +:+ "_1." +:+ last_item (split "." name))
  end.

(** The body of the [while] loop, after [Ext+=1]. *)
Definition renumbered (name : string) (Ext : Z) : string :=
  join "_" (but_last (split "_" name)) +:+ "_" +:+ str_of_int Ext +:+ "."
  +:+ last_item (split "." name).

(** [while os.path.isfile(name): ...], for at most [fuel] iterations. *)
Fixpoint first_free_version (fuel : nat) (Ext : Z) (name : string) : result string :=
  if isfile fs name then
    match fuel with
    | O => Raise OutOfFuel
    | S fuel' => first_free_version fuel' (Ext + 1) (renumbered name (Ext + 1))
    end
  else Ok name.

Definition versionPath (fuel : nat) (name : string) : result string :=
  let '(Ext, name') := version_start name in
  first_free_version fuel Ext name'.

(** The path [X_n.ext]: version [n] of the file [X.ext]. *)
Definition versioned (X : string) (n : Z) (ext : string) : string :=
  X +:+ "_" +:+ str_of_int n +:+ "." +:+ ext.

(** Lines 203-225 (tesselation file) and 237-258 (orbit file): [key] is the
    entry of the configuration, [NewKey] the directive that names the new
    file, [dir] and [ext] where a sibling of a new save file goes. *)
Definition version_config_file (fuel : nat) (key NewKey dir ext : string)
    (MUTATED : bool) (kw : kwargs) (cfg : dict) : result dict :=
  if MUTATED then
    f ← getitem cfg key;
    f ← as_str f;
    if isfile fs f then
      match kw_get NewKey kw with
      | Some new => Ok (<[key := new]> cfg)
      | None =>
          match kw_get "NewExistentialFileName" kw with
          | Some e =>
              name ← splittable e;
              Ok (<[key := VStr (sibling_of_save_file dir ext name)]> cfg)
          | None =>
              new ← versionPath fuel f;
              Ok (<[key := VStr new]> cfg)
          end
      end
    else Ok cfg
  else Ok cfg.

Definition version_tesselationFile (fuel : nat) :=
  version_config_file fuel "tesselationFile" "NewtesselationFile" "/gwemopt_tess_files" ".tess".

Definition version_orbitFile (fuel : nat) :=
  version_config_file fuel "orbitFile" "NeworbitFile" "/orbit_files" ".dat".

(** Lines 303-322: the save file of a mutated instrument. *)
Definition version_ExistentialFileName (fuel : nat) (kw : kwargs) (name : string)
  : result string :=
  match kw_get "NewExistentialFileName" kw with
  | Some new => splittable new
  | None => versionPath fuel name
  end.

(** ** Lines 228-236: the name of the orbit file *)

(** [str(v)] *)
Definition str_of_value (v : value) : string :=
  match v with
  | VNone => "None"
  | VBool true => "True"
  | VBool false => "False"
  | VInt n => str_of_int n
  | VFloat x => float_str x
  | VStr s => s
  | VArr a => "[" +:+ join ", " (List.map float_str a) +:+ "]"
  | VTable rows =>
      "[" +:+ join ", " (List.map (fun r => "[" +:+ join ", " (List.map float_str r) +:+ "]") rows)
      +:+ "]"
  | VObj tag => tag
  end.

(** [str(int(cfg[key]*scale//unit))] *)
Definition whole_part (cfg : dict) (key : string) (scale unit : Q) : result string :=
  v ← getitem cfg key;
  x ← as_num v;
  Ok (str_of_int (Qfloor (x * scale / unit))).

Definition name_orbitFile (cfg : dict) : IO dict :=
  orbitFile ← lift (getitem cfg "orbitFile");
  if negb (truthy orbitFile) then
    start ← lift (getitem cfg "gps_science_start");
    t ← lift (gps_isot start);
    let f := SYNEX_PATH +:+ "/orbit_files/" in
    mkdir f;;
    duration ← lift (whole_part cfg "mission_duration" (36425 # 100) 1);
    inc ← lift (whole_part cfg "inc" 1 1);
    R ← lift (whole_part cfg "MeanRadius" 1 (1000000 # 1));
    ecc ← lift (whole_part cfg "eccentricity" 1 (1 # 10));
    ArgPeri ← lift (whole_part cfg "ArgPeriapsis" 1 1);
    AscNode ← lift (whole_part cfg "AscendingNode" 1 1);
    phi0 ← lift (whole_part cfg "ArgPeriapsis" 1 1);
    P ← lift (whole_part cfg "period" 1 1);
    frozen ← lift (getitem cfg "frozenAthena");
    let orbitFile :=
      "Athena_" +:+ join "" (split "-" (first_item (split "T" t)))
      +:+ "_" +:+ duration +:+ "d_inc" +:+ inc +:+ "_R" +:+ R +:+ "Mkm_ecc" +:+ ecc
      +:+ "_ArgPeri" +:+ ArgPeri +:+ "_AscNode" +:+ AscNode +:+ "_phi0" +:+ phi0
      +:+ "_P" +:+ P +:+ "_frozen" +:+ str_of_value frozen +:+ ".dat" in
    mret (<["orbitFile" := VStr (f +:+ orbitFile)]> cfg)
  else mret cfg.

(** ** Lines 263-275: the orbit *)

Definition SAVETOFILE (PermissionToWrite MUTATED : bool) (orbitFile : string) : bool :=
  if negb PermissionToWrite then false
  else if MUTATED || negb (isfile fs orbitFile) then true
  else false.

(** Modelled from the spec: the orbit-propagation collaborator
    [getOrbit(config, writePermission) -> config'] ([segments_athena.py] is not
    among the sources).  It returns the configuration with the orbit added
    and writes the orbit file exactly when its flag is set. *)
Definition getOrbit (cfg : dict) (orbitFile : string) (SAVETOFILE : bool) : IO dict :=
  (if SAVETOFILE then emit (WriteOrbit orbitFile) else mret tt);;
  mret (get_telescope_orbit cfg SAVETOFILE).

Definition compute_orbit (PermissionToWrite MUTATED : bool) (cfg : dict) : IO dict :=
  orbitFile ← lift (f ← getitem cfg "orbitFile"; as_str f);
  let SAVETOFILE := SAVETOFILE PermissionToWrite MUTATED orbitFile in
  mkdir (dirname orbitFile);;
  getOrbit cfg orbitFile SAVETOFILE.

(** ** [ExistentialCrisis], lines 553-578 *)

Definition set_ExistentialFileName (name : string) (self : Athena) : Athena :=
  {| verbose := verbose self;
     PermissionToWrite := PermissionToWrite self;
     ExistentialFileName := name;
     MutatedFromTelescopeFile := MutatedFromTelescopeFile self;
     telescope_go_params := telescope_go_params self;
     telescope_config_struct := telescope_config_struct self;
     telescope_source_coverage := telescope_source_coverage self;
     telescope_tile_struct := telescope_tile_struct self;
     ARF_file_loc_name := ARF_file_loc_name self;
     T_lat := T_lat self |}.

Definition set_telescope_config_struct (cfg : dict) (self : Athena) : Athena :=
  {| verbose := verbose self;
     PermissionToWrite := PermissionToWrite self;
     ExistentialFileName := ExistentialFileName self;
     MutatedFromTelescopeFile := MutatedFromTelescopeFile self;
     telescope_go_params := telescope_go_params self;
     telescope_config_struct := cfg;
     telescope_source_coverage := telescope_source_coverage self;
     telescope_tile_struct := telescope_tile_struct self;
     ARF_file_loc_name := ARF_file_loc_name self;
     T_lat := T_lat self |}.

Definition set_ARF_file_loc_name (name : string) (self : Athena) : Athena :=
  {| verbose := verbose self;
     PermissionToWrite := PermissionToWrite self;
     ExistentialFileName := ExistentialFileName self;
     MutatedFromTelescopeFile := MutatedFromTelescopeFile self;
     telescope_go_params := telescope_go_params self;
     telescope_config_struct := telescope_config_struct self;
     telescope_source_coverage := telescope_source_coverage self;
     telescope_tile_struct := telescope_tile_struct self;
     ARF_file_loc_name := Some name;
     T_lat := T_lat self |}.

(** [del d[k]] *)
Definition delitem (d : dict) (k : string) : result dict :=
  match d !! k with
  | Some _ => Ok (delete k d)
  | None => Raise (KeyError k)
  end.

(** Lines 571-574: the dictionary that is pickled, as it is read back. *)
Definition MyExistentialDict (self : Athena) : result SavedDict :=
  cfg ← delitem (telescope_config_struct self) "orbit_dict";
  cfg ← delitem cfg "tesselation";
  Ok {| sd_telescope_go_params := Some (telescope_go_params self);
        sd_telescope_config_struct := Some cfg;
        sd_telescope_source_coverage := Some (telescope_source_coverage self);
        sd_telescope_tile_struct := Some (telescope_tile_struct self);
        sd_MutatedFromTelescopeFile := MutatedFromTelescopeFile self |}.

Definition ExistentialCrisis (self : Athena) (NewFileName : option string) : IO Athena :=
  self ← match NewFileName with
         | Some name => mkdir (dirname name);; mret (set_ExistentialFileName name self)
         | None => mret self
         end;
  content ← lift (MyExistentialDict self);
  emit (WriteSave (ExistentialFileName self) content);;
  mret self.

(** ** [ComputeTesselation], lines 342-379 *)

(** [np.array(s.split(","),dtype=np.float)[0]]: every field is converted. *)
Definition first_exposuretime (s : string) : result Q :=
  match mapM np_float (split "," s) with
  | Some (x :: _) => Ok x
  | Some [] => Raise IndexError
  | None => Raise ValueError
  end.

(** Lines 345-348: the exposure time that is asked for. *)
Definition requested_exposuretime (go cfg : dict) : result value :=
  if has_key go "exposuretimes" then
    s ← getitem go "exposuretimes";
    s ← splittable s;
    x ← first_exposuretime s;
    Ok (VFloat x)
  else getitem cfg "exposuretime".

(** Lines 344-351. *)
Definition single_exposure (go cfg : dict) : result dict :=
  exposuretime ← requested_exposuretime go cfg;
  baseline ← getitem cfg "exposuretime";
  baseline ← as_num baseline;
  requested ← as_num exposuretime;
  if Qeq_bool requested 0 then Raise ZeroDivisionError
  else
    let nmag := (- (5 # 2) * np_log10 (np_sqrt (baseline / requested)))%Q in
    magnitude ← getitem cfg "magnitude";
    magnitude ← as_num magnitude;
    Ok (<["exposuretime" := exposuretime]>
          (<["magnitude" := VFloat (magnitude + nmag)%Q]> cfg)).

(** Modelled from the spec: the tesselation collaborators
    [spiralTesselation(config) -> (ra[], dec[])] and
    [packingTesselation(config) -> (ra[], dec[])] ([gwemopt] is not among the
    sources); called with [WriteToFile], they write the tesselation file
    exactly when the flag is set. *)
Definition tesselate (routine : dict -> list Q * list Q) (cfg : dict) (WriteToFile : bool)
  : IO (list Q * list Q) :=
  (if WriteToFile then
     f ← lift (getitem cfg "tesselationFile");
     emit (WriteTess (str_of_value f))
   else mret tt);;
  mret (routine cfg).

(** [[[ii,radec[0],radec[1]] for ii,radec in enumerate(zip(ras,decs))]] *)
Fixpoint tesselation_rows (ii : Z) (ras decs : list Q) : list (list Q) :=
  match ras, decs with
  | ra :: ras', dec :: decs' => [inject_Z ii; ra; dec] :: tesselation_rows (ii + 1) ras' decs'
  | _, _ => []
  end.

(** Lines 352-362. *)
Definition tesselation (self : Athena) (cfg : dict) : IO dict :=
  if has_key cfg "tesselationFile" then
    FOV_type ← lift (getitem cfg "FOV_type");
    radecs ←
      (if py_eq FOV_type (VStr "circle") then
         rd ← tesselate tesselation_spiral cfg (PermissionToWrite self); mret (Some rd)
       else
         FOV_type ← lift (getitem cfg "FOV_type");
         if py_eq FOV_type (VStr "square") then
           rd ← tesselate tesselation_packing cfg (PermissionToWrite self); mret (Some rd)
         else mret None);
    tilesType ← lift (getitem (telescope_go_params self) "tilesType");
    if py_eq tilesType (VStr "galaxy") then
      mret (<["tesselation" := VArr np_empty3]> cfg)
    else
      match radecs with
      | Some (ras, decs) => mret (<["tesselation" := VTable (tesselation_rows 0 ras decs)]> cfg)
      | None => raise (UnboundLocalError "ras")
      end
  else mret cfg.

(** Lines 364-376. *)
Definition reference_images (cfg : dict) : result dict :=
  if has_key cfg "referenceFile" then
    f ← getitem cfg "referenceFile";
    images ← read_reference_images f;
    Ok (<["reference_images" := images]> cfg)
  else Ok cfg.

Definition ComputeTesselation (self : Athena) : IO Athena :=
  doSingleExposure ← lift (getitem (telescope_go_params self) "doSingleExposure");
  cfg ← (if truthy doSingleExposure
         then lift (single_exposure (telescope_go_params self) (telescope_config_struct self))
         else mret (telescope_config_struct self));
  cfg ← tesselation self cfg;
  cfg ← lift (reference_images cfg);
  ExistentialCrisis (set_telescope_config_struct cfg self) None.

(** ** [__init__], lines 57-340 *)

(** What lines 96-179 leave in the local variables. *)
Record resurrected : Type := {
  r_ExistentialFileName : option string;        (* [None]: the attribute is not set *)
  r_MutatedFromTelescopeFile : option (option string);
  r_go_params : dict;
  r_config_struct : dict;
  r_source_coverage : option coverage;
  r_tile_struct : option tile_struct;
  MUTATED : bool
}.

(** Lines 172-179: nothing to resurrect, the defaults are used. *)
Definition from_defaults (name : option string) : resurrected :=
  {| r_ExistentialFileName := name;
     r_MutatedFromTelescopeFile := None;
     r_go_params := go_params_default;
     r_config_struct := config_struct_default;
     r_source_coverage := None;
     r_tile_struct := None;
     MUTATED := false |}.

(** Lines 110-171: the save file exists. *)
Definition from_save_file (name : string) (kw : kwargs) : result resurrected :=
  match load_SavedDict fs name with
  | None => Raise (ExternalError "pickle.load")
  | Some sd =>
      go ← match sd_telescope_go_params sd with
           | Some d => Ok d
           | None => Raise (KeyError "telescope_go_params")
           end;
      cfg ← match sd_telescope_config_struct sd with
            | Some d => Ok d
            | None => Raise (KeyError "telescope_config_struct")
            end;
      mutated ← decide_MUTATED kw go cfg;
      let '(go', cfg') := backfill kw go cfg in
      Ok {| r_ExistentialFileName := Some name;
            r_MutatedFromTelescopeFile := Some (saved_MutatedFromTelescopeFile sd);
            r_go_params := go';
            r_config_struct := cfg';
            r_source_coverage := saved_coverage name sd;
            r_tile_struct := saved_tile_struct sd;
            MUTATED := mutated |}
  end.

(** Lines 96-179. *)
Definition resurrect (kw : kwargs) : IO (kwargs * resurrected) :=
  match kw_get "ExistentialFileName" kw with
  | Some v =>
      let kw := kw_del "ExistentialFileName" kw in
      name ← check_ExistentialFileName v;
      if isfile fs name then
        r ← lift (from_save_file name kw);
        mret (kw, r)
      else mret (kw, from_defaults (Some name))
  | None => mret (kw, from_defaults None)
  end.

(** Lines 297-300: the save file named after the tesselation file. *)
Definition default_ExistentialFileName (cfg : dict) : result string :=
  tf ← getitem cfg "tesselationFile";
  tf ← splittable tf;
  Ok (with_extension
        (SYNEX_PATH +:+ "/Saved_Telescope_Dicts" +:+ last_item (split "gwemopt_tess_files" tf))
        ".dat").

(** Lines 181-340: the instrument built from what was resurrected. *)
Definition construct (fuel : nat) (verbose : value) (PermissionToWrite : bool)
    (kw : kwargs) (r : resurrected) : IO Athena :=
  let MUTATED := MUTATED r in
  (* lines 183-192 *)
  '(go, cfg, print_reminder) ← merge_kwargs verbose kw (r_go_params r) (r_config_struct r);
  (* lines 195-225 *)
  cfg ← lift (default_tesselationFile kw cfg);
  cfg ← lift (version_tesselationFile fuel MUTATED kw cfg);
  (* lines 228-258 *)
  cfg ← name_orbitFile cfg;
  cfg ← lift (version_orbitFile fuel MUTATED kw cfg);
  (* line 261 *)
  let '(go, cfg) := GWEMOPTPathChecks go cfg in
  (* lines 266-275 *)
  cfg ← compute_orbit PermissionToWrite MUTATED cfg;
  (* lines 280-294 *)
  let source_coverage := if MUTATED then None else r_source_coverage r in
  let tile_struct := if MUTATED then None else r_tile_struct r in
  (* lines 297-300 *)
  name ← match r_ExistentialFileName r with
         | Some name => mret name
         | None => lift (default_ExistentialFileName cfg)
         end;
  (* lines 303-324 *)
  '(MutatedFrom, name) ←
    (if MUTATED then
       new ← lift (version_ExistentialFileName fuel kw name);
       mret (Some (Some name), new)
     else mret (r_MutatedFromTelescopeFile r, name));
  (* lines 328-329 *)
  mkdir (dirname name);;
  (* line 333 *)
  self ← ComputeTesselation
           {| verbose := verbose;
              PermissionToWrite := PermissionToWrite;
              ExistentialFileName := name;
              MutatedFromTelescopeFile := MutatedFrom;
              telescope_go_params := go;
              telescope_config_struct := cfg;
              telescope_source_coverage := source_coverage;
              telescope_tile_struct := tile_struct;
              ARF_file_loc_name := None;
              T_lat := None |};
  (* line 336 *)
  let self := set_ARF_file_loc_name (SYNEX_PATH +:+ "/XIFU_CC_BASELINECONF_2018_10_10.arf") self in
  (* lines 339-340 *)
  (if print_reminder && truthy verbose then emit PrintReminder else mret tt);;
  mret self.

(** The constructor.  [MPI] is the size of the MPI world, [None] when
    [mpi4py] is not installed; [fuel] bounds each of the three loops that look
    for a free file name. *)
Definition init (fuel : nat) (MPI : option nat) (kw : kwargs) : IO Athena :=
  (* line 66 *)
  let verbose := match kw_get "verbose" kw with Some v => v | None => VBool true end in
  let kw := kw_del "verbose" kw in
  (* lines 78-86 *)
  let use_mpi := match MPI with Some MPI_size => (1 <? MPI_size)%nat | None => false end in
  let PermissionToWrite := negb use_mpi in
  (* lines 89-94 *)
  kw ← check_NewExistentialFileName kw;
  (* lines 96-179 *)
  '(kw, r) ← resurrect kw;
  construct fuel verbose PermissionToWrite kw r.

(** ** [GetKuiper], lines 381-551 *)

(** The method is followed statement by statement, with two omissions: the
    messages printed under [verbose] (lines 408, 455, 533, 549, 551), and the
    histograms of lines 465-470 and 520-524, which are computed from the
    photon phases and read by nothing. *)

(** *** Names *)

(** The names the module binds at its top level (lines 1-29), and the
    builtins it uses.  A name that a function reads and never assigns is
    looked up here. *)
Definition module_globals : list string :=
  ["u"; "astat"; "Time"; "astropy"; "astroplan"; "np"; "os"; "SYU"; "SYNEX_PATH";
   "gwemopt"; "json"; "date"; "pathlib"; "pickle"; "matplotlib"; "plt"; "scipy";
   "copy"; "MPI"; "Athena"].

Definition builtins_used : list string :=
  ["any"; "enumerate"; "hasattr"; "int"; "len"; "list"; "max"; "open"; "print";
   "range"; "str"; "sum"; "zip"].

Definition load_global (name : string) : result value :=
  if existsb (String.eqb name) (module_globals ++ builtins_used)
  then Ok (VObj name)
  else Raise (NameError name).

(** *** Numbers *)

Definition Qlt_bool (x y : Q) : bool := negb (Qle_bool y x).

(** [x % y] for floats *)
Definition py_mod (x y : Q) : Q := (x - y * inject_Z (Qfloor (x / y)))%Q.

(** [int(x)] for a float: towards zero. *)
Definition int_of_float (x : Q) : Z :=
  if Qle_bool 0 x then Qfloor x else Qceiling x.

(** [l.sort()] *)
Fixpoint insert_sorted (x : Q) (l : list Q) : list Q :=
  match l with
  | [] => [x]
  | y :: l' => if Qlt_bool x y then x :: l else y :: insert_sorted x l'
  end.

Definition sort (l : list Q) : list Q := fold_left (fun acc x => insert_sorted x acc) l [].

(** [[b for (a,b) in zip(l1,l2) if keep(a)]] *)
Fixpoint filter_zip {A B : Type} (keep : A -> bool) (l1 : list A) (l2 : list B) : list B :=
  match l1, l2 with
  | a :: l1', b :: l2' =>
      if keep a then b :: filter_zip keep l1' l2' else filter_zip keep l1' l2'
  | _, _ => []
  end.

(** *** Lines 392-422: the tiles of the remaining time *)

Definition key_eqb (k1 k2 : tile_key) : bool :=
  match k1, k2 with
  | KInt n, KInt m => (n =? m)%Z
  | KStr s, KStr t => String.eqb s t
  | _, _ => false
  end.

(** [TileDict[k]] *)
Definition td_getitem (td : TileDict) (k : string) : result tvalue :=
  match List.find (fun kv => key_eqb (fst kv) (KStr k)) td with
  | Some kv => Ok (snd kv)
  | None => Raise (KeyError k)
  end.

(** [int(k)] *)
Definition int_of_key (k : tile_key) : result Z :=
  match k with
  | KInt n => Ok n
  | KStr s => match int_of_str s with Some n => Ok n | None => Raise ValueError end
  end.

Definition Extra_keys : list string :=
  ["Tile Strat"; "overlap"; "LISA Data File"; "source_EM_properties"; "tile_structs";
   "go_params"; "map_struct"].

Definition in_Extra_keys (k : tile_key) : bool :=
  match k with
  | KStr s => existsb (String.eqb s) Extra_keys
  | KInt _ => false
  end.

(** The tiles of a tile dictionary of the [MaxProb] strategy: its
    entries other than the [Extra_keys]. *)
Definition tile_entries (td : TileDict) : TileDict :=
  List.filter (fun kv => negb (in_Extra_keys (fst kv))) td.

(** [{k: v for k, v in items if keep(k)}] where [keep] may raise. *)
Fixpoint dict_filter {V : Type} (keep : tile_key -> result bool) (items : list (tile_key * V))
  : result (list (tile_key * V)) :=
  match items with
  | [] => Ok []
  | (k, v) :: items' =>
      b ← keep k;
      rest ← dict_filter keep items';
      Ok (if b : bool then (k, v) :: rest else rest)
  end.

(** Lines 412-416. [None] when the loop over the telescopes never ran. *)
Definition reduce_TileDict (td : TileDict) (n_times : Z) : result (option TileDict) :=
  strat ← td_getitem td "Tile Strat";
  if match strat with TVal v => py_eq v (VStr "MaxProb") | _ => false end then
    reduced ← dict_filter
                (fun k => if in_Extra_keys k then Ok false
                          else n ← int_of_key k; Ok (n <? n_times)%Z) td;
    Ok (Some reduced)
  else
    structs ← td_getitem td "tile_structs";
    match structs with
    | TStructs telescopes =>
        fold_left
          (fun acc telescope =>
             _ ← acc;
             reduced ← dict_filter (fun k => n ← int_of_key k; Ok (n <? n_times)%Z)
                         (snd telescope);
             Ok (Some (List.map (fun kv => (fst kv, TTile (snd kv))) reduced)))
          telescopes (Ok None)
    | _ => Raise (AttributeError "keys")
    end.

(** [max(l)] *)
Definition py_max (l : list Z) : result Z :=
  match l with
  | [] => Raise ValueError
  | x :: l' => Ok (fold_left Z.max l' x)
  end.

(** Lines 412-421: the reduced dictionary, [n_times] after the truncation,
    and the tile numbers. *)
Definition select_tiles (td : TileDict) (n_times : Z) : result (TileDict * Z * list Z) :=
  reduced ← reduce_TileDict td n_times;
  match reduced with
  | None => Raise (UnboundLocalError "TileDict_reduced")
  | Some TileDict_reduced =>
      keys ← mapM (fun kv => int_of_key (fst kv)) TileDict_reduced;
      max_key ← py_max keys;
      let n_times := if (max_key <? n_times)%Z then max_key else n_times in
      Ok (TileDict_reduced, n_times, keys)
  end.

(** *** Lines 429-463: the photons *)

(** [l[0]] and [l[-1]] *)
Definition first_of (l : list Q) : result Q :=
  match l with x :: _ => Ok x | [] => Raise IndexError end.

Definition last_of (l : list Q) : result Q :=
  match l with [] => Raise IndexError | x :: l' => Ok (List.last l' x) end.

Definition Qsum (l : list Q) : Q := fold_left Qplus l 0%Q.

(** Arrival times and phases of the photons of the source and of the
    background, and the first time of the series. *)
Definition photons (src : source) (TimeToMerger : Q) : result (list Q * list Q * Q) :=
  let after_merger (time : Q) := Qle_bool TimeToMerger time in
  let xray_time_merger := List.filter after_merger (xray_time src) in
  let phi_merger :=
    List.map (fun phi => (phi / 2)%Q) (filter_zip after_merger (xray_time src) (GW_phi src)) in
  let CTR_merger := filter_zip after_merger (xray_time src) (CTR src) in
  let CTR_sum := Qsum CTR_merger in
  probs_merger ←
    mapM (fun CTR => if Qeq_bool CTR_sum 0 then Raise ZeroDivisionError
                     else Ok (CTR / CTR_sum)%Q) CTR_merger;
  let n_photons := int_of_float (np_trapz CTR_merger xray_time_merger) in
  ts ← first_of xray_time_merger;
  t_is_merger ← np_random_choice xray_time_merger n_photons probs_merger;
  let t_is_merger := sort t_is_merger in
  phi_is_merger ← interp1d xray_time_merger phi_merger t_is_merger;
  (* the background *)
  let CTR_bg := repeat (74 # 1000000)%Q (length CTR_merger) in
  let n_bg_photons := Z.to_nat (int_of_float (np_trapz CTR_bg xray_time_merger)) in
  let max_time := (- ts)%Q in
  time_lim ←
    last_of (List.map (fun time => (time - ts)%Q)
               (filter_zip (fun CTR => Qlt_bool 0 CTR) CTR_merger xray_time_merger));
  let t_is_bg :=
    sort (List.map (fun ii => (random_random ii * time_lim - max_time)%Q)
            (seq 0 n_bg_photons)) in
  let rand_angles :=
    List.map (fun ii => (random_random ii * two_pi)%Q) (seq n_bg_photons n_bg_photons) in
  Ok (t_is_merger ++ t_is_bg, phi_is_merger ++ rand_angles, ts).

(** *** Lines 473-546: the tiles, one after the other *)

(** The seven traces. *)
Record traces : Type := {
  tile_kuiper_p_val_trace : list Q;
  tile_detection_p_val_trace : list Q;
  exposure_kuiper_trace : list Q;
  exposure_kuiper_p_val_trace : list Q;
  detection_kuiper_p_val_trace : list Q;
  accum_exposure_photons_trace : list Z;
  exposure_photons_trace : list Z
}.

(** What the exposures of the source have accumulated. *)
Record exposures : Type := {
  self_n_photons : list Z;          (* [self.n_photons] *)
  n_exposures : Z;
  exposure_tiles : list Z;
  kuipers : list Q;
  exposure_photons : Z;
  exposure_t_is : list Q;
  exposure_phi_is : list Q
}.

(** The local variables the traces are filled from; the two detection
    p-values are unbound until a tile contains the source. *)
Record statistics : Type := {
  exposure_kuiper : Q;
  exposure_p_val : Q;
  tile_p_val : Q;
  n_photons : Z;
  detection_p_val : option Q;
  tile_detection_p_val : option Q
}.

Record run : Type := {
  run_traces : traces;
  run_exposures : exposures;
  run_statistics : statistics;
  ts : Q;
  te : Q
}.

Definition on_traces (f : traces -> traces) (r : run) : run :=
  {| run_traces := f (run_traces r); run_exposures := run_exposures r;
     run_statistics := run_statistics r; ts := ts r; te := te r |}.

Definition on_exposures (f : exposures -> exposures) (r : run) : run :=
  {| run_traces := run_traces r; run_exposures := f (run_exposures r);
     run_statistics := run_statistics r; ts := ts r; te := te r |}.

Definition on_statistics (f : statistics -> statistics) (r : run) : run :=
  {| run_traces := run_traces r; run_exposures := run_exposures r;
     run_statistics := f (run_statistics r); ts := ts r; te := te r |}.

(** Lines 473-496. *)
Definition first_run (ts T_lat : Q) : run :=
  {| run_traces :=
       {| tile_kuiper_p_val_trace := []; tile_detection_p_val_trace := [];
          exposure_kuiper_trace := []; exposure_kuiper_p_val_trace := [];
          detection_kuiper_p_val_trace := []; accum_exposure_photons_trace := [];
          exposure_photons_trace := [] |};
     run_exposures :=
       {| self_n_photons := []; n_exposures := 0; exposure_tiles := [];
          kuipers := [(1 # 10)%Q]; exposure_photons := 0; exposure_t_is := [];
          exposure_phi_is := [] |};
     run_statistics :=
       {| exposure_kuiper := (1 # 100)%Q; exposure_p_val := 1%Q; tile_p_val := 1%Q;
          n_photons := 0; detection_p_val := None; tile_detection_p_val := None |};
     ts := ts;
     te := (ts + T_lat)%Q |}.

(** Line 502. *)
Definition source_in_tile (src : source) (t : tile) : bool :=
  Qlt_bool (beta src) (snd (beta_range t)) && Qlt_bool (fst (beta_range t)) (beta src)
  && Qlt_bool (lamda src) (snd (lambda_range t)) && Qlt_bool (fst (lambda_range t)) (lamda src).

(** Lines 528-529: [1.-(1.-p)**(n_exposures*518400)], on rationals.  The
    floats of the code round: for a [p] below [2^-53] the difference [1.-p]
    is [1.] and the result [0.].  The range of the result, [[0,1]] for a
    [p] in [[0,1]], is the same for floats and for rationals; an order
    between the result and [p] is not. *)
Definition detection (p : Q) (n_exposures : Z) : Q :=
  (1 - (1 - p) ^ (n_exposures * 518400))%Q.

(** Lines 504-509: the photons of the tile. *)
Definition count_photons (t_is_merger phi_is_merger : list Q) : M run (list Q * list Q) :=
  r ← get;
  let in_window (time : Q) := Qlt_bool (ts r) time && Qlt_bool time (te r) in
  let t_is := List.filter in_window t_is_merger in
  let phi_is :=
    List.map (fun phi_i => py_mod phi_i two_pi)
      (filter_zip in_window t_is_merger phi_is_merger) in
  let n := Z.of_nat (length t_is) in
  modify (on_statistics (fun s =>
    {| exposure_kuiper := exposure_kuiper s; exposure_p_val := exposure_p_val s;
       tile_p_val := tile_p_val s; n_photons := n;
       detection_p_val := detection_p_val s;
       tile_detection_p_val := tile_detection_p_val s |}));;
  modify (on_exposures (fun e =>
    {| self_n_photons := self_n_photons e ++ [n]; n_exposures := n_exposures e;
       exposure_tiles := exposure_tiles e; kuipers := kuipers e;
       exposure_photons := exposure_photons e; exposure_t_is := exposure_t_is e;
       exposure_phi_is := exposure_phi_is e |}));;
  mret (t_is, phi_is).

(** Lines 511-512: the Kuiper test of the tile. *)
Definition test_tile (phi_is : list Q) : M run unit :=
  '(tile_kuiper, p) ← lift (kuiper phi_is);
  modify (on_statistics (fun s =>
    {| exposure_kuiper := exposure_kuiper s; exposure_p_val := exposure_p_val s;
       tile_p_val := p; n_photons := n_photons s;
       detection_p_val := detection_p_val s;
       tile_detection_p_val := tile_detection_p_val s |}));;
  modify (on_exposures (fun e =>
    {| self_n_photons := self_n_photons e; n_exposures := n_exposures e;
       exposure_tiles := exposure_tiles e; kuipers := kuipers e ++ [tile_kuiper];
       exposure_photons := exposure_photons e; exposure_t_is := exposure_t_is e;
       exposure_phi_is := exposure_phi_is e |})).

(** Lines 515-519: the exposure grows by the tile. *)
Definition accumulate (key : tile_key) (t_is phi_is : list Q) : M run unit :=
  modify (on_exposures (fun e =>
    {| self_n_photons := self_n_photons e; n_exposures := n_exposures e + 1;
       exposure_tiles := exposure_tiles e; kuipers := kuipers e;
       exposure_photons := exposure_photons e; exposure_t_is := exposure_t_is e;
       exposure_phi_is := exposure_phi_is e |}));;
  ID ← lift (int_of_key key);
  r ← get;
  let n := n_photons (run_statistics r) in
  modify (on_exposures (fun e =>
    {| self_n_photons := self_n_photons e; n_exposures := n_exposures e;
       exposure_tiles := exposure_tiles e ++ [ID]; kuipers := kuipers e;
       exposure_photons := exposure_photons e + n;
       exposure_t_is := exposure_t_is e ++ t_is;
       exposure_phi_is := exposure_phi_is e ++ phi_is |})).

(** Lines 525-532: the Kuiper test of the exposure, and the detection p-values. *)
Definition test_exposure : M run unit :=
  r ← get;
  '(k, p) ← lift (kuiper (exposure_phi_is (run_exposures r)));
  let n := n_exposures (run_exposures r) in
  modify (on_statistics (fun s =>
    {| exposure_kuiper := k; exposure_p_val := p;
       tile_p_val := tile_p_val s; n_photons := n_photons s;
       detection_p_val :=
         Some (if (0 <? n)%Z then detection p n else (1 - (1 - p))%Q);
       tile_detection_p_val :=
         Some (if (0 <? n)%Z then detection (tile_p_val s) n
               else (1 - (1 - tile_p_val s))%Q) |})).

(** A local variable that is read: unbound while nothing was assigned to it. *)
Definition bound (name : string) (v : option Q) : M run Q :=
  match v with
  | Some x => mret x
  | None => raise (UnboundLocalError name)
  end.

(** Lines 536-542: one more entry in each trace. *)
Definition record_traces : M run unit :=
  r ← get;
  let s := run_statistics r in
  modify (on_traces (fun t =>
    {| tile_kuiper_p_val_trace := tile_kuiper_p_val_trace t ++ [tile_p_val s];
       tile_detection_p_val_trace := tile_detection_p_val_trace t;
       exposure_kuiper_trace := exposure_kuiper_trace t;
       exposure_kuiper_p_val_trace := exposure_kuiper_p_val_trace t;
       detection_kuiper_p_val_trace := detection_kuiper_p_val_trace t;
       accum_exposure_photons_trace := accum_exposure_photons_trace t;
       exposure_photons_trace := exposure_photons_trace t |}));;
  tile_detection ← bound "tile_detection_p_val" (tile_detection_p_val s);
  modify (on_traces (fun t =>
    {| tile_kuiper_p_val_trace := tile_kuiper_p_val_trace t;
       tile_detection_p_val_trace := tile_detection_p_val_trace t ++ [tile_detection];
       exposure_kuiper_trace := exposure_kuiper_trace t ++ [exposure_kuiper s];
       exposure_kuiper_p_val_trace := exposure_kuiper_p_val_trace t ++ [exposure_p_val s];
       detection_kuiper_p_val_trace := detection_kuiper_p_val_trace t;
       accum_exposure_photons_trace := accum_exposure_photons_trace t;
       exposure_photons_trace := exposure_photons_trace t |}));;
  detection ← bound "detection_p_val" (detection_p_val s);
  modify (on_traces (fun t =>
    {| tile_kuiper_p_val_trace := tile_kuiper_p_val_trace t;
       tile_detection_p_val_trace := tile_detection_p_val_trace t;
       exposure_kuiper_trace := exposure_kuiper_trace t;
       exposure_kuiper_p_val_trace := exposure_kuiper_p_val_trace t;
       detection_kuiper_p_val_trace := detection_kuiper_p_val_trace t ++ [detection];
       accum_exposure_photons_trace :=
         accum_exposure_photons_trace t ++ [exposure_photons (run_exposures r)];
       exposure_photons_trace := exposure_photons_trace t ++ [n_photons s] |})).

(** Lines 545-546: the window of the next tile. *)
Definition next_window (T_lat : Q) (r : run) : run :=
  {| run_traces := run_traces r; run_exposures := run_exposures r;
     run_statistics := run_statistics r; ts := te r; te := (te r + T_lat)%Q |}.

(** The body of the loop, lines 501-546. *)
Definition observe_tile (src : source) (T_lat : Q) (t_is_merger phi_is_merger : list Q)
    (entry : tile_key * tvalue) : M run unit :=
  t ← lift (match snd entry with TTile t => Ok t | _ => Raise TypeError end);
  (if source_in_tile src t then
     '(t_is, phi_is) ← count_photons t_is_merger phi_is_merger;
     test_tile phi_is;;
     accumulate (fst entry) t_is phi_is;;
     test_exposure
   else mret tt);;
  record_traces;;
  modify (next_window T_lat).

(** Lines 500-546. *)
Definition observe_tiles (src : source) (T_lat : Q) (t_is_merger phi_is_merger : list Q)
    (tiles : TileDict) : M run unit :=
  for_each tiles (fun entry _ => observe_tile src T_lat t_is_merger phi_is_merger entry) tt.

(** *** The method *)

(** What lines 392-470 hand to the loop over the tiles. *)
Record prepared : Type := {
  p_source : source;
  p_T_lat : Q;
  p_n_times : Z;
  p_TileDict_reduced : TileDict;
  p_tileIDs : list Z;                (* [self.tileIDs] *)
  p_tile_times : list Q;             (* [self.tile_times] *)
  p_t_is_merger : list Q;
  p_phi_is_merger : list Q;
  p_ts : Q
}.

(** Lines 392-470. *)
Definition prepare (self : Athena) (TilePickleFile : string) (src : option source)
  : result prepared :=
  TileDict ← match load_TileDict fs TilePickleFile with
             | Some td => Ok td
             | None => Raise (FileNotFoundError TilePickleFile)
             end;
  H5FileLocAndName ← td_getitem TileDict "LISA Data File";
  LISAPosteriorDataFile ← load_global "LISAPosteriorDataFile";
  '(json_file, H5FileLocAndName) ← CompleteLisabetaDataAndJsonFileNames LISAPosteriorDataFile;
  input_params ← match load_json fs json_file with
                 | Some params => Ok params
                 | None => Raise (FileNotFoundError json_file)
                 end;
  src ← match src with Some src => Ok src | None => Raise (AttributeError "xray_time") end;
  T_s ← first_of (xray_time src);
  DeltatL_cut ← match input_params with
                | Some cut => Ok cut
                | None => Raise (KeyError "DeltatL_cut")
                end;
  let TimeToMerger := if Qlt_bool DeltatL_cut T_s then T_s else DeltatL_cut in
  T_lat ← match T_lat self with Some t => Ok t | None => Raise (AttributeError "T_lat") end;
  if Qeq_bool T_lat 0 then Raise ZeroDivisionError
  else
    let n_times := Qfloor (- TimeToMerger / T_lat) in
    '(TileDict_reduced, n_times, tileIDs) ← select_tiles TileDict n_times;
    let tile_times :=
      List.map (fun ID => ((inject_Z ID - (1 # 2)) * T_lat + TimeToMerger)%Q) tileIDs in
    '(t_is_merger, phi_is_merger, ts) ← photons src TimeToMerger;
    Ok {| p_source := src; p_T_lat := T_lat; p_n_times := n_times;
          p_TileDict_reduced := TileDict_reduced; p_tileIDs := tileIDs;
          p_tile_times := tile_times; p_t_is_merger := t_is_merger;
          p_phi_is_merger := phi_is_merger; p_ts := ts |}.

(** [GetKuiper]: how the call ends, and the run it leaves in the attributes
    of [self] ([None] when it raised before the traces were created). *)
Definition GetKuiper (self : Athena) (TilePickleFile : string) (src : option source)
  : result unit * option run :=
  match prepare self TilePickleFile src with
  | Raise e => (Raise e, None)
  | Ok p =>
      let '(r, final) :=
        observe_tiles (p_source p) (p_T_lat p) (p_t_is_merger p) (p_phi_is_merger p)
          (p_TileDict_reduced p) (first_run (p_ts p) (p_T_lat p)) in
      (r, Some final)
  end.

End Model.

(* ===================================================================== *)
(** * A concrete installation *)
(* ===================================================================== *)

(** Inputs the statements below are run on: a small pair of default
    dictionaries, collaborators that return fixed values, and a file system
    that holds the save file of an instrument together with its
    tesselation file and two later versions of it. *)
Module Demo.

Definition go_params : dict :=
  list_to_map
    [("doSingleExposure", VBool false); ("tilesType", VStr "moc");
     ("Tobs", VArr [0%Q; 1%Q])].

Definition config_struct : dict :=
  list_to_map
    [("tesselationFile", VNone); ("telescope", VStr "Athena"); ("orbitFile", VNone);
     ("FOV_type", VStr "circle"); ("magnitude", VFloat 18); ("exposuretime", VFloat 10000);
     ("gps_science_start", VFloat 1703721618); ("mission_duration", VFloat 3);
     ("inc", VFloat 60); ("MeanRadius", VFloat 750000000);
     ("eccentricity", VFloat (4 # 10)); ("ArgPeriapsis", VFloat 20);
     ("AscendingNode", VFloat (-10)); ("period", VFloat 90);
     ("frozenAthena", VBool true)].

#[export] Instance collaborators : Collaborators :=
  {| SYNEX_PATH := "/opt/SYNEX";
     go_params_default := go_params;
     config_struct_default := config_struct;
     GWEMOPTPathChecks := fun go cfg => (go, cfg);
     gps_isot := fun _ => Ok "2034-01-01T00:00:00.000";
     float_str := fun _ => "0.0";
     get_telescope_orbit := fun cfg _ => <["orbit_dict" := VObj "orbit"]> cfg;
     tesselation_spiral := fun _ => ([1%Q; 2%Q], [3%Q; 4%Q]);
     tesselation_packing := fun _ => ([1%Q], [3%Q]);
     np_float := fun s => option_map inject_Z (int_of_str s);
     np_log10 := fun x => (x - 1)%Q;
     np_sqrt := fun x => x;
     np_empty3 := [0%Q; 0%Q; 0%Q];
     read_reference_images := fun _ => Ok VNone;
     CompleteLisabetaDataAndJsonFileNames := fun _ => Ok ("a.json", "a.h5");
     np_trapz := fun _ _ => 0%Q;
     np_random_choice := fun _ _ _ => Ok [];
     interp1d := fun _ _ _ => Ok [];
     random_random := fun _ => (1 # 2)%Q;
     two_pi := (6283185307 # 1000000000)%Q;
     kuiper := fun _ => Ok ((1 # 10)%Q, (1 # 2)%Q) |}.

Definition save_file : string := "/opt/SYNEX/Saved_Telescope_Dicts/Athena.dat".
Definition tess_stem : string := "/opt/SYNEX/gwemopt_tess_files/Athena".

Definition a_tile : tile := {| beta_range := (0%Q, 1%Q); lambda_range := (0%Q, 1%Q) |}.

Definition far_tile : tile := {| beta_range := (5%Q, 6%Q); lambda_range := (0%Q, 1%Q) |}.

Definition saved_config_struct : dict :=
  <["tesselationFile" := VStr (tess_stem +:+ ".tess")]>
    (<["orbitFile" := VStr "/opt/SYNEX/orbit_files/o.dat"]> config_struct).

(** The snapshot of an instrument whose coverage and tiles were computed. *)
Definition snapshot : SavedDict :=
  {| sd_telescope_go_params := Some go_params;
     sd_telescope_config_struct := Some saved_config_struct;
     sd_telescope_source_coverage :=
       Some (Some {| source_JsonFile := Some "/cluster/SYNEX/x/a.json";
                     source_H5File := None;
                     source_save_file := None;
                     cov_derived := ∅ |});
     sd_telescope_tile_struct := Some (Some [(KInt 0, a_tile)]);
     sd_MutatedFromTelescopeFile := None |}.

Definition files : filesystem :=
  {| isfile := fun p =>
       existsb (String.eqb p)
         [save_file; tess_stem +:+ ".tess"; tess_stem +:+ "_1.tess";
          tess_stem +:+ "_2.tess"];
     mkdir_ok := fun _ => true;
     load_SavedDict := fun p => if String.eqb p save_file then Some snapshot else None;
     load_TileDict := fun p =>
       if String.eqb p "tiles.dat"
       then Some [(KStr "Tile Strat", TVal (VStr "MaxProb"));
                  (KStr "LISA Data File", TVal (VStr "a.h5"));
                  (KInt 0, TTile a_tile)]
       else None;
     load_json := fun _ => Some (Some (-100)%Q) |}.

(** An installation whose only file is the tesselation file of a field of
    view of 2.5 degrees. *)
Definition decimal_name : string := "/opt/SYNEX/gwemopt_tess_files/Athena_2.5deg".

Definition decimal_files : filesystem :=
  {| isfile := fun p => String.eqb p (decimal_name +:+ ".tess");
     mkdir_ok := fun _ => true;
     load_SavedDict := fun _ => None;
     load_TileDict := fun _ => None;
     load_json := fun _ => None |}.

(** Keyword arguments that load the saved instrument with another field
    of view (and the magnitude it already has). *)
Definition new_field_of_view : kwargs :=
  [("ExistentialFileName", VStr save_file); ("FOV_type", VStr "square");
   ("magnitude", VFloat 18)].

(** Keyword arguments that load the saved instrument with another field
    of view, and nothing else. *)
Definition only_field_of_view : kwargs :=
  [("ExistentialFileName", VStr save_file); ("FOV_type", VStr "square")].

(** A source in the middle of [a_tile], and one outside of it. *)
Definition source_in : source :=
  {| xray_time := [(-50)%Q; (-10)%Q]; xray_flux := [1%Q; 1%Q];
     GW_phi := [0%Q; 1%Q]; CTR := [1%Q; 1%Q];
     beta := (1 # 2)%Q; lamda := (1 # 2)%Q |}.

Definition source_out : source :=
  {| xray_time := [(-50)%Q; (-10)%Q]; xray_flux := [1%Q; 1%Q];
     GW_phi := [0%Q; 1%Q]; CTR := [1%Q; 1%Q];
     beta := 2%Q; lamda := (1 # 2)%Q |}.

(** Photons: arrival times and phases. *)
Definition t_is : list Q := [(-49)%Q; (-45)%Q; (-30)%Q].
Definition phi_is : list Q := [(1 # 2)%Q; 1%Q; 7%Q].

(** An instrument for which a single exposure of 100 s is asked, on a
    baseline of 10000 s. *)
Definition single_exposure_instrument : Athena :=
  {| verbose := VBool false;
     PermissionToWrite := true;
     ExistentialFileName := save_file;
     MutatedFromTelescopeFile := None;
     telescope_go_params :=
       <["doSingleExposure" := VBool true]> (<["exposuretimes" := VStr "100,200"]> go_params);
     telescope_config_struct := <["orbit_dict" := VObj "orbit"]> saved_config_struct;
     telescope_source_coverage := None;
     telescope_tile_struct := None;
     ARF_file_loc_name := None;
     T_lat := None |}.

(** An instrument whose tiles take 20 s each. *)
Definition timed_instrument : Athena :=
  {| verbose := VBool false;
     PermissionToWrite := true;
     ExistentialFileName := save_file;
     MutatedFromTelescopeFile := None;
     telescope_go_params := go_params;
     telescope_config_struct := <["orbit_dict" := VObj "orbit"]> saved_config_struct;
     telescope_source_coverage := None;
     telescope_tile_struct := None;
     ARF_file_loc_name := None;
     T_lat := Some 20%Q |}.

End Demo.

#[local] Existing Instance Demo.collaborators.

(* ===================================================================== *)
(** * Vocabulary of the statements *)
(* ===================================================================== *)

(** [ids] are the numbers of the tiles [tiles], in order. *)
Definition numbered {V : Type} (tiles : list (tile_key * V)) (ids : list Z) : Prop :=
  Forall2 (fun kv id => int_of_key (fst kv) = Ok id) tiles ids.

(** A probability. *)
Definition unit_interval (x : Q) : Prop := (0 <= x <= 1)%Q.

(** What holds for an optional value when it is there. *)
Definition when_bound (P : Q -> Prop) (v : option Q) : Prop :=
  match v with Some x => P x | None => True end.

(** The p-values of a run, in its variables and in its traces. *)
Record p_values_in_range (r : run) : Prop := {
  range_tile_p_val : unit_interval (tile_p_val (run_statistics r));
  range_exposure_p_val : unit_interval (exposure_p_val (run_statistics r));
  range_detection : when_bound unit_interval (detection_p_val (run_statistics r));
  range_tile_detection :
    when_bound unit_interval (tile_detection_p_val (run_statistics r));
  range_n_exposures : 0 <= n_exposures (run_exposures r);
  range_tile_trace : Forall unit_interval (tile_kuiper_p_val_trace (run_traces r));
  range_exposure_trace : Forall unit_interval (exposure_kuiper_p_val_trace (run_traces r));
  range_detection_trace :
    Forall unit_interval (detection_kuiper_p_val_trace (run_traces r));
  range_tile_detection_trace :
    Forall unit_interval (tile_detection_p_val_trace (run_traces r))
}.

(** Every trace holds [n] records. *)
Definition trace_lengths (t : traces) (n : nat) : Prop :=
  length (tile_kuiper_p_val_trace t) = n
  /\ length (tile_detection_p_val_trace t) = n
  /\ length (exposure_kuiper_trace t) = n
  /\ length (exposure_kuiper_p_val_trace t) = n
  /\ length (detection_kuiper_p_val_trace t) = n
  /\ length (accum_exposure_photons_trace t) = n
  /\ length (exposure_photons_trace t) = n.

(** The two detection p-values have been assigned. *)
Definition detections_bound (r : run) : Prop :=
  is_Some (detection_p_val (run_statistics r))
  /\ is_Some (tile_detection_p_val (run_statistics r)).

(** A tile with a number. *)
Definition numbered_tile (entry : tile_key * tvalue) : Prop :=
  exists t ID, snd entry = TTile t /\ int_of_key (fst entry) = Ok ID.

(** The writes that the permission of the process governs. *)
Definition is_orbit_or_tess_write (e : event) : bool :=
  match e with
  | WriteOrbit _ | WriteTess _ => true
  | _ => false
  end.

(** Whatever the log it starts from and however it ends, the statement [m]
    adds to the log only events in [P]. *)
Definition emits {A : Type} (P : event -> Prop) (m : M (list event) A) : Prop :=
  forall log, exists new, snd (m log) = log ++ new /\ Forall P new.

(** A keyword argument that names no parameter of either dictionary and is
    not on the list of line 189. *)
Definition is_unknown_key (go cfg : dict) (kv : string * value) : bool :=
  negb (has_key go (fst kv)) && negb (has_key cfg (fst kv))
  && negb (is_not_gwemopt_key (fst kv)).

(** What lines 183-192 leave behind, from the keyword arguments [kw], the
    dictionaries [go] and [cfg], the flag and the log before them: a keyword
    argument replaces the parameter of its name, in [go] first; one that
    names no parameter is added to [cfg], unless it is on the list of line
    189; the flag is raised and the advisory printed for each key added. *)
Record merged (verbose : value) (kw : kwargs) (go cfg : dict) (print_reminder : bool)
    (log : list event) (go' cfg' : dict) (print_reminder' : bool) (log' : list event)
  : Prop := {
  merged_go : forall k,
    go' !! k = match kw_get k kw with
               | Some v => if has_key go k then Some v else None
               | None => go !! k
               end;
  merged_cfg : forall k,
    cfg' !! k = match kw_get k kw with
                | Some v =>
                    if has_key go k then cfg !! k
                    else if has_key cfg k || negb (is_not_gwemopt_key k) then Some v
                    else None
                | None => cfg !! k
                end;
  merged_reminder :
    print_reminder' = print_reminder || existsb (is_unknown_key go cfg) kw;
  merged_log :
    log' = log ++ (if truthy verbose
                   then map (fun kv => PrintNewKey (fst kv))
                          (List.filter (is_unknown_key go cfg) kw)
                   else [])
}.

(** The write of a save file. *)
Definition is_save_write (e : event) : bool :=
  match e with
  | WriteSave _ _ => true
  | _ => false
  end.

(** The file system once the snapshot [content] has been written to [p]. *)
Definition with_save_file (fs : filesystem) (p : string) (content : SavedDict) : filesystem :=
  {| isfile := fun q => String.eqb q p || isfile fs q;
     mkdir_ok := mkdir_ok fs;
     load_SavedDict := fun q => if String.eqb q p then Some content else load_SavedDict fs q;
     load_TileDict := load_TileDict fs;
     load_json := load_json fs |}.

(** No save file is written. *)
Abbreviation no_save_write := (Forall (fun e => is_save_write e = false)).

(** The run from [log] to [log'] has written one save file, the one of
    [self], holding the snapshot of [self]. *)
Definition saved_once (log log' : list event) (self : Athena) : Prop :=
  exists before content after,
    log' = log ++ before ++ WriteSave (ExistentialFileName self) content :: after
    /\ no_save_write before /\ no_save_write after
    /\ MyExistentialDict self = Ok content.

(** With [content] in the save file [name], resurrecting [name] alone
    reads back what [self] holds: its search parameters, its configuration
    without the orbit and the tesselation, its tiles and its coverage, and
    finds no mutation. *)
Definition reads_back `{Ext : Collaborators} (fs : filesystem) (self : Athena)
    (name : string) (content : SavedDict) : Prop :=
  forall log, exists r,
    let fs' := with_save_file fs name content in
    resurrect fs' [("ExistentialFileName", VStr name)] log
    = (Ok ([], r), log ++ [MkDir (dirname name)])
    /\ r_ExistentialFileName r = Some name
    /\ r_go_params r = telescope_go_params self
    /\ r_config_struct r
       = delete "tesselation" (delete "orbit_dict" (telescope_config_struct self))
    /\ r_tile_struct r = telescope_tile_struct self
    /\ r_source_coverage r
       = option_map (adapt_coverage fs' name) (telescope_source_coverage self)
    /\ MUTATED r = false.

(** What lines 163-171 leave under the key [k] of a dictionary [d] with
    defaults [defaults]: a keyword argument that names a default parameter
    puts its value there when [d] lacks the key (and the key is not on the
    list of line 164), and the default otherwise. *)
Definition backfilled (defaults : dict) (kw : kwargs) (d : dict) (k : string)
  : option value :=
  match kw_get k kw, defaults !! k with
  | Some v, Some dv =>
      if negb (has_key d k) && negb (is_not_gwemopt_key k) then Some v else Some dv
  | _, _ => d !! k
  end.

(** The tiles that contain the source. *)
Definition hits (src : source) (tiles : TileDict) : TileDict :=
  List.filter (fun entry => match snd entry with
                            | TTile t => source_in_tile src t
                            | _ => false
                            end) tiles.

(** [sum(l)] *)
Definition Zsum (l : list Z) : Z := fold_right Z.add 0 l.

(** The record that a tile appends to the traces: what the variables of
    the run hold once the tile has been looked at. *)
Definition recorded (before after : run) : Prop :=
  exists d td,
    detection_p_val (run_statistics after) = Some d
    /\ tile_detection_p_val (run_statistics after) = Some td
    /\ run_traces after
       = {| tile_kuiper_p_val_trace :=
              tile_kuiper_p_val_trace (run_traces before)
              ++ [tile_p_val (run_statistics after)];
            tile_detection_p_val_trace :=
              tile_detection_p_val_trace (run_traces before) ++ [td];
            exposure_kuiper_trace :=
              exposure_kuiper_trace (run_traces before)
              ++ [exposure_kuiper (run_statistics after)];
            exposure_kuiper_p_val_trace :=
              exposure_kuiper_p_val_trace (run_traces before)
              ++ [exposure_p_val (run_statistics after)];
            detection_kuiper_p_val_trace :=
              detection_kuiper_p_val_trace (run_traces before) ++ [d];
            accum_exposure_photons_trace :=
              accum_exposure_photons_trace (run_traces before)
              ++ [exposure_photons (run_exposures after)];
            exposure_photons_trace :=
              exposure_photons_trace (run_traces before)
              ++ [n_photons (run_statistics after)] |}.

(** The exposure that a tile with the source adds: the photons that
    arrive strictly inside the window of the tile. *)
Definition exposed (t_is_merger : list Q) (ID : Z) (before after : run) : Prop :=
  let n :=
    Z.of_nat (length (List.filter
                        (fun time => Qlt_bool (ts before) time && Qlt_bool time (te before))
                        t_is_merger)) in
  let e := run_exposures before in
  let e' := run_exposures after in
  n_photons (run_statistics after) = n
  /\ self_n_photons e' = self_n_photons e ++ [n]
  /\ n_exposures e' = n_exposures e + 1
  /\ exposure_tiles e' = exposure_tiles e ++ [ID]
  /\ exposure_photons e' = exposure_photons e + n
  /\ exists k, kuipers e' = kuipers e ++ [k].

(** The list [l'] is [l] with its last entry once more. *)
Definition repeats_last {A : Type} (l l' : list A) : Prop :=
  exists l0 x, l = l0 ++ [x] /\ l' = l0 ++ [x; x].

(** Each of the seven traces repeats its last record. *)
Definition carried_forward (t t' : traces) : Prop :=
  repeats_last (tile_kuiper_p_val_trace t) (tile_kuiper_p_val_trace t')
  /\ repeats_last (tile_detection_p_val_trace t) (tile_detection_p_val_trace t')
  /\ repeats_last (exposure_kuiper_trace t) (exposure_kuiper_trace t')
  /\ repeats_last (exposure_kuiper_p_val_trace t) (exposure_kuiper_p_val_trace t')
  /\ repeats_last (detection_kuiper_p_val_trace t) (detection_kuiper_p_val_trace t')
  /\ repeats_last (accum_exposure_photons_trace t) (accum_exposure_photons_trace t')
  /\ repeats_last (exposure_photons_trace t) (exposure_photons_trace t').

(** The number of exposures when tile [i] has been looked at: the tiles
    among the first [i+1] that contain the source. *)
Definition exposures_upto (src : source) (tiles : TileDict) (i : nat) : Z :=
  Z.of_nat (length (hits src (take (S i) tiles))).

(** Every record [d] of a trace of corrected p-values is
    [1 - (1 - p)^(N*518400)], for the record [p] of the trace of p-values at
    the same place and the number [N] of exposures at that tile. *)
Definition corrected_by_formula (src : source) (tiles : TileDict) (ps ds : list Q) : Prop :=
  forall i d,
    ds !! i = Some d ->
    exists p, ps !! i = Some p
              /\ d = (1 - (1 - p) ^ (exposures_upto src tiles i * 518400))%Q.

Definition traces_follow_formula (src : source) (tiles : TileDict) (t : traces) : Prop :=
  corrected_by_formula src tiles
    (exposure_kuiper_p_val_trace t) (detection_kuiper_p_val_trace t)
  /\ corrected_by_formula src tiles
       (tile_kuiper_p_val_trace t) (tile_detection_p_val_trace t).

(** What the loop over [tiles] keeps, once it has looked at the tiles
    [seen]: the exposures are counted, the traces hold one record for each
    tile, and the corrected p-values, in the variables and in the traces,
    come from the formula. *)
Record formula_invariant (src : source) (tiles seen : TileDict) (r : run) : Prop := {
  formula_n_exposures : n_exposures (run_exposures r) = Z.of_nat (length (hits src seen));
  formula_exposure_length :
    length (exposure_kuiper_p_val_trace (run_traces r)) = length seen;
  formula_detection_length :
    length (detection_kuiper_p_val_trace (run_traces r)) = length seen;
  formula_tile_length : length (tile_kuiper_p_val_trace (run_traces r)) = length seen;
  formula_tile_detection_length :
    length (tile_detection_p_val_trace (run_traces r)) = length seen;
  formula_detection :
    when_bound
      (fun d => d = detection (exposure_p_val (run_statistics r))
                      (n_exposures (run_exposures r)))
      (detection_p_val (run_statistics r));
  formula_tile_detection :
    when_bound
      (fun td => td = detection (tile_p_val (run_statistics r))
                        (n_exposures (run_exposures r)))
      (tile_detection_p_val (run_statistics r));
  formula_traces : traces_follow_formula src tiles (run_traces r)
}.

(** The values that [!=] compares at lines 153-154 are plain: [None], a
    [bool], a number or a [str], for every keyword argument other than
    [Tobs] and for the saved parameter of its name.  (A numpy array under
    [!=] gives an array, whose truth value [any] cannot take, and an object
    compares as its class says.) *)
Definition plain (v : value) : bool :=
  match v with
  | VNone | VBool _ | VInt _ | VFloat _ | VStr _ => true
  | VArr _ | VTable _ | VObj _ => false
  end.

Definition plainly_compared (kw : kwargs) (go cfg : dict) : bool :=
  forallb (fun kv =>
             String.eqb (fst kv) "Tobs"
             || (plain (snd kv)
                 && from_option plain true (go !! fst kv)
                 && from_option plain true (cfg !! fst kv)))
          kw.

(** A path of a saved coverage that needs no adaptation: it names an
    existing file, outside any [/SYNEX/] directory, or is [None]. *)
Definition local_path (fs : filesystem) (p : option string) : Prop :=
  match p with
  | Some f => contains "/SYNEX/" f = false /\ isfile fs f = true
  | None => True
  end.

(** The files a run has written, in order. *)
Definition written_files (log : list event) : list string :=
  flat_map (fun e => match e with
                     | WriteOrbit p | WriteTess p | WriteSave p _ => [p]
                     | _ => []
                     end) log.

(** A statement [m] run from a state in [P] ends in a state in [Q] with its
    value, or raises and leaves a state in [E]. *)
Definition hoare {S A : Type} (P : S -> Prop) (m : M S A) (Q : A -> S -> Prop)
    (E : S -> Prop) : Prop :=
  forall s, P s -> match m s with
                   | (Ok a, s') => Q a s'
                   | (Raise _, s') => E s'
                   end.

(* ===================================================================== *)
(** * Facts about the runtime fragments *)
(* ===================================================================== *)

Module PyFacts.

Lemma split_char_cons (c d : ascii) (s : string) :
  split (String c "") (String d s) =
  if Ascii.eqb c d then "" :: split (String c "") s
  else match split (String c "") s with
       | h :: t => String d h :: t
       | [] => [String d ""]
       end.
Proof.
  unfold split. simpl.
  destruct (Ascii.ascii_dec c d) as [->|Hne].
  - rewrite Ascii.eqb_refl. destruct s; reflexivity.
  - apply Ascii.eqb_neq in Hne. rewrite Hne. reflexivity.
Qed.

(** A string without the separator is a single field. *)
Lemma split_lacks (c : ascii) (s : string) :
  lacks c s = true -> split (String c "") s = [s].
Proof.
  induction s as [|d s IH]; intros H.
  - reflexivity.
  - simpl in H. apply andb_prop in H as [Hd Hs].
    rewrite split_char_cons. apply negb_true_iff in Hd. rewrite Hd.
    rewrite (IH Hs). reflexivity.
Qed.

Lemma join_cons_char (sep : string) (d : ascii) (h : string) (t : list string) :
  join sep (String d h :: t) = String d (join sep (h :: t)).
Proof. destruct t; reflexivity. Qed.

(** Splitting at the last separator: the fields before it join back to
    what stands before it, and the last field is what stands after it. *)
Lemma split_last_separator (c : ascii) (a b : string) :
  lacks c b = true ->
  exists l, split (String c "") (a +:+ String c b) = l ++ [b]
            /\ l <> [] /\ join (String c "") l = a.
Proof.
  intros Hb. induction a as [|d a IH].
  - exists [""]. change ("" +:+ String c b) with (String c b).
    rewrite split_char_cons, Ascii.eqb_refl, (split_lacks _ _ Hb).
    repeat split; discriminate.
  - destruct IH as (l & Hl & Hne & Hj).
    change (String d a +:+ String c b) with (String d (a +:+ String c b)).
    rewrite split_char_cons, Hl.
    destruct (Ascii.eqb c d) eqn:Hcd.
    + apply Ascii.eqb_eq in Hcd as <-.
      exists ("" :: l). repeat split; [discriminate|].
      destruct l as [|h t]; [congruence|]. simpl in *. rewrite Hj. reflexivity.
    + destruct l as [|h t]; [congruence|]. simpl.
      exists (String d h :: t). repeat split; [discriminate|].
      rewrite join_cons_char, Hj. reflexivity.
Qed.

Lemma last_item_snoc (l : list string) (b : string) : last_item (l ++ [b]) = b.
Proof. unfold last_item. apply last_last. Qed.

Lemma but_last_snoc (l : list string) (b : string) : but_last (l ++ [b]) = l.
Proof. unfold but_last. apply removelast_last. Qed.

Lemma last_item_split (c : ascii) (a b : string) :
  lacks c b = true -> last_item (split (String c "") (a +:+ String c b)) = b.
Proof.
  intros Hb. destruct (split_last_separator c a b Hb) as (l & -> & _ & _).
  apply last_item_snoc.
Qed.

(** The first item of a split is what precedes the first separator. *)
Lemma first_item_split (c : ascii) (a b : string) :
  lacks c a = true -> first_item (split (String c "") (a +:+ String c b)) = a.
Proof.
  induction a as [|d a IH]; intros Ha.
  - change ("" +:+ String c b) with (String c b).
    now rewrite split_char_cons, Ascii.eqb_refl.
  - simpl in Ha. apply andb_prop in Ha as [Hd Ha]. apply negb_true_iff in Hd.
    change (String d a +:+ String c b) with (String d (a +:+ String c b)).
    rewrite split_char_cons, Hd. specialize (IH Ha).
    destruct (split (String c "") (a +:+ String c b)) as [|h t]; simpl in *;
      [now subst | now rewrite IH].
Qed.

Lemma join_but_last_split (c : ascii) (a b : string) :
  lacks c b = true ->
  join (String c "") (but_last (split (String c "") (a +:+ String c b))) = a.
Proof.
  intros Hb. destruct (split_last_separator c a b Hb) as (l & -> & _ & Hj).
  rewrite but_last_snoc. exact Hj.
Qed.

Lemma lacks_app (c : ascii) (s t : string) :
  lacks c (s +:+ t) = lacks c s && lacks c t.
Proof.
  induction s as [|d s IH]; simpl; [reflexivity|].
  rewrite IH. apply andb_assoc.
Qed.

(** [str(n)] is made of digits and a sign. *)
Lemma lacks_string_of_uint (c : ascii) (d : Decimal.uint) :
  digit_of c = None -> lacks c (NilEmpty.string_of_uint d) = true.
Proof.
  intros Hc. induction d; simpl; try reflexivity;
    rewrite IHd, andb_true_r; apply negb_true_iff, Ascii.eqb_neq;
    intros ->; discriminate Hc.
Qed.

Lemma lacks_str_of_int (c : ascii) (n : Z) :
  digit_of c = None -> c <> "-"%char -> lacks c (str_of_int n) = true.
Proof.
  intros Hc Hm. unfold str_of_int, NilZero.string_of_int.
  assert (Hu : forall d, lacks c (NilZero.string_of_uint d) = true).
  { intros d. unfold NilZero.string_of_uint.
    destruct d; try apply (lacks_string_of_uint c _ Hc).
    simpl. rewrite andb_true_r. apply negb_true_iff, Ascii.eqb_neq.
    intros ->; discriminate Hc. }
  destruct (Z.to_int n); simpl.
  - apply Hu.
  - rewrite Hu, andb_true_r. apply negb_true_iff, Ascii.eqb_neq. exact Hm.
Qed.

End PyFacts.

(* ===================================================================== *)
(** * Versioned file names (specification, section 4.2 and property 3) *)
(* ===================================================================== *)

Section Versioning.

Context `{Ext : Collaborators} (fs : filesystem).

Import PyFacts.

Lemma append_assoc (a b c : string) : (a +:+ b) +:+ c = a +:+ (b +:+ c).
Proof.
  induction a as [|x a IH]; [reflexivity|].
  change (String x ((a +:+ b) +:+ c) = String x (a +:+ (b +:+ c))).
  now rewrite IH.
Qed.

Lemma lacks_version_tail (c : ascii) (n : Z) (ext : string) :
  digit_of c = None -> c <> "-"%char -> c <> "."%char -> lacks c ext = true ->
  lacks c (str_of_int n +:+ "." +:+ ext) = true.
Proof.
  intros Hd Hm Hp He. rewrite !lacks_app, (lacks_str_of_int c n Hd Hm), He. simpl.
  rewrite !andb_true_r. apply negb_true_iff, Ascii.eqb_neq. exact Hp.
Qed.

(** An unversioned name starts at [_1]. *)
Lemma version_start_unversioned (X ext : string) :
  lacks "." ext = true ->
  version_suffix (X +:+ "." +:+ ext) = None ->
  version_start (X +:+ "." +:+ ext) = (1, versioned X 1 ext).
Proof.
  intros Hext Hnone. unfold version_start. rewrite Hnone.
  change (X +:+ "." +:+ ext) with (X +:+ String "." ext).
  rewrite (join_but_last_split "." X ext Hext), (last_item_split "." X ext Hext).
  reflexivity.
Qed.

(** Renumbering a versioned name changes the number and nothing else. *)
Lemma renumbered_versioned (X ext : string) (k n : Z) :
  lacks "_" ext = true -> lacks "." ext = true ->
  renumbered (versioned X k ext) n = versioned X n ext.
Proof.
  intros Hu Hp. unfold renumbered.
  assert (Hjoin : join "_" (but_last (split "_" (versioned X k ext))) = X).
  { unfold versioned. change (X +:+ "_" +:+ ?t) with (X +:+ String "_" t).
    apply join_but_last_split, lacks_version_tail; done. }
  assert (Hlast : last_item (split "." (versioned X k ext)) = ext).
  { unfold versioned.
    replace (X +:+ "_" +:+ str_of_int k +:+ "." +:+ ext)
      with ((X +:+ "_" +:+ str_of_int k) +:+ String "." ext)
      by (now rewrite !append_assoc).
    apply last_item_split, Hp. }
  rewrite Hjoin, Hlast. reflexivity.
Qed.

(** The loop walks over the versions that exist and stops at the first
    one that does not. *)
Lemma first_free_version_walk (X ext : string) (m : nat) :
  lacks "_" ext = true -> lacks "." ext = true ->
  forall (k : Z) (fuel : nat),
    (m <= fuel)%nat ->
    (forall i, k <= i < k + Z.of_nat m -> isfile fs (versioned X i ext) = true) ->
    isfile fs (versioned X (k + Z.of_nat m) ext) = false ->
    first_free_version fs fuel k (versioned X k ext)
    = Ok (versioned X (k + Z.of_nat m) ext).
Proof.
  intros Hu Hp. induction m as [|m IH]; intros k fuel Hfuel Hex Hfree.
  - rewrite Z.add_0_r in *. destruct fuel; simpl; now rewrite Hfree.
  - destruct fuel as [|fuel]; [lia|]. simpl.
    rewrite (Hex k) by lia.
    rewrite renumbered_versioned by assumption.
    replace (k + Z.of_nat (S m)) with ((k + 1) + Z.of_nat m) in * by lia.
    apply IH; [lia | | exact Hfree].
    intros i Hi. apply Hex. lia.
Qed.

(** The three call sites share the loop; each is entered when the
    instrument is mutated and no directive names the new file. *)
Lemma version_config_file_versions (fuel : nat) (key NewKey dir ext : string)
    (kw : kwargs) (cfg : dict) (path next : string) :
  kw_get NewKey kw = None ->
  kw_get "NewExistentialFileName" kw = None ->
  cfg !! key = Some (VStr path) ->
  isfile fs path = true ->
  versionPath fs fuel path = Ok next ->
  version_config_file fs fuel key NewKey dir ext true kw cfg = Ok (<[key := VStr next]> cfg).
Proof.
  intros HNew HNewEx Hcfg Hfile Hnext. unfold version_config_file, getitem.
  rewrite Hcfg. simpl. rewrite Hfile, HNew, HNewEx, Hnext. reflexivity.
Qed.

(** The versioning raises no exception of its own. *)
Lemma first_free_version_never_fatal (fuel : nat) (Ext' : Z) (name : string) (e : exn) :
  first_free_version fs fuel Ext' name = Raise e -> e = OutOfFuel.
Proof.
  revert Ext' name. induction fuel as [|fuel IH]; intros Ext' name; simpl;
    destruct (isfile fs name); try discriminate.
  - now intros [= <-].
  - apply IH.
Qed.

(** What the [try] reads off a name [Y_s.ext]: the text [s] between the
    last ['_'] and the ['.'] that follows it. *)
Lemma version_suffix_tail (Y s ext : string) :
  lacks "_" s = true -> lacks "." s = true -> lacks "_" ext = true ->
  version_suffix (Y +:+ "_" +:+ s +:+ "." +:+ ext) = int_of_str s.
Proof.
  intros Hsu Hsp Hu. unfold version_suffix.
  change (Y +:+ "_" +:+ ?t) with (Y +:+ String "_" t).
  rewrite last_item_split by (rewrite !lacks_app, Hsu, Hu; reflexivity).
  change (s +:+ "." +:+ ext) with (s +:+ String "." ext).
  now rewrite first_item_split.
Qed.

(** C4, as amended.  Versioning monotonicity.  Let [X.ext] be a path off
    which the [try] of lines 213-216 reads no version number: the text
    between the last ['_'] of the whole path and the ['.'] that follows it
    is no integer ([ext] is a file extension: it holds no ['_'] and no
    ['.']).  Let the versions [X_1.ext] ... [X_N.ext] exist and
    [X_(N+1).ext] not.  Then the fall-back of the [try] starts at suffix 1
    with [X_1.ext], and for a mutated instrument without a directive naming
    the new file, the versioning of the tesselation file, of the orbit file
    (both for an existing [X.ext]) and of the save file returns
    [X_(N+1).ext]; [N] iterations of the loop suffice.  In particular a name
    [Y_s.ext] whose trailing suffix [s] does not parse as an integer starts
    at suffix 1, with [Y_s_1.ext], and the versioning of any name raises no
    exception. *)
Theorem versionPath_monotone (X ext : string) (N fuel : nat) :
  lacks "_" ext = true -> lacks "." ext = true ->
  version_suffix (X +:+ "." +:+ ext) = None ->
  (forall i, 1 <= i <= Z.of_nat N -> isfile fs (versioned X i ext) = true) ->
  isfile fs (versioned X (Z.of_nat N + 1) ext) = false ->
  (N <= fuel)%nat ->
  version_start (X +:+ "." +:+ ext) = (1, versioned X 1 ext)
  /\ versionPath fs fuel (X +:+ "." +:+ ext) = Ok (versioned X (Z.of_nat N + 1) ext)
  /\ (forall kw cfg,
         kw_get "NewtesselationFile" kw = None ->
         kw_get "NewExistentialFileName" kw = None ->
         cfg !! "tesselationFile" = Some (VStr (X +:+ "." +:+ ext)) ->
         isfile fs (X +:+ "." +:+ ext) = true ->
         version_tesselationFile fs fuel true kw cfg
         = Ok (<["tesselationFile" := VStr (versioned X (Z.of_nat N + 1) ext)]> cfg))
  /\ (forall kw cfg,
         kw_get "NeworbitFile" kw = None ->
         kw_get "NewExistentialFileName" kw = None ->
         cfg !! "orbitFile" = Some (VStr (X +:+ "." +:+ ext)) ->
         isfile fs (X +:+ "." +:+ ext) = true ->
         version_orbitFile fs fuel true kw cfg
         = Ok (<["orbitFile" := VStr (versioned X (Z.of_nat N + 1) ext)]> cfg))
  /\ (forall kw,
         kw_get "NewExistentialFileName" kw = None ->
         version_ExistentialFileName fs fuel kw (X +:+ "." +:+ ext)
         = Ok (versioned X (Z.of_nat N + 1) ext))
  /\ (forall Y s,
         lacks "_" s = true -> lacks "." s = true -> int_of_str s = None ->
         version_start ((Y +:+ "_" +:+ s) +:+ "." +:+ ext)
         = (1, versioned (Y +:+ "_" +:+ s) 1 ext))
  /\ (forall name fuel' e, versionPath fs fuel' name = Raise e -> e = OutOfFuel).
Proof.
  intros Hu Hp Hnone Hex Hfree Hfuel.
  pose proof (version_start_unversioned X ext Hp Hnone) as Hstart.
  assert (Hpath : versionPath fs fuel (X +:+ "." +:+ ext)
                  = Ok (versioned X (Z.of_nat N + 1) ext)).
  { unfold versionPath. rewrite Hstart.
    replace (Z.of_nat N + 1) with (1 + Z.of_nat N) in * by lia.
    apply first_free_version_walk; try assumption.
    intros i Hi. apply Hex. lia. }
  split; [exact Hstart|]. split; [exact Hpath|].
  split; [|split; [|split; [|split]]].
  - intros kw cfg H1 H2 H3 H4.
    now apply version_config_file_versions with (path := X +:+ "." +:+ ext).
  - intros kw cfg H1 H2 H3 H4.
    now apply version_config_file_versions with (path := X +:+ "." +:+ ext).
  - intros kw HNew. unfold version_ExistentialFileName. rewrite HNew. exact Hpath.
  - intros Y s Hsu Hsp Hs. apply version_start_unversioned; [exact Hp|].
    rewrite !append_assoc. rewrite version_suffix_tail by assumption. exact Hs.
  - intros name fuel' e. unfold versionPath.
    destruct (version_start name) as [Ext' name']. apply first_free_version_never_fatal.
Qed.

End Versioning.

(** [versionPath_monotone] on the demo installation: the tesselation file
    and its versions 1 and 2 exist, the next one is version 3. *)
Lemma versionPath_monotone_demo :
  versionPath Demo.files 2 (Demo.tess_stem +:+ "." +:+ "tess")
  = Ok "/opt/SYNEX/gwemopt_tess_files/Athena_3.tess".
Proof.
  assert (Hex : forall i, 1 <= i <= Z.of_nat 2 ->
                  isfile Demo.files (versioned Demo.tess_stem i "tess") = true).
  { intros i Hi. assert (Hcases : i = 1 \/ i = 2) by lia.
    destruct Hcases; subst i; reflexivity. }
  exact (proj1 (proj2 (@versionPath_monotone Demo.collaborators Demo.files
                         Demo.tess_stem "tess" 2 2
                         eq_refl eq_refl eq_refl Hex eq_refl (le_n 2)))).
Defined.

(** C4, as stated, fails.  The file [Athena_2.5deg.tess] exists and has no
    version yet, so its next version should be [Athena_2.5deg_1.tess].  The
    [try] of lines 213-216 reads the [2] that follows the last ['_'] as
    version 2, and the loop of lines 223-225 names the next file
    [Athena_3.tess]: the [.5deg] of the name is lost. *)
Lemma versionPath_reads_inner_number :
  isfile Demo.decimal_files (Demo.decimal_name +:+ "." +:+ "tess") = true
  /\ isfile Demo.decimal_files (versioned Demo.decimal_name 1 "tess") = false
  /\ versionPath Demo.decimal_files 1 (Demo.decimal_name +:+ "." +:+ "tess")
     = Ok "/opt/SYNEX/gwemopt_tess_files/Athena_3.tess"
  /\ versionPath Demo.decimal_files 1 (Demo.decimal_name +:+ "." +:+ "tess")
     <> Ok (versioned Demo.decimal_name (Z.of_nat 0 + 1) "tess")
  /\ version_tesselationFile Demo.decimal_files 1 true []
       {["tesselationFile" := VStr (Demo.decimal_name +:+ "." +:+ "tess")]}
     = Ok {["tesselationFile" := VStr "/opt/SYNEX/gwemopt_tess_files/Athena_3.tess"]}.
Proof.
  split; [reflexivity|]. split; [reflexivity|]. split; [reflexivity|].
  split; [vm_compute; discriminate | vm_compute; reflexivity].
Qed.

(* ===================================================================== *)
(** * Reasoning about runs *)
(* ===================================================================== *)

Section Runs.

Context {S : Type}.

Lemma bindM_Ok {A B : Type} (m : M S A) (k : A -> M S B) (s s' : S) (b : B) :
  (m ≫= k) s = (Ok b, s') ->
  exists a s1, m s = (Ok a, s1) /\ k a s1 = (Ok b, s').
Proof.
  unfold mbind, M_bind, bindM. destruct (m s) as [[a|e] s1]; [eauto | discriminate].
Qed.

Lemma bindM_run {A B : Type} (m : M S A) (k : A -> M S B) (s s1 : S) (a : A) :
  m s = (Ok a, s1) -> (m ≫= k) s = k a s1.
Proof. intros H. unfold mbind, M_bind, bindM. now rewrite H. Qed.

Lemma bindM_Raise {A B : Type} (m : M S A) (k : A -> M S B) (s s1 : S) (e : exn) :
  m s = (Raise e, s1) -> (m ≫= k) s = (Raise e, s1).
Proof. intros H. unfold mbind, M_bind, bindM. now rewrite H. Qed.

Lemma lift_Ok {A : Type} (r : result A) (s s' : S) (a : A) :
  lift r s = (Ok a, s') -> r = Ok a /\ s' = s.
Proof. unfold lift. intros [= -> ->]. auto. Qed.

Lemma mret_Ok {A : Type} (a b : A) (s s' : S) :
  (mret a : M S A) s = (Ok b, s') -> b = a /\ s' = s.
Proof. unfold mret, M_ret, ret. intros [= -> ->]. auto. Qed.

Lemma hoare_bind {A B : Type} (P : S -> Prop) (Q : A -> S -> Prop) (R : B -> S -> Prop)
    (E : S -> Prop) (m : M S A) (k : A -> M S B) :
  hoare P m Q E -> (forall a, hoare (Q a) (k a) R E) -> hoare P (m ≫= k) R E.
Proof.
  intros Hm Hk s Hs. specialize (Hm s Hs).
  unfold mbind, M_bind, bindM. destruct (m s) as [[a|e] s1]; [|exact Hm].
  apply Hk, Hm.
Qed.

Lemma hoare_mret {A : Type} (P : S -> Prop) (E : S -> Prop) (a : A) :
  hoare P (mret a) (fun b s => b = a /\ P s) E.
Proof. intros s Hs. simpl. auto. Qed.

Lemma hoare_get (P : S -> Prop) (E : S -> Prop) :
  hoare P get (fun a s => a = s /\ P s) E.
Proof. intros s Hs. simpl. auto. Qed.

Lemma hoare_modify (P : S -> Prop) (Q : unit -> S -> Prop) (E : S -> Prop) (f : S -> S) :
  (forall s, P s -> Q tt (f s)) -> hoare P (modify f) Q E.
Proof. intros H s Hs. simpl. auto. Qed.

Lemma hoare_lift {A : Type} (P : S -> Prop) (E : S -> Prop) (r : result A) :
  (forall s, P s -> E s) -> hoare P (lift r) (fun a s => r = Ok a /\ P s) E.
Proof. intros H s Hs. unfold lift. destruct r; auto. Qed.

Lemma hoare_raise {A : Type} (P : S -> Prop) (Q : A -> S -> Prop) (E : S -> Prop) (e : exn) :
  (forall s, P s -> E s) -> hoare P (raise e) Q E.
Proof. intros H s Hs. simpl. auto. Qed.

Lemma hoare_weaken {A : Type} (P P' : S -> Prop) (Q Q' : A -> S -> Prop) (E : S -> Prop)
    (m : M S A) :
  hoare P' m Q' E -> (forall s, P s -> P' s) -> (forall a s, Q' a s -> Q a s) ->
  hoare P m Q E.
Proof.
  intros Hm HP HQ s Hs. specialize (Hm s (HP s Hs)).
  destruct (m s) as [[a|e] s1]; auto.
Qed.

(** A loop keeps what each of its iterations keeps. *)
Lemma hoare_for_each {A B : Type} (I : S -> Prop) (l : list A) (body : A -> B -> M S B)
    (b : B) :
  (forall x b', hoare I (body x b') (fun _ s => I s) I) ->
  hoare I (for_each l body b) (fun _ s => I s) I.
Proof.
  intros Hbody. revert b. induction l as [|x l IH]; intros b.
  - intros s Hs. simpl. exact Hs.
  - simpl. eapply hoare_bind; [apply Hbody|]. intros b'. apply IH.
Qed.

End Runs.

Lemma bind_Ok {A B : Type} (r : result A) (k : A -> result B) (b : B) :
  r ≫= k = Ok b -> exists a, r = Ok a /\ k a = Ok b.
Proof. destruct r as [a|e]; [eauto | discriminate]. Qed.

(** Steps through a run that ended well: every statement it went through
    ended well too. *)
Tactic Notation "step" hyp(H) :=
  let a := fresh "x" in
  let s := fresh "log" in
  let Ha := fresh "Hstep" in
  apply bindM_Ok in H as (a & s & Ha & H).

Tactic Notation "step" hyp(H) "as" simple_intropattern(a) ident(Ha) :=
  let s := fresh "log" in
  apply bindM_Ok in H as (a & s & Ha & H).

Ltac done_lift H :=
  let E := fresh "E" in
  apply lift_Ok in H as [H E]; try subst.

Ltac done_mret H :=
  let E := fresh "E" in
  apply mret_Ok in H as [H E]; try subst.

(* ===================================================================== *)
(** * Coverage and tiles of a resurrected instrument (section 3) *)
(* ===================================================================== *)

Section Resurrection.

Context `{Ext : Collaborators} (fs : filesystem).

(** Saving changes nothing in the object when no new name is given. *)
Lemma ExistentialCrisis_same (self self' : Athena) (log log' : list event) :
  ExistentialCrisis fs self None log = (Ok self', log') -> self' = self.
Proof.
  unfold ExistentialCrisis. intros H.
  step H. done_mret Hstep. step H. step H. now done_mret H.
Qed.

(** [ComputeTesselation] changes the configuration and nothing else. *)
Lemma ComputeTesselation_fields (self self' : Athena) (log log' : list event) :
  ComputeTesselation fs self log = (Ok self', log') ->
  exists cfg, self' = set_telescope_config_struct cfg self.
Proof.
  unfold ComputeTesselation. intros H.
  do 4 step H. apply ExistentialCrisis_same in H. eauto.
Qed.

(** Lines 280-294, and nothing after them touches the two attributes. *)
Lemma construct_coverage (fuel : nat) (verbose : value) (PermissionToWrite : bool)
    (kw : kwargs) (r : resurrected) (log log' : list event) (self : Athena) :
  construct fs fuel verbose PermissionToWrite kw r log = (Ok self, log') ->
  telescope_source_coverage self = (if MUTATED r then None else r_source_coverage r)
  /\ telescope_tile_struct self = (if MUTATED r then None else r_tile_struct r).
Proof.
  unfold construct. intros H.
  step H as [[go cfg] print_reminder] Hmerge.
  step H as cfg1 Htess. step H as cfg2 Hvtess.
  step H as cfg3 Horbit. step H as cfg4 Hvorbit.
  destruct (GWEMOPTPathChecks go cfg4) as [go' cfg'].
  step H as cfg5 Hcompute. step H as name Hname.
  step H as [MutatedFrom name'] Hmutated.
  step H as u Hmkdir. step H as self1 Hcompute_tess. step H as u' Hprint.
  done_mret H.
  apply ComputeTesselation_fields in Hcompute_tess as [cfg'' ->].
  split; reflexivity.
Qed.

(** Lines 110-171: what is read from the snapshot. *)
Lemma from_save_file_snapshot (name : string) (kw : kwargs) (sd : SavedDict)
    (r : resurrected) :
  load_SavedDict fs name = Some sd ->
  from_save_file fs name kw = Ok r ->
  exists go cfg,
    sd_telescope_go_params sd = Some go
    /\ sd_telescope_config_struct sd = Some cfg
    /\ decide_MUTATED kw go cfg = Ok (MUTATED r)
    /\ r_source_coverage r = saved_coverage fs name sd
    /\ r_tile_struct r = saved_tile_struct sd.
Proof.
  intros Hload H. unfold from_save_file in H. rewrite Hload in H.
  apply bind_Ok in H as (go & Hgo & H).
  apply bind_Ok in H as (cfg & Hcfg & H).
  apply bind_Ok in H as (mutated & Hmutated & H).
  destruct (backfill kw go cfg) as [go' cfg'].
  injection H as <-. simpl.
  exists go, cfg.
  destruct (sd_telescope_go_params sd); [|discriminate].
  destruct (sd_telescope_config_struct sd); [|discriminate].
  injection Hgo as ->. injection Hcfg as ->. auto.
Qed.

(** Lines 119-135 leave a coverage with local paths as it is. *)
Lemma adapt_coverage_local (name : string) (c : coverage) :
  local_path fs (source_JsonFile c) -> local_path fs (source_H5File c) ->
  local_path fs (source_save_file c) ->
  adapt_coverage fs name c = c.
Proof.
  destruct c as [j h s d]. unfold adapt_coverage, adapt_path, with_architecture. simpl.
  intros Hj Hh Hs.
  destruct j as [j|]; [destruct Hj as [-> Hj]; rewrite Hj|];
  destruct h as [h|]; [destruct Hh as [-> Hh]; rewrite Hh| |destruct Hh as [-> Hh]; rewrite Hh|];
  (destruct s as [s|]; [destruct Hs as [-> Hs]; rewrite Hs|]); reflexivity.
Qed.

End Resurrection.



(* ===================================================================== *)
(** * Single-exposure mode (specification, section 4.3) *)
(* ===================================================================== *)

Section SingleExposure.

Context `{Ext : Collaborators} (fs : filesystem).

(** The tesselation stage writes the key ["tesselation"] only. *)
Lemma tesselation_other_keys (self : Athena) (cfg cfg' : dict) (log log' : list event)
    (k : string) :
  tesselation self cfg log = (Ok cfg', log') -> k <> "tesselation" -> cfg' !! k = cfg !! k.
Proof.
  unfold tesselation. intros H Hk.
  destruct (has_key cfg "tesselationFile").
  - step H as FOV_type HFOV. step H as radecs Hradecs. step H as tilesType Htiles.
    destruct (py_eq tilesType (VStr "galaxy")).
    + done_mret H. now rewrite lookup_insert_ne.
    + destruct radecs as [[ras decs]|].
      * done_mret H. now rewrite lookup_insert_ne.
      * discriminate H.
  - now done_mret H.
Qed.

Lemma reference_images_other_keys (cfg cfg' : dict) (k : string) :
  reference_images cfg = Ok cfg' -> k <> "reference_images" -> cfg' !! k = cfg !! k.
Proof.
  unfold reference_images. intros H Hk.
  destruct (has_key cfg "referenceFile").
  - apply bind_Ok in H as (f & _ & H). apply bind_Ok in H as (images & _ & H).
    injection H as <-. now rewrite lookup_insert_ne.
  - now injection H as <-.
Qed.

(** Lines 344-351 on their own. *)
Lemma single_exposure_result (go cfg cfg' : dict) :
  single_exposure go cfg = Ok cfg' ->
  exists exposuretime requested b baseline m magnitude,
    requested_exposuretime go cfg = Ok exposuretime
    /\ num_of exposuretime = Some requested
    /\ cfg !! "exposuretime" = Some b /\ num_of b = Some baseline
    /\ cfg !! "magnitude" = Some m /\ num_of m = Some magnitude
    /\ cfg' = <["exposuretime" := exposuretime]>
               (<["magnitude" :=
                   VFloat (magnitude
                           + - (5 # 2) * np_log10 (np_sqrt (baseline / requested)))%Q]> cfg).
Proof.
  unfold single_exposure. intros H.
  apply bind_Ok in H as (exposuretime & Hreq & H).
  apply bind_Ok in H as (b & Hb & H).
  apply bind_Ok in H as (baseline & Hbase & H).
  apply bind_Ok in H as (requested & Hnum & H).
  destruct (Qeq_bool requested 0); [discriminate|].
  apply bind_Ok in H as (m & Hm & H).
  apply bind_Ok in H as (magnitude & Hmag & H).
  injection H as <-.
  unfold getitem in Hb, Hm. unfold as_num in Hbase, Hnum, Hmag.
  destruct (cfg !! "exposuretime") as [b0|]; [injection Hb as ->|discriminate].
  destruct (cfg !! "magnitude") as [m0|]; [injection Hm as ->|discriminate].
  destruct (num_of b) as [x|] eqn:Eb; [injection Hbase as ->|discriminate].
  destruct (num_of exposuretime) as [x|] eqn:Ee; [injection Hnum as ->|discriminate].
  destruct (num_of m) as [x|] eqn:Em; [injection Hmag as ->|discriminate].
  exists exposuretime, requested, b, baseline, m, magnitude.
  repeat match goal with |- _ /\ _ => split end; reflexivity || assumption.
Qed.

(** C8. [ComputeTesselation] has run on [self] and left [self'].  If
    [doSingleExposure] is set, the stored exposure time is the requested one
    (the first of [exposuretimes], or the stored one when there are none),
    and the stored magnitude is the old one plus, once,
    [-2.5*log10(sqrt(baseline/requested))], where [baseline] is the exposure
    time that was stored.  If it is not set, magnitude and exposure time
    are the stored ones. *)
Theorem single_exposure_correction (self self' : Athena) (log log' : list event)
    (doSingleExposure : value) :
  telescope_go_params self !! "doSingleExposure" = Some doSingleExposure ->
  ComputeTesselation fs self log = (Ok self', log') ->
  let cfg := telescope_config_struct self in
  let cfg' := telescope_config_struct self' in
  (truthy doSingleExposure = true ->
   exists exposuretime requested b baseline m magnitude,
     requested_exposuretime (telescope_go_params self) cfg = Ok exposuretime
     /\ num_of exposuretime = Some requested
     /\ cfg !! "exposuretime" = Some b /\ num_of b = Some baseline
     /\ cfg !! "magnitude" = Some m /\ num_of m = Some magnitude
     /\ cfg' !! "exposuretime" = Some exposuretime
     /\ cfg' !! "magnitude"
        = Some (VFloat (magnitude
                        + - (5 # 2) * np_log10 (np_sqrt (baseline / requested)))%Q))
  /\ (truthy doSingleExposure = false ->
      cfg' !! "exposuretime" = cfg !! "exposuretime"
      /\ cfg' !! "magnitude" = cfg !! "magnitude").
Proof.
  intros Hd H cfg cfg'. subst cfg cfg'. unfold ComputeTesselation in H.
  step H as d Hget. done_lift Hget. unfold getitem in Hget. rewrite Hd in Hget.
  injection Hget as <-.
  step H as cfg1 Hsingle. step H as cfg2 Htess. step H as cfg3 Href. done_lift Href.
  apply ExistentialCrisis_same in H as ->. simpl.
  assert (Hkeep : forall k, k <> "tesselation" -> k <> "reference_images" ->
                   cfg3 !! k = cfg1 !! k).
  { intros k Hk1 Hk2.
    rewrite (reference_images_other_keys _ _ k Href Hk2).
    apply (tesselation_other_keys _ _ _ _ _ k Htess Hk1). }
  split; intros Htruthy; rewrite Htruthy in Hsingle.
  - done_lift Hsingle.
    destruct (single_exposure_result _ _ _ Hsingle)
      as (exposuretime & requested & b & baseline & m & magnitude
          & Hreq & Hnum & Hb & Hbase & Hm & Hmag & ->).
    exists exposuretime, requested, b, baseline, m, magnitude.
    repeat (split; [assumption|]).
    rewrite !Hkeep by discriminate.
    split; [apply lookup_insert_eq|].
    rewrite lookup_insert_ne by discriminate. apply lookup_insert_eq.
  - done_mret Hsingle. rewrite !Hkeep by discriminate. auto.
Qed.

End SingleExposure.

(** [single_exposure_correction] on the demo instrument: 100 s are asked
    for on a baseline of 10000 s and a magnitude of 18. *)
Lemma single_exposure_correction_demo :
  exists self' log',
    ComputeTesselation Demo.files Demo.single_exposure_instrument [] = (Ok self', log')
    /\ telescope_config_struct self' !! "exposuretime" = Some (VFloat 100)
    /\ telescope_config_struct self' !! "magnitude"
       = Some (VFloat (18 + - (5 # 2) * np_log10 (np_sqrt (10000 / 100)))%Q).
Proof.
  destruct (ComputeTesselation Demo.files Demo.single_exposure_instrument [])
    as [[self'|e] log'] eqn:Hcompute; [|vm_compute in Hcompute; discriminate Hcompute].
  exists self', log'. split; [reflexivity|].
  assert (Hd : telescope_go_params Demo.single_exposure_instrument !! "doSingleExposure"
               = Some (VBool true)) by (vm_compute; reflexivity).
  destruct (proj1 (single_exposure_correction Demo.files _ _ _ _ _ Hd Hcompute) eq_refl)
    as (exposuretime & requested & b & baseline & m & magnitude
        & Hreq & Hnum & Hb & Hbase & Hm & Hmag & Hexp & Hmagnitude).
  vm_compute in Hreq. injection Hreq as <-.
  vm_compute in Hb. injection Hb as <-.
  vm_compute in Hm. injection Hm as <-.
  injection Hnum as <-. injection Hbase as <-. injection Hmag as <-.
  split; [exact Hexp | exact Hmagnitude].
Defined.

(* ===================================================================== *)
(** * Fewer tiles than the time to merger allows (section 4.5) *)
(* ===================================================================== *)

Section Truncation.

Lemma mapM_numbered {V : Type} (tiles : list (tile_key * V)) (ids : list Z) :
  numbered tiles ids -> mapM (fun kv => int_of_key (fst kv)) tiles = Ok ids.
Proof.
  induction 1 as [|kv id tiles ids Hkv _ IH]; [reflexivity|].
  simpl. rewrite Hkv. simpl. rewrite IH. reflexivity.
Qed.

Lemma dict_filter_keeps_all {V : Type} (tiles : list (tile_key * V)) (ids : list Z)
    (n_times : Z) :
  numbered tiles ids -> Forall (fun id => (id < n_times)%Z) ids ->
  dict_filter (fun k => n ← int_of_key k; Ok (n <? n_times)%Z) tiles = Ok tiles.
Proof.
  induction 1 as [|[k v] id tiles ids Hkv _ IH]; intros Hlt; [reflexivity|].
  apply Forall_cons in Hlt as [Hid Hlt]. simpl in *. rewrite Hkv. simpl.
  rewrite (IH Hlt). simpl. apply Z.ltb_lt in Hid. now rewrite Hid.
Qed.

Lemma dict_filter_MaxProb (td : TileDict) (ids : list Z) (n_times : Z) :
  numbered (tile_entries td) ids -> Forall (fun id => (id < n_times)%Z) ids ->
  dict_filter (fun k => if in_Extra_keys k then Ok false
                        else n ← int_of_key k; Ok (n <? n_times)%Z) td
  = Ok (tile_entries td).
Proof.
  revert ids. induction td as [|[k v] td IH]; intros ids Hnum Hlt; [reflexivity|].
  unfold tile_entries in *. simpl in *.
  destruct (in_Extra_keys k); simpl in *.
  - rewrite (IH ids Hnum Hlt). reflexivity.
  - inversion Hnum as [|? id ? ids' Hkv Hrest]; subst. simpl in Hkv.
    apply Forall_cons in Hlt as [Hid Hlt].
    rewrite Hkv. simpl. rewrite (IH ids' Hrest Hlt). simpl.
    apply Z.ltb_lt in Hid. now rewrite Hid.
Qed.

Lemma fold_max (l : list Z) (x m : Z) :
  In m (x :: l) -> Forall (fun y => (y <= m)%Z) (x :: l) -> fold_left Z.max l x = m.
Proof.
  revert x. induction l as [|y l IH]; intros x Hin Hle.
  - destruct Hin as [->|[]]. reflexivity.
  - simpl. apply Forall_cons in Hle as [Hx Hle].
    pose proof Hle as Hle'. apply Forall_cons in Hle' as [Hy Hl].
    apply IH.
    + destruct Hin as [->|[->|Hin]].
      * left. lia.
      * left. lia.
      * now right.
    + apply Forall_cons. split; [lia | exact Hl].
Qed.

Lemma py_max_greatest (ids : list Z) (m : Z) :
  In m ids -> Forall (fun id => (id <= m)%Z) ids -> py_max ids = Ok m.
Proof.
  destruct ids as [|x l]; [intros []|].
  intros Hin Hle. unfold py_max. now rewrite (fold_max l x m Hin Hle).
Qed.

(** The telescopes before the last one are gone through, and forgotten. *)
Lemma telescopes_fold (telescopes : list (string * list (tile_key * tile)))
    (n_times : Z) (start : result (option TileDict)) :
  is_ok start = true ->
  Forall (fun t => exists ids : list Z, numbered (snd t) ids) telescopes ->
  is_ok (fold_left
           (fun acc telescope =>
              _ ← acc;
              reduced ← dict_filter (fun k => n ← int_of_key k; Ok (n <? n_times)%Z)
                          (snd telescope);
              Ok (Some (List.map (fun kv => (fst kv, TTile (snd kv))) reduced)))
           telescopes start) = true.
Proof.
  revert start. induction telescopes as [|t telescopes IH]; intros start Hstart Hall.
  - exact Hstart.
  - apply Forall_cons in Hall as [[ids Hids] Hall]. simpl. apply IH; [|exact Hall].
    destruct start as [o|]; [|discriminate]. simpl.
    clear -Hids. induction Hids as [|[k v] id tiles ids Hkv _ IHt]; [reflexivity|].
    simpl in *. rewrite Hkv. simpl.
    destruct (dict_filter _ tiles); [|discriminate]. reflexivity.
Qed.

(** Lines 412-421, taken alone.  The tile dictionary holds the tiles
    [tiles], numbered [ids], and its greatest tile number [max_key] is
    smaller than [n_times], the number of tiles the time to merger allows.
    Then selecting the tiles does not raise: every tile is kept and
    [n_times] becomes [max_key].  This holds for the [MaxProb] strategy,
    where the tiles are entries of the dictionary itself, and for the other
    strategies, where they are the tiles of the last telescope of
    ["tile_structs"]. *)
Lemma select_tiles_truncates (td : TileDict) (n_times max_key : Z) (ids : list Z) :
  In max_key ids ->
  Forall (fun id => (id <= max_key)%Z) ids ->
  (max_key < n_times)%Z ->
  (forall strat,
      td_getitem td "Tile Strat" = Ok (TVal strat) ->
      py_eq strat (VStr "MaxProb") = true ->
      numbered (tile_entries td) ids ->
      select_tiles td n_times = Ok (tile_entries td, max_key, ids))
  /\ (forall strat telescopes name tiles,
         td_getitem td "Tile Strat" = Ok (TVal strat) ->
         py_eq strat (VStr "MaxProb") = false ->
         td_getitem td "tile_structs" = Ok (TStructs (telescopes ++ [(name, tiles)])) ->
         Forall (fun t => exists ids' : list Z, numbered (snd t) ids') telescopes ->
         numbered tiles ids ->
         select_tiles td n_times
         = Ok (List.map (fun kv => (fst kv, TTile (snd kv))) tiles, max_key, ids)).
Proof.
  intros Hin Hle Hlt.
  assert (Hall : Forall (fun id => (id < n_times)%Z) ids).
  { eapply Forall_impl; [exact Hle|]. simpl. intros. lia. }
  pose proof (py_max_greatest ids max_key Hin Hle) as Hmax.
  apply Z.ltb_lt in Hlt.
  split.
  - intros strat Hstrat HMaxProb Hnum.
    unfold select_tiles, reduce_TileDict. rewrite Hstrat. simpl. rewrite HMaxProb.
    rewrite (dict_filter_MaxProb td ids n_times Hnum Hall). simpl.
    rewrite (mapM_numbered _ _ Hnum). simpl. rewrite Hmax. simpl. now rewrite Hlt.
  - intros strat telescopes name tiles Hstrat Hother Hstructs Htel Hnum.
    unfold select_tiles, reduce_TileDict. rewrite Hstrat. simpl. rewrite Hother.
    rewrite Hstructs. simpl. rewrite fold_left_app. simpl.
    pose proof (telescopes_fold telescopes n_times (Ok None) eq_refl Htel) as Hfold.
    destruct (fold_left _ telescopes (Ok None)) as [o|]; [|discriminate]. simpl.
    rewrite (dict_filter_keeps_all tiles ids n_times Hnum Hall). simpl.
    assert (Hnum' : numbered (List.map (fun kv => (fst kv, TTile (snd kv))) tiles) ids).
    { clear -Hnum. induction Hnum; constructor; auto. }
    rewrite (mapM_numbered _ _ Hnum'). simpl. rewrite Hmax. simpl. now rewrite Hlt.
Qed.

End Truncation.

(** C9. The truncation is never reached.  The tile file of the demo
    installation holds the single tile 0, and the time to merger (50 s, for
    tiles of 20 s) allows 2 tiles: lines 412-421, taken alone, keep tile 0
    and truncate [n_times] from 2 to 0.  The call of [GetKuiper] on that
    file does not get there: it raises the [NameError] of line 397, and
    leaves no trace. *)
Theorem truncated_run_raises :
  let td := [(KStr "Tile Strat", TVal (VStr "MaxProb"));
             (KStr "LISA Data File", TVal (VStr "a.h5"));
             (KInt 0, TTile Demo.a_tile)] in
  load_TileDict Demo.files "tiles.dat" = Some td
  /\ first_of (xray_time Demo.source_in) = Ok (-50)%Q
  /\ T_lat Demo.timed_instrument = Some 20%Q
  /\ Qfloor (- (-50) / 20) = 2
  /\ select_tiles td 2 = Ok ([(KInt 0, TTile Demo.a_tile)], 0, [0])
  /\ GetKuiper Demo.files Demo.timed_instrument "tiles.dat" (Some Demo.source_in)
     = (Raise (NameError "LISAPosteriorDataFile"), None).
Proof.
  intros td. do 4 (split; [reflexivity|]). split; [|reflexivity].
  refine (proj1 (select_tiles_truncates td 2 0 [0] _ _ _) (VStr "MaxProb") _ _ _).
  - simpl. auto.
  - repeat constructor; lia.
  - lia.
  - reflexivity.
  - reflexivity.
  - repeat constructor.
Qed.

(* ===================================================================== *)
(** * [GetKuiper] stops at line 397 *)
(* ===================================================================== *)

Section UndefinedName.

Context `{Ext : Collaborators} (fs : filesystem).

(** The module binds no name [LISAPosteriorDataFile]. *)
Lemma LISAPosteriorDataFile_unbound :
  load_global "LISAPosteriorDataFile" = Raise (NameError "LISAPosteriorDataFile").
Proof. reflexivity. Qed.

Lemma prepare_raises (self : Athena) (TilePickleFile : string) (src : option source) :
  exists e, prepare fs self TilePickleFile src = Raise e.
Proof.
  unfold prepare.
  destruct (load_TileDict fs TilePickleFile) as [td|]; simpl; [|eauto].
  destruct (td_getitem td "LISA Data File") as [v|e]; simpl; eauto.
Qed.

(** C10. Whatever the instrument, the tile file and the source, a call of
    [GetKuiper] raises, and creates none of the traces; once the tile
    dictionary is loaded and its entry ["LISA Data File"] is read, the
    exception is the [NameError] of [LISAPosteriorDataFile], which is the
    argument of the call that completes the names of the data files. *)
Theorem GetKuiper_NameError (self : Athena) (TilePickleFile : string)
    (src : option source) :
  (exists e, GetKuiper fs self TilePickleFile src = (Raise e, None))
  /\ (forall td v,
         load_TileDict fs TilePickleFile = Some td ->
         td_getitem td "LISA Data File" = Ok v ->
         GetKuiper fs self TilePickleFile src
         = (Raise (NameError "LISAPosteriorDataFile"), None)).
Proof.
  split.
  - destruct (prepare_raises self TilePickleFile src) as [e He].
    exists e. unfold GetKuiper. now rewrite He.
  - intros td v Hload Hget. unfold GetKuiper, prepare.
    rewrite Hload. simpl. rewrite Hget. reflexivity.
Qed.

End UndefinedName.

(** [GetKuiper_NameError] on the demo installation, whose tile file holds a
    tile that contains the source. *)
Lemma GetKuiper_NameError_demo :
  GetKuiper Demo.files Demo.single_exposure_instrument "tiles.dat" (Some Demo.source_in)
  = (Raise (NameError "LISAPosteriorDataFile"), None).
Proof.
  eapply (proj2 (GetKuiper_NameError Demo.files _ _ _)); reflexivity.
Defined.

(* ===================================================================== *)
(** * The p-values of a run (specification, section 4.5 and property 4) *)
(* ===================================================================== *)

Section PValues.

Context `{Ext : Collaborators}.

Lemma Qmult_unit (a b : Q) :
  unit_interval a -> unit_interval b -> unit_interval (a * b).
Proof. unfold unit_interval. intros [Ha0 Ha1] [Hb0 Hb1]. split; nra. Qed.

Lemma Qpower_positive_unit (q : Q) (p : positive) :
  unit_interval q -> unit_interval (Qpower_positive q p).
Proof.
  intros Hq. induction p; cbn.
  - apply Qmult_unit; [exact Hq|]. apply Qmult_unit; exact IHp.
  - apply Qmult_unit; exact IHp.
  - exact Hq.
Qed.

Lemma Qpower_unit (q : Q) (n : Z) :
  0 < n -> unit_interval q -> unit_interval (q ^ n).
Proof. intros Hn Hq. destruct n; try lia. apply Qpower_positive_unit, Hq. Qed.

(** The formula of lines 528-529 maps probabilities to probabilities. *)
Lemma detection_unit (p : Q) (n : Z) :
  unit_interval p -> 1 <= n -> unit_interval (detection p n).
Proof.
  intros Hp Hn. unfold detection.
  assert (H : unit_interval ((1 - p) ^ (n * 518400))).
  { apply Qpower_unit; [lia|]. unfold unit_interval in *. split; lra. }
  unfold unit_interval in *. split; lra.
Qed.

(** The Kuiper routine returns a probability. *)
Hypothesis kuiper_p_value :
  forall phases k p, kuiper phases = Ok (k, p) -> unit_interval p.

Ltac run_statement :=
  unfold mbind, M_bind, bindM, mret, M_ret, ret, get, modify, lift, raise, bound; simpl.

Lemma first_run_in_range (ts T_lat : Q) : p_values_in_range (first_run ts T_lat).
Proof.
  constructor; simpl; try constructor; unfold unit_interval; try lra; lia.
Qed.

Lemma count_photons_in_range (t_is_merger phi_is_merger : list Q) :
  hoare p_values_in_range (count_photons t_is_merger phi_is_merger)
    (fun _ r => p_values_in_range r) p_values_in_range.
Proof.
  intros r Hr. unfold count_photons. run_statement.
  destruct Hr. constructor; assumption.
Qed.

Lemma test_tile_in_range (phi_is : list Q) :
  hoare p_values_in_range (test_tile phi_is)
    (fun _ r => p_values_in_range r) p_values_in_range.
Proof.
  intros r Hr. unfold test_tile. run_statement.
  destruct (kuiper phi_is) as [[k p]|e] eqn:Hk; simpl; [|exact Hr].
  destruct Hr. constructor; simpl; try assumption.
  exact (kuiper_p_value _ _ _ Hk).
Qed.

Lemma accumulate_in_range (key : tile_key) (t_is phi_is : list Q) :
  hoare p_values_in_range (accumulate key t_is phi_is)
    (fun _ r => p_values_in_range r /\ 1 <= n_exposures (run_exposures r))
    p_values_in_range.
Proof.
  intros r Hr. unfold accumulate. run_statement.
  destruct (int_of_key key) as [ID|e]; simpl.
  - destruct Hr. split; [constructor; simpl; try assumption|]; simpl; lia.
  - destruct Hr. constructor; simpl; try assumption. lia.
Qed.

Lemma test_exposure_in_range :
  hoare (fun r => p_values_in_range r /\ 1 <= n_exposures (run_exposures r))
    test_exposure (fun _ r => p_values_in_range r) p_values_in_range.
Proof.
  intros r [Hr Hn]. unfold test_exposure. run_statement.
  destruct (kuiper (exposure_phi_is (run_exposures r))) as [[k p]|e] eqn:Hk; simpl;
    [|exact Hr].
  pose proof (kuiper_p_value _ _ _ Hk) as Hp.
  assert (Hpos : (0 <? n_exposures (run_exposures r))%Z = true) by (apply Z.ltb_lt; lia).
  rewrite Hpos. destruct Hr. constructor; simpl; try assumption.
  - now apply detection_unit.
  - now apply detection_unit.
Qed.

Lemma Forall_snoc {A : Type} (P : A -> Prop) (l : list A) (x : A) :
  Forall P l -> P x -> Forall P (l ++ [x]).
Proof. intros Hl Hx. apply Forall_app. split; [exact Hl | repeat constructor; exact Hx]. Qed.

Lemma record_traces_in_range :
  hoare p_values_in_range record_traces (fun _ r => p_values_in_range r)
    p_values_in_range.
Proof.
  intros r Hr. unfold record_traces. run_statement.
  destruct Hr as [Ht He Hd Htd Hn Htt Het Hdt Htdt].
  destruct (tile_detection_p_val (run_statistics r)) as [td|] eqn:Etd; simpl in *.
  - destruct (detection_p_val (run_statistics r)) as [d|] eqn:Ed; simpl in *;
      constructor; simpl; rewrite ?Etd, ?Ed; simpl; try assumption;
      apply Forall_snoc; assumption.
  - constructor; simpl; rewrite ?Etd; simpl; try assumption.
    apply Forall_snoc; assumption.
Qed.

Lemma observe_tile_in_range (src : source) (T_lat : Q) (t_is_merger phi_is_merger : list Q)
    (entry : tile_key * tvalue) :
  hoare p_values_in_range (observe_tile src T_lat t_is_merger phi_is_merger entry)
    (fun _ r => p_values_in_range r) p_values_in_range.
Proof.
  unfold observe_tile.
  eapply hoare_bind; [apply hoare_lift; auto|]. intros t.
  eapply hoare_bind with (Q := fun _ r => p_values_in_range r).
  - destruct (source_in_tile src t).
    + eapply hoare_bind with (Q := fun _ r => p_values_in_range r).
      * eapply hoare_weaken; [apply count_photons_in_range| |]; simpl; tauto.
      * intros [t_is phi_is].
        eapply hoare_bind; [apply test_tile_in_range|]. intros ?; cbv beta.
        eapply hoare_bind; [apply accumulate_in_range|]. intros ?; cbv beta.
        apply test_exposure_in_range.
    + intros r [_ Hr]. exact Hr.
  - intros ?; cbv beta. eapply hoare_bind; [apply record_traces_in_range|]. intros ?; cbv beta.
    apply hoare_modify. intros r Hr. destruct Hr. constructor; assumption.
Qed.

Lemma observe_tiles_in_range (src : source) (T_lat : Q) (t_is_merger phi_is_merger : list Q)
    (tiles : TileDict) :
  hoare p_values_in_range (observe_tiles src T_lat t_is_merger phi_is_merger tiles)
    (fun _ r => p_values_in_range r) p_values_in_range.
Proof.
  unfold observe_tiles. apply hoare_for_each. intros entry _.
  apply observe_tile_in_range.
Qed.

(** ** The formula *)

Lemma exposures_upto_seen (src : source) (seen : TileDict) (entry : tile_key * tvalue)
    (rest : TileDict) :
  exposures_upto src (seen ++ entry :: rest) (length seen)
  = Z.of_nat (length (hits src (seen ++ [entry]))).
Proof.
  unfold exposures_upto. f_equal. f_equal. f_equal.
  replace (seen ++ entry :: rest) with ((seen ++ [entry]) ++ rest)
    by (now rewrite <- app_assoc).
  apply take_app_length'. rewrite length_app. simpl. lia.
Qed.

Lemma hits_snoc (src : source) (seen : TileDict) (entry : tile_key * tvalue) (t : tile) :
  snd entry = TTile t ->
  length (hits src (seen ++ [entry]))
  = (length (hits src seen) + if source_in_tile src t then 1 else 0)%nat.
Proof.
  intros Ht. unfold hits. rewrite List.filter_app, length_app. simpl. rewrite Ht.
  destruct (source_in_tile src t); reflexivity.
Qed.

Lemma corrected_snoc (src : source) (tiles : TileDict) (ps ds : list Q) (p d : Q) :
  corrected_by_formula src tiles ps ds ->
  length ps = length ds ->
  d = (1 - (1 - p) ^ (exposures_upto src tiles (length ds) * 518400))%Q ->
  corrected_by_formula src tiles (ps ++ [p]) (ds ++ [d]).
Proof.
  intros H Hlen Hd i x Hi. apply lookup_snoc_Some in Hi as [[Hlt Hi]|[-> <-]].
  - destruct (H i x Hi) as (q & Hq & Hx). exists q. split; [|exact Hx].
    now apply lookup_app_l_Some.
  - exists p. split; [|exact Hd]. rewrite <- Hlen. apply list_lookup_middle. reflexivity.
Qed.

Lemma corrected_snoc_l (src : source) (tiles : TileDict) (ps ds : list Q) (p : Q) :
  corrected_by_formula src tiles ps ds ->
  corrected_by_formula src tiles (ps ++ [p]) ds.
Proof.
  intros H i x Hi. destruct (H i x Hi) as (q & Hq & Hx). exists q. split; [|exact Hx].
  now apply lookup_app_l_Some.
Qed.

Lemma first_run_formula (src : source) (tiles : TileDict) (ts T_lat : Q) :
  formula_invariant src tiles [] (first_run ts T_lat).
Proof.
  split; simpl; try reflexivity; try exact I.
  split; intros i d Hi; discriminate Hi.
Qed.

Lemma observe_tile_formula (src : source) (T_lat : Q) (t_is_merger phi_is_merger : list Q)
    (seen rest : TileDict) (entry : tile_key * tvalue) (r : run) :
  formula_invariant src (seen ++ entry :: rest) seen r ->
  match observe_tile src T_lat t_is_merger phi_is_merger entry r with
  | (Ok _, r') => formula_invariant src (seen ++ entry :: rest) (seen ++ [entry]) r'
  | (Raise _, r') => traces_follow_formula src (seen ++ entry :: rest) (run_traces r')
  end.
Proof.
  intros [Hn Hlp Hld Hltp Hltd Hd Htd [Hexp Htile]].
  pose proof (exposures_upto_seen src seen entry rest) as Hupto.
  unfold observe_tile.
  destruct (snd entry) as [v|t|s] eqn:Hsnd; try (run_statement; split; assumption).
  rewrite (hits_snoc src seen entry t Hsnd) in Hupto.
  unfold mbind at 1, M_bind at 1, bindM at 1, lift at 1. cbv beta iota.
  destruct (source_in_tile src t) eqn:Hin.
  - unfold count_photons, test_tile, accumulate, test_exposure, record_traces.
    run_statement.
    destruct (kuiper _) as [[k1 p1]|e1]; simpl; [|split; assumption].
    destruct (int_of_key (fst entry)) as [ID|e2]; simpl; [|split; assumption].
    destruct (kuiper _) as [[k2 p2]|e3]; simpl; [|split; assumption].
    assert (Hpos : (0 <? n_exposures (run_exposures r) + 1)%Z = true)
      by (apply Z.ltb_lt; lia).
    rewrite Hpos.
    assert (Hcount : exposures_upto src (seen ++ entry :: rest) (length seen)
                     = n_exposures (run_exposures r) + 1) by (rewrite Hupto, Hn; lia).
    split; simpl; rewrite ?length_app, ?(hits_snoc src seen entry t Hsnd), ?Hin; simpl;
      try lia; try reflexivity.
    split; (apply corrected_snoc; [assumption | congruence |]);
      [rewrite Hld | rewrite Hltd]; rewrite Hcount; reflexivity.
  - unfold record_traces. run_statement.
    assert (Hcount : exposures_upto src (seen ++ entry :: rest) (length seen)
                     = n_exposures (run_exposures r)) by (rewrite Hupto, Hn; lia).
    destruct (tile_detection_p_val (run_statistics r)) as [td|] eqn:Etd; simpl in *.
    + assert (Htile' : corrected_by_formula src (seen ++ entry :: rest)
                         (tile_kuiper_p_val_trace (run_traces r)
                          ++ [tile_p_val (run_statistics r)])
                         (tile_detection_p_val_trace (run_traces r) ++ [td])).
      { apply corrected_snoc; [assumption | congruence |].
        rewrite Hltd, Hcount. exact Htd. }
      destruct (detection_p_val (run_statistics r)) as [d|] eqn:Ed; simpl in *.
      * split; simpl; rewrite ?Etd, ?Ed, ?length_app,
          ?(hits_snoc src seen entry t Hsnd), ?Hin; simpl; try lia; try assumption.
        split; [|exact Htile'].
        apply corrected_snoc; [assumption | congruence |].
        rewrite Hld, Hcount. exact Hd.
      * split; [|exact Htile']. now apply corrected_snoc_l.
    + split; [exact Hexp|]. now apply corrected_snoc_l.
Qed.

Lemma observe_tiles_formula (src : source) (T_lat : Q) (t_is_merger phi_is_merger : list Q)
    (rest : TileDict) :
  forall seen r,
    formula_invariant src (seen ++ rest) seen r ->
    traces_follow_formula src (seen ++ rest)
      (run_traces (snd (observe_tiles src T_lat t_is_merger phi_is_merger rest r))).
Proof.
  induction rest as [|entry rest IH]; intros seen r Hr.
  - simpl. apply Hr.
  - pose proof (observe_tile_formula src T_lat t_is_merger phi_is_merger seen rest entry r Hr)
      as Hstep.
    unfold observe_tiles in *. simpl.
    unfold mbind at 1, M_bind at 1, bindM at 1.
    destruct (observe_tile src T_lat t_is_merger phi_is_merger entry r) as [[[]|e] r1].
    + replace (seen ++ entry :: rest) with ((seen ++ [entry]) ++ rest) in *
        by (now rewrite <- app_assoc).
      now apply IH.
    + exact Hstep.
Qed.

End PValues.


(* ===================================================================== *)
(** * Where the code departs from its specification *)
(* ===================================================================== *)

Section Departures.

Context `{Ext : Collaborators} (fs : filesystem).

(** ** One keyword argument is never a mutation (line 151) *)

(** Whatever the single keyword argument is, unless it is the directive. *)
Lemma decide_MUTATED_single (key : string) (v : value) (go cfg : dict) :
  key <> "NewExistentialFileName" -> decide_MUTATED [(key, v)] go cfg = Ok false.
Proof.
  intros Hkey. unfold decide_MUTATED, kw_has. simpl.
  destruct (String.eqb key "NewExistentialFileName") eqn:E; [|reflexivity].
  apply String.eqb_eq in E. contradiction.
Qed.

(** ** The save file is written without permission (lines 553-578) *)

Lemma ExistentialCrisis_writes (self self' : Athena) (log log' : list event) :
  ExistentialCrisis fs self None log = (Ok self', log') ->
  exists content, log' = log ++ [WriteSave (ExistentialFileName self) content].
Proof.
  unfold ExistentialCrisis. intros H.
  step H as self0 Hself. done_mret Hself.
  step H as content Hcontent. done_lift Hcontent.
  step H as u Hemit. done_mret H.
  exists content. unfold emit, modify in Hemit. now injection Hemit as _ <-.
Qed.

Lemma ComputeTesselation_writes (self self' : Athena) (log log' : list event) :
  ComputeTesselation fs self log = (Ok self', log') ->
  exists content, In (WriteSave (ExistentialFileName self) content) log'.
Proof.
  unfold ComputeTesselation. intros H.
  step H as d Hd. step H as cfg1 H1. step H as cfg2 H2. step H as cfg3 H3.
  apply ExistentialCrisis_writes in H as [content ->].
  exists content. apply in_or_app. right. now left.
Qed.

(** ** A tile without the source, before any tile with it (lines 493-542) *)

(** C3, where the code departs from it.  When the first tile does not
    contain the source, the run raises [UnboundLocalError] for
    [tile_detection_p_val] at line 537: one entry went into the trace of the
    tile p-values, none into the six other traces, and no further tile is
    looked at. *)
Theorem first_tile_without_source (src : source) (T_lat ts : Q)
    (t_is_merger phi_is_merger : list Q) (key : tile_key) (t : tile) (tiles : TileDict) :
  source_in_tile src t = false ->
  exists final,
    observe_tiles src T_lat t_is_merger phi_is_merger ((key, TTile t) :: tiles)
      (first_run ts T_lat)
    = (Raise (UnboundLocalError "tile_detection_p_val"), final)
    /\ run_traces final
       = {| tile_kuiper_p_val_trace := [1%Q]; tile_detection_p_val_trace := [];
            exposure_kuiper_trace := []; exposure_kuiper_p_val_trace := [];
            detection_kuiper_p_val_trace := []; accum_exposure_photons_trace := [];
            exposure_photons_trace := [] |}.
Proof.
  intros Hout. eexists.
  unfold observe_tiles, for_each, observe_tile, mbind, M_bind, bindM, lift.
  cbn [snd fst]. rewrite Hout.
  split; reflexivity.
Qed.

(** ** [NewtesselationFile] is not on the list of line 189 *)

(** C7, where the code departs from it.  The directive
    [NewtesselationFile], given to an instrument whose parameters do not
    hold that key, is stored in the physical configuration like any unknown
    key, and reported as one. *)
Theorem NewtesselationFile_stored (verbose v : value) (go cfg : dict) (log : list event) :
  go !! "NewtesselationFile" = None ->
  cfg !! "NewtesselationFile" = None ->
  merge_kwargs verbose [("NewtesselationFile", v)] go cfg log
  = (Ok (go, <["NewtesselationFile" := v]> cfg, true),
     if truthy verbose then log ++ [PrintNewKey "NewtesselationFile"] else log).
Proof.
  intros Hgo Hcfg. unfold merge_kwargs. simpl. unfold merge_key.
  unfold has_key. rewrite Hgo, Hcfg.
  rewrite !bool_decide_eq_false_2 by (intros [x Hx]; discriminate Hx).
  simpl. destruct (truthy verbose); reflexivity.
Qed.

End Departures.

(** C1, where the code departs from it.  The saved instrument has a
    circular field of view, and is loaded with a square one as the only
    keyword argument: line 151 asks for more than one keyword argument, so no
    mutation is detected.  The constructor goes on with the changed
    parameter, keeps the coverage of the saved instrument and its own name,
    and writes the changed instrument over the save file. *)
Theorem single_change_not_detected :
  decide_MUTATED [("FOV_type", VStr "square")] Demo.go_params Demo.saved_config_struct
  = Ok false
  /\ Demo.saved_config_struct !! "FOV_type" = Some (VStr "circle")
  /\ exists self log,
       init Demo.files 2 None Demo.only_field_of_view [] = (Ok self, log)
       /\ telescope_config_struct self !! "FOV_type" = Some (VStr "square")
       /\ MutatedFromTelescopeFile self = Some None
       /\ ExistentialFileName self = Demo.save_file
       /\ telescope_source_coverage self
          = saved_coverage Demo.files Demo.save_file Demo.snapshot
       /\ In Demo.save_file (written_files log).
Proof.
  split; [apply decide_MUTATED_single; discriminate|].
  split; [vm_compute; reflexivity|].
  assert (Hrun : match init Demo.files 2 None Demo.only_field_of_view [] with
                 | (Ok self, log) =>
                     telescope_config_struct self !! "FOV_type" = Some (VStr "square")
                     /\ MutatedFromTelescopeFile self = Some None
                     /\ ExistentialFileName self = Demo.save_file
                     /\ telescope_source_coverage self
                        = saved_coverage Demo.files Demo.save_file Demo.snapshot
                     /\ In Demo.save_file (written_files log)
                 | (Raise _, _) => False
                 end).
  { vm_compute. repeat split. auto. }
  destruct (init Demo.files 2 None Demo.only_field_of_view []) as [[self|e] log];
    [|contradiction].
  exists self, log. split; [reflexivity | exact Hrun].
Qed.

(** C2, where the code departs from it.  In an MPI world of four
    processes the constructor has no permission to write; it writes neither
    the orbit file nor the tesselation file, and it writes the save file. *)
Theorem save_file_written_without_permission :
  exists self log,
    init Demo.files 2 (Some 4%nat) Demo.new_field_of_view [] = (Ok self, log)
    /\ PermissionToWrite self = false
    /\ written_files log = [ExistentialFileName self].
Proof.
  assert (Hrun : match init Demo.files 2 (Some 4%nat) Demo.new_field_of_view [] with
                 | (Ok self, log) =>
                     PermissionToWrite self = false
                     /\ written_files log = [ExistentialFileName self]
                 | (Raise _, _) => False
                 end).
  { vm_compute. repeat split. }
  destruct (init Demo.files 2 (Some 4%nat) Demo.new_field_of_view []) as [[self|e] log];
    [|contradiction].
  exists self, log. split; [reflexivity | exact Hrun].
Qed.

(** [first_tile_without_source] on the demo installation. *)
Lemma first_tile_without_source_demo :
  exists final,
    observe_tiles Demo.source_out 20 Demo.t_is Demo.phi_is
      [(KInt 0, TTile Demo.a_tile); (KInt 1, TTile Demo.a_tile)] (first_run (-50) 20)
    = (Raise (UnboundLocalError "tile_detection_p_val"), final)
    /\ run_traces final
       = {| tile_kuiper_p_val_trace := [1%Q]; tile_detection_p_val_trace := [];
            exposure_kuiper_trace := []; exposure_kuiper_p_val_trace := [];
            detection_kuiper_p_val_trace := []; accum_exposure_photons_trace := [];
            exposure_photons_trace := [] |}.
Proof.
  exact (first_tile_without_source Demo.source_out 20 (-50) Demo.t_is Demo.phi_is
           (KInt 0) Demo.a_tile [(KInt 1, TTile Demo.a_tile)] eq_refl).
Defined.

(** [NewtesselationFile_stored] on the default parameters of the demo
    installation. *)
Lemma NewtesselationFile_stored_demo :
  merge_kwargs (VBool true) [("NewtesselationFile", VStr "new.tess")]
    Demo.go_params Demo.config_struct []
  = (Ok (Demo.go_params, <["NewtesselationFile" := VStr "new.tess"]> Demo.config_struct,
         true),
     [PrintNewKey "NewtesselationFile"]).
Proof.
  assert (Hgo : Demo.go_params !! "NewtesselationFile" = None) by (vm_compute; reflexivity).
  assert (Hcfg : Demo.config_struct !! "NewtesselationFile" = None)
    by (vm_compute; reflexivity).
  exact (NewtesselationFile_stored (VBool true) (VStr "new.tess") _ _ [] Hgo Hcfg).
Defined.

(* ===================================================================== *)
(** * The mutation decision for two or more keyword arguments *)
(* ===================================================================== *)

Section Mutation.

Lemma any_true (l : list bool) : any l = true <-> In true l.
Proof.
  unfold any. rewrite existsb_exists. split.
  - intros (b & Hin & ->). exact Hin.
  - intros Hin. exists true. auto.
Qed.

Lemma has_key_false (d : dict) (k : string) : has_key d k = false <-> d !! k = None.
Proof.
  unfold has_key. destruct (d !! k) as [v|] eqn:E.
  - rewrite bool_decide_eq_true_2 by eauto. split; discriminate.
  - rewrite bool_decide_eq_false_2 by (intros [x Hx]; discriminate Hx). tauto.
Qed.

Lemma ValueCheck_true (d : dict) (kw : kwargs) :
  In true (ValueCheck d kw) <->
  exists key v old,
    In (key, v) kw /\ key <> "Tobs" /\ d !! key = Some old /\ py_ne v old = true.
Proof.
  unfold ValueCheck. rewrite in_flat_map. split.
  - intros ([key v] & Hin & Htrue). simpl in Htrue.
    destruct (d !! key) as [old|] eqn:Hold; [|destruct Htrue].
    destruct (String.eqb key "Tobs") eqn:HTobs; [destruct Htrue|].
    destruct Htrue as [Hne|[]].
    exists key, v, old. apply String.eqb_neq in HTobs. auto.
  - intros (key & v & old & Hin & HTobs & Hold & Hne).
    exists (key, v). split; [exact Hin|]. simpl. rewrite Hold.
    apply String.eqb_neq in HTobs. rewrite HTobs. left. exact Hne.
Qed.

Lemma KeysCheck_true (go cfg : dict) (kw : kwargs) :
  In true (KeysCheck go cfg kw) <->
  exists key v, In (key, v) kw /\ go !! key = None /\ cfg !! key = None.
Proof.
  unfold KeysCheck. rewrite in_map_iff. split.
  - intros ([key v] & Htrue & Hin). simpl in Htrue.
    apply andb_prop in Htrue as [Hgo Hcfg].
    apply negb_true_iff in Hgo, Hcfg. apply has_key_false in Hgo, Hcfg. eauto.
  - intros (key & v & Hin & Hgo & Hcfg). exists (key, v). split; [|exact Hin]. simpl.
    apply has_key_false in Hgo, Hcfg. now rewrite Hgo, Hcfg.
Qed.

(** With two or more keyword arguments, the constructor finds the
    instrument mutated exactly when a new save file is named, or a keyword
    argument other than [Tobs] differs from the saved parameter of its name,
    or [Tobs] is not the saved array, or a keyword argument names no saved
    parameter. *)
Theorem MUTATED_for_two_or_more (kw : kwargs) (go cfg : dict) (mutated : bool) :
  (2 <= length kw)%nat ->
  decide_MUTATED kw go cfg = Ok mutated ->
  (mutated = true <->
   kw_has "NewExistentialFileName" kw = true
   \/ (exists key v old,
          In (key, v) kw /\ key <> "Tobs"
          /\ (go !! key = Some old \/ cfg !! key = Some old) /\ py_ne v old = true)
   \/ (exists new old,
          kw_get "Tobs" kw = Some new /\ go !! "Tobs" = Some old
          /\ array_equal new old = false)
   \/ (exists key v, In (key, v) kw /\ go !! key = None /\ cfg !! key = None)).
Proof.
  intros Hlen H. unfold decide_MUTATED in H.
  destruct (kw_has "NewExistentialFileName" kw) eqn:HNew.
  { injection H as <-. tauto. }
  assert (Hmany : (1 <? length kw)%nat = true) by (apply Nat.ltb_lt; lia).
  rewrite Hmany in H.
  apply bind_Ok in H as (Tobs_changed & HTobs & H).
  assert (Hchanged : Tobs_changed = true <->
                     exists new old, kw_get "Tobs" kw = Some new /\ go !! "Tobs" = Some old
                                     /\ array_equal new old = false).
  { destruct (kw_get "Tobs" kw) as [new|].
    - apply bind_Ok in HTobs as (old & Hold & HTobs). injection HTobs as <-.
      unfold getitem in Hold. destruct (go !! "Tobs") as [old'|]; [|discriminate].
      injection Hold as ->. rewrite negb_true_iff. split.
      + intros Hne. eauto.
      + intros (new' & old' & [= <-] & [= <-] & Hne). exact Hne.
    - injection HTobs as <-. split; [discriminate|]. intros (? & ? & [=] & _). }
  assert (Hany : any (ValueCheck go kw ++ ValueCheck cfg kw ++ KeysCheck go cfg kw) = true
                 <-> (exists key v old,
                         In (key, v) kw /\ key <> "Tobs"
                         /\ (go !! key = Some old \/ cfg !! key = Some old)
                         /\ py_ne v old = true)
                     \/ (exists key v, In (key, v) kw /\ go !! key = None
                                       /\ cfg !! key = None)).
  { rewrite any_true, !in_app_iff, !ValueCheck_true, KeysCheck_true. split.
    - intros [(key & v & old & ? & ? & ? & ?)|[(key & v & old & ? & ? & ? & ?)|?]];
        [left; exists key, v, old; auto | left; exists key, v, old; auto | right; auto].
    - intros [(key & v & old & ? & ? & [?|?] & ?)|?];
        [left; exists key, v, old; auto | right; left; exists key, v, old; auto
        | right; right; auto]. }
  destruct Tobs_changed.
  - injection H as <-. split; [|reflexivity]. intros _. right. right. left.
    now apply Hchanged.
  - destruct (any _) eqn:Hchecks; injection H as <-.
    + split; [|reflexivity]. intros _. apply proj1 in Hany.
      destruct (Hany eq_refl) as [?|?]; auto.
    + split; [discriminate|].
      intros [?|[?|[?|?]]]; try discriminate.
      * apply proj2 in Hany. discriminate Hany. now left.
      * apply Hchanged in H. discriminate H.
      * apply proj2 in Hany. discriminate Hany. now right.
Qed.

End Mutation.

(** [MUTATED_for_two_or_more] on the demo installation: of two keyword
    arguments, the field of view differs from the saved one. *)
Lemma MUTATED_for_two_or_more_demo :
  exists key v old,
    In (key, v) (kw_del "ExistentialFileName" Demo.new_field_of_view)
    /\ key <> "Tobs"
    /\ (Demo.go_params !! key = Some old \/ Demo.saved_config_struct !! key = Some old)
    /\ py_ne v old = true.
Proof.
  assert (Hrun : decide_MUTATED (kw_del "ExistentialFileName" Demo.new_field_of_view)
                   Demo.go_params Demo.saved_config_struct = Ok true)
    by (vm_compute; reflexivity).
  destruct (proj1 (MUTATED_for_two_or_more
                     (kw_del "ExistentialFileName" Demo.new_field_of_view)
                     Demo.go_params Demo.saved_config_struct true (le_n 2) Hrun) eq_refl)
    as [HNew|[Hvalue|[HTobs|Hkeys]]].
  - vm_compute in HNew. discriminate HNew.
  - exact Hvalue.
  - destruct HTobs as (new & old & HTobs & _). vm_compute in HTobs. discriminate HTobs.
  - exfalso. destruct Hkeys as (key & v & Hin & Hgo & Hcfg).
    destruct Hin as [[= <- <-]|[[= <- <-]|[]]]; vm_compute in Hcfg; discriminate Hcfg.
Defined.

(* ===================================================================== *)
(** * One record per tile, once the source was seen (property 5) *)
(* ===================================================================== *)

Section TraceLengths.

Context `{Ext : Collaborators}.

(** The Kuiper routine returns. *)
Hypothesis kuiper_returns : forall phases, exists k p, kuiper phases = Ok (k, p).

Ltac run_statement :=
  unfold mbind, M_bind, bindM, mret, M_ret, ret, get, modify, lift, raise, bound; simpl.

(** A tile with the source: the statistics are computed, the traces wait. *)
Lemma exposure_of_tile (t_is_merger phi_is_merger : list Q) (key : tile_key) (ID : Z)
    (r : run) :
  int_of_key key = Ok ID ->
  exists r',
    ('(t_is, phi_is) ← count_photons t_is_merger phi_is_merger;
     test_tile phi_is;; accumulate key t_is phi_is;; test_exposure) r = (Ok tt, r')
    /\ detections_bound r' /\ run_traces r' = run_traces r.
Proof.
  intros Hkey. unfold count_photons, test_tile, accumulate, test_exposure. run_statement.
  destruct (kuiper_returns
              (List.map (fun phi_i => py_mod phi_i two_pi)
                 (filter_zip
                    (fun time => Qlt_bool (ts r) time && Qlt_bool time (te r))
                    t_is_merger phi_is_merger))) as (k1 & p1 & ->).
  simpl. rewrite Hkey. simpl.
  match goal with |- context [kuiper ?phases] =>
    destruct (kuiper_returns phases) as (k2 & p2 & ->) end.
  simpl. eexists. split; [reflexivity|]. split; [|reflexivity].
  split; simpl; eauto.
Qed.

(** Once the detection p-values are bound, each trace takes a record. *)
Lemma record_traces_bound (r : run) (n : nat) :
  detections_bound r -> trace_lengths (run_traces r) n ->
  exists r', record_traces r = (Ok tt, r')
             /\ detections_bound r' /\ trace_lengths (run_traces r') (S n).
Proof.
  intros [[d Hd] [td Htd]] Hlen. unfold record_traces. run_statement.
  rewrite Htd. simpl. rewrite Hd. simpl.
  eexists. split; [reflexivity|]. split.
  - split; simpl; eauto.
  - unfold trace_lengths in *. simpl. rewrite !length_app. simpl.
    destruct Hlen as (? & ? & ? & ? & ? & ? & ?).
    repeat match goal with |- _ /\ _ => split end; lia.
Qed.

Lemma observe_tile_records (src : source) (T_lat : Q) (t_is_merger phi_is_merger : list Q)
    (entry : tile_key * tvalue) (r : run) (n : nat) :
  numbered_tile entry ->
  (detections_bound r
   \/ exists t, snd entry = TTile t /\ source_in_tile src t = true) ->
  trace_lengths (run_traces r) n ->
  exists r',
    observe_tile src T_lat t_is_merger phi_is_merger entry r = (Ok tt, r')
    /\ detections_bound r' /\ trace_lengths (run_traces r') (S n).
Proof.
  intros (t & ID & Ht & HID) Hseen Hlen. unfold observe_tile.
  rewrite Ht. unfold mbind at 1, M_bind at 1, bindM at 1, lift at 1. cbv beta iota.
  destruct (source_in_tile src t) eqn:Hin.
  - destruct (exposure_of_tile t_is_merger phi_is_merger (fst entry) ID r HID)
      as (r1 & Hr1 & Hbound & Htraces).
    rewrite (bindM_run _ _ _ _ _ Hr1).
    rewrite <- Htraces in Hlen.
    destruct (record_traces_bound r1 n Hbound Hlen) as (r2 & Hr2 & Hbound2 & Hlen2).
    rewrite (bindM_run _ _ _ _ _ Hr2).
    eexists. split; [reflexivity|]. split; [exact Hbound2 | exact Hlen2].
  - assert (Hbound : detections_bound r).
    { destruct Hseen as [Hb|(t' & Ht' & Hin')]; [exact Hb|].
      rewrite Ht in Ht'. injection Ht' as <-. congruence. }
    unfold mbind at 1, M_bind at 1, bindM at 1. simpl.
    destruct (record_traces_bound r n Hbound Hlen) as (r2 & Hr2 & Hbound2 & Hlen2).
    rewrite (bindM_run _ _ _ _ _ Hr2).
    eexists. split; [reflexivity|]. split; [exact Hbound2 | exact Hlen2].
Qed.

Lemma observe_tiles_records (src : source) (T_lat : Q) (t_is_merger phi_is_merger : list Q)
    (tiles : TileDict) :
  Forall numbered_tile tiles ->
  forall (r : run) (n : nat),
    detections_bound r -> trace_lengths (run_traces r) n ->
    exists r',
      observe_tiles src T_lat t_is_merger phi_is_merger tiles r = (Ok tt, r')
      /\ trace_lengths (run_traces r') (n + length tiles).
Proof.
  induction 1 as [|entry tiles Hentry _ IH]; intros r n Hbound Hlen.
  - exists r. split; [reflexivity|]. now rewrite Nat.add_0_r.
  - destruct (observe_tile_records src T_lat t_is_merger phi_is_merger entry r n
                Hentry (or_introl Hbound) Hlen) as (r1 & Hr1 & Hbound1 & Hlen1).
    destruct (IH r1 (S n) Hbound1 Hlen1) as (r2 & Hr2 & Hlen2).
    exists r2. split.
    + unfold observe_tiles in *. simpl. rewrite (bindM_run _ _ _ _ _ Hr1). exact Hr2.
    + simpl. now rewrite Nat.add_succ_r.
Qed.

(** When the first tile contains the source and the Kuiper routine
    returns, the run over the tiles ends without an exception and every one
    of the seven traces holds exactly one record per tile, whether the later
    tiles contain the source or not. *)
Theorem one_record_per_tile (src : source) (T_lat ts : Q)
    (t_is_merger phi_is_merger : list Q) (key : tile_key) (t : tile) (tiles : TileDict) :
  source_in_tile src t = true ->
  Forall numbered_tile ((key, TTile t) :: tiles) ->
  exists final,
    observe_tiles src T_lat t_is_merger phi_is_merger ((key, TTile t) :: tiles)
      (first_run ts T_lat) = (Ok tt, final)
    /\ trace_lengths (run_traces final) (length ((key, TTile t) :: tiles)).
Proof.
  intros Hin Hall. apply Forall_cons in Hall as [Hfirst Hrest].
  assert (Hzero : trace_lengths (run_traces (first_run ts T_lat)) 0).
  { unfold trace_lengths. simpl. tauto. }
  destruct (observe_tile_records src T_lat t_is_merger phi_is_merger (key, TTile t)
              (first_run ts T_lat) 0 Hfirst (or_intror (ex_intro _ t (conj eq_refl Hin)))
              Hzero) as (r1 & Hr1 & Hbound1 & Hlen1).
  destruct (observe_tiles_records src T_lat t_is_merger phi_is_merger tiles Hrest
              r1 1 Hbound1 Hlen1) as (r2 & Hr2 & Hlen2).
  exists r2. split.
  - unfold observe_tiles in *. simpl. rewrite (bindM_run _ _ _ _ _ Hr1). exact Hr2.
  - exact Hlen2.
Qed.

End TraceLengths.

(** [one_record_per_tile] on the demo installation: the source is in the
    first tile and not in the second. *)
Lemma one_record_per_tile_demo :
  exists final,
    observe_tiles Demo.source_in 20 Demo.t_is Demo.phi_is
      [(KInt 0, TTile Demo.a_tile); (KInt 1, TTile Demo.far_tile)] (first_run (-50) 20)
    = (Ok tt, final)
    /\ trace_lengths (run_traces final) 2.
Proof.
  apply (one_record_per_tile (Ext := Demo.collaborators)).
  - intros phases. exists (1 # 10)%Q, (1 # 2)%Q. reflexivity.
  - reflexivity.
  - repeat constructor.
    + exists Demo.a_tile, 0. split; reflexivity.
    + exists Demo.far_tile, 1. split; reflexivity.
Defined.

(* ===================================================================== *)
(** * What a process without permission writes (section 5) *)
(* ===================================================================== *)

Section WritePermission.

Context `{Ext : Collaborators} (fs : filesystem).

Variable P : event -> Prop.

Lemma emits_mret {A : Type} (a : A) : emits P (mret a).
Proof. intros log. exists []. simpl. rewrite app_nil_r. auto. Qed.

Lemma emits_lift {A : Type} (r : result A) : emits P (lift r).
Proof. intros log. exists []. simpl. rewrite app_nil_r. auto. Qed.

Lemma emits_raise {A : Type} (e : exn) : emits P (raise e : M (list event) A).
Proof. intros log. exists []. simpl. rewrite app_nil_r. auto. Qed.

Lemma emits_emit (e : event) : P e -> emits P (emit e).
Proof. intros He log. exists [e]. simpl. auto. Qed.

Lemma emits_bind {A B : Type} (m : M (list event) A) (k : A -> M (list event) B) :
  emits P m -> (forall a, emits P (k a)) -> emits P (m ≫= k).
Proof.
  intros Hm Hk log. destruct (Hm log) as (new1 & E1 & H1).
  unfold mbind, M_bind, bindM. destruct (m log) as [[a|e] log1]; simpl in E1; subst log1.
  - destruct (Hk a (log ++ new1)) as (new2 & E2 & H2).
    exists (new1 ++ new2). rewrite E2, app_assoc. split; [reflexivity|].
    apply Forall_app. auto.
  - exists new1. auto.
Qed.

Lemma emits_for_each {A B : Type} (l : list A) (body : A -> B -> M (list event) B) (b : B) :
  (forall x b', emits P (body x b')) -> emits P (for_each l body b).
Proof.
  intros Hbody. revert b. induction l as [|x l IH]; intros b; simpl.
  - apply emits_mret.
  - apply emits_bind; [apply Hbody | intros b'; apply IH].
Qed.

(** Applies the rules above along the structure of a statement, after
    trying [known] on each part. *)
Ltac emits_rules known :=
  repeat first
    [ known
    | apply emits_mret
    | apply emits_lift
    | apply emits_raise
    | apply emits_emit; first [assumption | reflexivity]
    | apply emits_bind; [|intros ?]
    | apply emits_for_each; intros ? ?
    | match goal with
      | |- emits _ (if ?b then _ else _) => destruct b
      | |- emits _ (match ?x with _ => _ end) => destruct x
      | |- emits _ (let '(_, _) := ?x in _) => destruct x
      end ].

(** Directories, advisories and the save file are no orbit or
    tesselation file. *)
Hypothesis MkDir_allowed : forall d, P (MkDir d).
Hypothesis WriteSave_allowed : forall f content, P (WriteSave f content).
Hypothesis PrintNewKey_allowed : forall key, P (PrintNewKey key).
Hypothesis PrintReminder_allowed : P PrintReminder.

Lemma emits_try_mkdir (d : string) : emits P (try_mkdir fs d).
Proof. unfold try_mkdir. emits_rules ltac:(apply emits_emit, MkDir_allowed). Qed.

Lemma emits_mkdir (d : string) : emits P (mkdir fs d).
Proof. unfold mkdir. emits_rules ltac:(apply emits_try_mkdir). Qed.

Lemma emits_check_NewExistentialFileName (kw : kwargs) :
  emits P (check_NewExistentialFileName fs kw).
Proof.
  unfold check_NewExistentialFileName. emits_rules ltac:(apply emits_try_mkdir).
Qed.

Lemma emits_resurrect (kw : kwargs) : emits P (resurrect fs kw).
Proof.
  unfold resurrect, check_ExistentialFileName.
  emits_rules ltac:(apply emits_try_mkdir).
Qed.

Lemma emits_merge_kwargs (verbose : value) (kw : kwargs) (go cfg : dict) :
  emits P (merge_kwargs verbose kw go cfg).
Proof.
  unfold merge_kwargs, merge_key.
  emits_rules ltac:(apply emits_emit, PrintNewKey_allowed).
Qed.

Lemma emits_name_orbitFile (cfg : dict) : emits P (name_orbitFile fs cfg).
Proof. unfold name_orbitFile. emits_rules ltac:(apply emits_mkdir). Qed.

(** Without permission the orbit is computed and not written. *)
Lemma emits_compute_orbit (MUTATED : bool) (cfg : dict) :
  emits P (compute_orbit fs false MUTATED cfg).
Proof.
  unfold compute_orbit, getOrbit, SAVETOFILE. simpl.
  emits_rules ltac:(apply emits_mkdir).
Qed.

Lemma emits_ExistentialCrisis (self : Athena) (NewFileName : option string) :
  emits P (ExistentialCrisis fs self NewFileName).
Proof.
  unfold ExistentialCrisis.
  emits_rules ltac:(first [apply emits_mkdir | apply emits_emit, WriteSave_allowed]).
Qed.

(** Without permission the tesselation is computed and not written. *)
Lemma emits_ComputeTesselation (self : Athena) :
  PermissionToWrite self = false -> emits P (ComputeTesselation fs self).
Proof.
  intros Hno. unfold ComputeTesselation, tesselation, tesselate. rewrite Hno.
  emits_rules ltac:(apply emits_ExistentialCrisis).
Qed.

Lemma emits_construct (fuel : nat) (verbose : value) (kw : kwargs) (r : resurrected) :
  emits P (construct fs fuel verbose false kw r).
Proof.
  unfold construct.
  emits_rules ltac:(first
    [ apply emits_merge_kwargs | apply emits_name_orbitFile
    | apply emits_compute_orbit | apply emits_mkdir
    | apply emits_ComputeTesselation; reflexivity
    | apply emits_emit, PrintReminder_allowed ]).
Qed.

Lemma emits_init (fuel : nat) (MPI_size : nat) (kw : kwargs) :
  (1 < MPI_size)%nat -> emits P (init fs fuel (Some MPI_size) kw).
Proof.
  intros Hsize. unfold init. apply Nat.ltb_lt in Hsize. rewrite Hsize. simpl.
  emits_rules ltac:(first
    [ apply emits_check_NewExistentialFileName | apply emits_resurrect
    | apply emits_construct ]).
Qed.

End WritePermission.

(** A process that is one of several under MPI has no permission to
    write.  Whatever its keyword arguments, and whether it ends well or
    raises, its constructor writes neither an orbit file nor a tesselation
    file. *)
Theorem no_orbit_or_tess_write_without_permission `{Ext : Collaborators} (fs : filesystem)
    (fuel MPI_size : nat) (kw : kwargs) (log : list event) :
  (1 < MPI_size)%nat ->
  exists new,
    snd (init fs fuel (Some MPI_size) kw log) = log ++ new
    /\ Forall (fun e => is_orbit_or_tess_write e = false) new.
Proof.
  intros Hsize.
  apply (emits_init fs (fun e => is_orbit_or_tess_write e = false)); auto.
Qed.

(** [no_orbit_or_tess_write_without_permission] on the demo installation,
    in an MPI world of four processes. *)
Lemma no_orbit_or_tess_write_without_permission_demo :
  exists new,
    snd (init Demo.files 2 (Some 4%nat) Demo.new_field_of_view []) = [] ++ new
    /\ Forall (fun e => is_orbit_or_tess_write e = false) new.
Proof.
  apply no_orbit_or_tess_write_without_permission. lia.
Defined.

(* ===================================================================== *)
(** * Lines 183-192: what the merge stores *)
(* ===================================================================== *)

Section Merge.

Lemma has_key_insert (d : dict) (k k' : string) (v : value) :
  has_key (<[k := v]> d) k' = (String.eqb k k' || has_key d k')%bool.
Proof.
  unfold has_key. destruct (String.eqb_spec k k') as [->|Hne].
  - rewrite lookup_insert_eq. apply bool_decide_eq_true_2. eauto.
  - rewrite lookup_insert_ne by exact Hne. reflexivity.
Qed.

Lemma kw_get_cons (k key : string) (v : value) (kw : kwargs) :
  kw_get k ((key, v) :: kw) = if String.eqb key k then Some v else kw_get k kw.
Proof. unfold kw_get. simpl. destruct (String.eqb key k); reflexivity. Qed.

Lemma kw_get_absent (k : string) (kw : kwargs) :
  k ∉ map fst kw -> kw_get k kw = None.
Proof.
  induction kw as [|[key v] kw IH]; intros Hnot; [reflexivity|].
  rewrite kw_get_cons. simpl in Hnot. apply not_elem_of_cons in Hnot as [Hne Hnot].
  destruct (String.eqb_spec key k) as [->|_]; [congruence | now apply IH].
Qed.

Lemma is_unknown_key_ext (go cfg go1 cfg1 : dict) (key : string) (kw : kwargs) :
  key ∉ map fst kw ->
  (forall k, k <> key -> has_key go1 k = has_key go k /\ has_key cfg1 k = has_key cfg k) ->
  forall kv, In kv kw -> is_unknown_key go1 cfg1 kv = is_unknown_key go cfg kv.
Proof.
  intros Hnot Hsame kv Hin. unfold is_unknown_key.
  destruct (Hsame (fst kv)) as [-> ->]; [|reflexivity].
  intros Heq. apply Hnot. rewrite <- Heq. apply list_elem_of_In. now apply in_map.
Qed.

Lemma existsb_ext_in {A : Type} (f g : A -> bool) (l : list A) :
  (forall a, In a l -> f a = g a) -> existsb f l = existsb g l.
Proof.
  induction l as [|a l IH]; intros H; [reflexivity|]. simpl.
  rewrite (H a) by now left. rewrite IH; [reflexivity|]. intros b Hb. apply H. now right.
Qed.

(** One turn of the loop, as a function of the state before it. *)
Lemma merge_key_run (verbose : value) (key : string) (v : value) (go cfg : dict)
    (print_reminder : bool) (log : list event) :
  merge_key verbose (key, v) (go, cfg, print_reminder) log
  = (Ok (if has_key go key then <[key := v]> go else go,
         if has_key go key then cfg
         else if has_key cfg key || negb (is_not_gwemopt_key key) then <[key := v]> cfg
         else cfg,
         print_reminder || is_unknown_key go cfg (key, v)),
     log ++ if truthy verbose && is_unknown_key go cfg (key, v)
            then [PrintNewKey key] else []).
Proof.
  unfold merge_key, is_unknown_key. simpl fst.
  destruct (has_key go key); [|destruct (has_key cfg key);
    [|destruct (is_not_gwemopt_key key)]]; simpl;
    rewrite ?andb_false_r, ?orb_false_r, ?app_nil_r; try reflexivity.
  rewrite orb_true_r, andb_true_r.
  destruct (truthy verbose); simpl; [reflexivity|]. now rewrite app_nil_r.
Qed.

Lemma for_each_merge_key (verbose : value) (kw : kwargs) :
  NoDup (map fst kw) ->
  forall go cfg print_reminder log,
  exists go' cfg' print_reminder' log',
    for_each kw (merge_key verbose) (go, cfg, print_reminder) log
    = (Ok (go', cfg', print_reminder'), log')
    /\ merged verbose kw go cfg print_reminder log go' cfg' print_reminder' log'.
Proof.
  induction kw as [|[key v] kw IH]; intros Hnodup go cfg pr log.
  - exists go, cfg, pr, log. split; [reflexivity|].
    split; simpl; intros; try reflexivity.
    + now rewrite orb_false_r.
    + destruct (truthy verbose); now rewrite app_nil_r.
  - simpl in Hnodup. apply NoDup_cons in Hnodup as [Hnot Hnodup].
    pose proof (merge_key_run verbose key v go cfg pr log) as Hstep.
    set (go1 := if has_key go key then <[key := v]> go else go) in Hstep.
    set (cfg1 := if has_key go key then cfg
                 else if has_key cfg key || negb (is_not_gwemopt_key key)
                      then <[key := v]> cfg else cfg) in Hstep.
    destruct (IH Hnodup go1 cfg1 (pr || is_unknown_key go cfg (key, v))
                (log ++ if truthy verbose && is_unknown_key go cfg (key, v)
                        then [PrintNewKey key] else []))
      as (go' & cfg' & pr' & log' & Hrun & [Hgo' Hcfg' Hpr' Hlog']).
    exists go', cfg', pr', log'. split.
    { simpl. rewrite (bindM_run _ _ _ _ _ Hstep). exact Hrun. }
    assert (Hsame : forall k, k <> key ->
              (has_key go1 k = has_key go k /\ has_key cfg1 k = has_key cfg k)
              /\ go1 !! k = go !! k /\ cfg1 !! k = cfg !! k).
    { intros k Hne. subst go1 cfg1.
      assert (Hb : String.eqb key k = false) by (apply String.eqb_neq; congruence).
      destruct (has_key go key); [|destruct (has_key cfg key || negb (is_not_gwemopt_key key))];
        rewrite ?has_key_insert, ?Hb, ?lookup_insert_ne by congruence; auto. }
    assert (Hext : forall kv, In kv kw ->
              is_unknown_key go1 cfg1 kv = is_unknown_key go cfg kv).
    { apply (is_unknown_key_ext _ _ _ _ key); [exact Hnot|]. intros k Hne.
      apply (Hsame k Hne). }
    split.
    + intros k. rewrite Hgo', kw_get_cons.
      destruct (String.eqb_spec key k) as [<-|Hne].
      * rewrite (kw_get_absent key kw Hnot). subst go1.
        destruct (has_key go key) eqn:Hgo; [apply lookup_insert_eq|].
        now apply has_key_false.
      * destruct (Hsame k) as ([-> _] & -> & _); [congruence|]. reflexivity.
    + intros k. rewrite Hcfg', kw_get_cons.
      destruct (String.eqb_spec key k) as [<-|Hne].
      * rewrite (kw_get_absent key kw Hnot). subst cfg1.
        destruct (has_key go key) eqn:Hgo; [reflexivity|].
        destruct (has_key cfg key) eqn:Hcfg; simpl; [apply lookup_insert_eq|].
        destruct (is_not_gwemopt_key key); simpl; [|apply lookup_insert_eq].
        now apply has_key_false.
      * destruct (Hsame k) as ([-> ->] & _ & ->); [congruence|]. reflexivity.
    + rewrite Hpr', (existsb_ext_in _ _ _ Hext). simpl. now rewrite orb_assoc.
    + rewrite Hlog', (filter_ext_in _ _ _ Hext), <- app_assoc. f_equal. simpl.
      destruct (is_unknown_key go cfg (key, v)), (truthy verbose); reflexivity.
Qed.


(** The merge of the keyword arguments, which a Python call gives under
    distinct names, never raises.  Every keyword argument that names a
    parameter of the search parameters replaces it; every other one that
    names a parameter of the physical configuration replaces that; every
    other one is added to the physical configuration, with the advisory and
    the reminder flag, unless it is [NewExistentialFileName] or
    [NeworbitFile], which are left out.  Parameters that no keyword argument
    names are unchanged. *)
Theorem merge_kwargs_stores (verbose : value) (kw : kwargs) (go cfg : dict)
    (log : list event) :
  NoDup (map fst kw) ->
  exists go' cfg' print_reminder log',
    merge_kwargs verbose kw go cfg log = (Ok (go', cfg', print_reminder), log')
    /\ merged verbose kw go cfg false log go' cfg' print_reminder log'.
Proof.
  intros Hnodup. unfold merge_kwargs.
  exact (for_each_merge_key verbose kw Hnodup go cfg false log).
Qed.

End Merge.

(** [merge_kwargs_stores] on the demo installation: a parameter of the
    physical configuration, an unknown key and the two directives of line
    189. *)
Lemma merge_kwargs_stores_demo :
  exists go' cfg' print_reminder log',
    merge_kwargs (VBool true)
      [("FOV_type", VStr "square"); ("colour", VStr "red");
       ("NeworbitFile", VStr "o.dat"); ("NewExistentialFileName", VStr "a.dat")]
      Demo.go_params Demo.config_struct []
    = (Ok (go', cfg', print_reminder), log')
    /\ merged (VBool true)
         [("FOV_type", VStr "square"); ("colour", VStr "red");
          ("NeworbitFile", VStr "o.dat"); ("NewExistentialFileName", VStr "a.dat")]
         Demo.go_params Demo.config_struct false [] go' cfg' print_reminder log'.
Proof.
  apply merge_kwargs_stores. apply (bool_decide_unpack _). vm_compute. exact I.
Defined.

(* ===================================================================== *)
(** * Names that the versioning picks *)
(* ===================================================================== *)

Section FreshNames.

Context `{Ext : Collaborators} (fs : filesystem).

(** The loop ends on a name that is not a file. *)
Lemma first_free_version_free (fuel : nat) (Ext' : Z) (name p : string) :
  first_free_version fs fuel Ext' name = Ok p -> isfile fs p = false.
Proof.
  revert Ext' name. induction fuel as [|fuel IH]; intros Ext' name; simpl;
    destruct (isfile fs name) eqn:Hfile; try discriminate.
  - now intros [= <-].
  - apply IH.
  - now intros [= <-].
Qed.

Lemma versionPath_free (fuel : nat) (name p : string) :
  versionPath fs fuel name = Ok p -> isfile fs p = false.
Proof.
  unfold versionPath. destruct (version_start name) as [Ext' name'].
  apply first_free_version_free.
Qed.

(** A mutated instrument that is given no name for its new files never
    takes the name of an existing file: after the versioning of lines
    203-225 and 237-258, the file named in the configuration does not exist,
    and no other entry of the configuration has changed; the save file
    chosen by lines 303-322 does not exist either. *)
Theorem versioned_names_are_free (fuel : nat) (key NewKey dir ext : string)
    (kw : kwargs) (cfg cfg' : dict) (f : string) :
  kw_get NewKey kw = None ->
  kw_get "NewExistentialFileName" kw = None ->
  cfg !! key = Some (VStr f) ->
  version_config_file fs fuel key NewKey dir ext true kw cfg = Ok cfg' ->
  (exists p, cfg' !! key = Some (VStr p) /\ isfile fs p = false)
  /\ (forall k, k <> key -> cfg' !! k = cfg !! k)
  /\ (forall name p,
         version_ExistentialFileName fs fuel kw name = Ok p -> isfile fs p = false).
Proof.
  intros HNew HEx Hkey H. unfold version_config_file, getitem in H.
  rewrite Hkey in H. simpl in H. rewrite HNew, HEx in H.
  split; [|split].
  - destruct (isfile fs f) eqn:Hfile.
    + apply bind_Ok in H as (p & Hp & H). injection H as <-.
      exists p. rewrite lookup_insert_eq. split; [reflexivity|].
      now apply versionPath_free in Hp.
    + injection H as <-. eauto.
  - intros k Hne. destruct (isfile fs f).
    + apply bind_Ok in H as (p & Hp & H). injection H as <-.
      now rewrite lookup_insert_ne.
    + now injection H as <-.
  - intros name p. unfold version_ExistentialFileName. rewrite HEx.
    apply versionPath_free.
Qed.

End FreshNames.

(** [versioned_names_are_free] on the demo installation, where the
    tesselation file of the saved instrument and two versions of it exist. *)
Lemma versioned_names_are_free_demo :
  exists cfg',
    version_tesselationFile Demo.files 2 true [("FOV_type", VStr "square")]
      Demo.saved_config_struct = Ok cfg'
    /\ (exists p, cfg' !! "tesselationFile" = Some (VStr p) /\ isfile Demo.files p = false)
    /\ (forall k, k <> "tesselationFile" -> cfg' !! k = Demo.saved_config_struct !! k)
    /\ (forall name p,
           version_ExistentialFileName Demo.files 2 [("FOV_type", VStr "square")] name = Ok p ->
           isfile Demo.files p = false).
Proof.
  assert (Hok : is_ok (version_tesselationFile Demo.files 2 true [("FOV_type", VStr "square")]
                         Demo.saved_config_struct) = true)
    by (vm_compute; reflexivity).
  destruct (version_tesselationFile Demo.files 2 true [("FOV_type", VStr "square")]
              Demo.saved_config_struct) as [cfg'|e] eqn:Hrun; [|discriminate Hok].
  assert (Hkey : Demo.saved_config_struct !! "tesselationFile"
                 = Some (VStr "/opt/SYNEX/gwemopt_tess_files/Athena.tess"))
    by (vm_compute; reflexivity).
  exists cfg'. split; [reflexivity|].
  exact (versioned_names_are_free Demo.files 2 "tesselationFile" "NewtesselationFile"
           "/gwemopt_tess_files" ".tess" [("FOV_type", VStr "square")]
           Demo.saved_config_struct cfg' _ eq_refl eq_refl Hkey Hrun).
Defined.

(* ===================================================================== *)
(** * The save file of a new object *)
(* ===================================================================== *)

(** Applies the rules of [emits] along the structure of a statement, after
    trying [known] on each part. *)
Ltac emits_walk known :=
  repeat first
    [ known
    | apply emits_mret
    | apply emits_lift
    | apply emits_raise
    | apply emits_bind; [|intros ?]
    | apply emits_for_each; intros ? ?
    | match goal with
      | |- emits _ (if ?b then _ else _) => destruct b
      | |- emits _ (match ?x with _ => _ end) => destruct x
      | |- emits _ (let '(_, _) := ?x in _) => destruct x
      end ].

Section SaveFile.

Context `{Ext : Collaborators} (fs : filesystem).

Lemma emits_run {A : Type} (P : event -> Prop) (m : M (list event) A)
    (log log' : list event) (r : result A) :
  emits P m -> m log = (r, log') -> exists new, log' = log ++ new /\ Forall P new.
Proof. intros Hm Hrun. destruct (Hm log) as (new & E & H). rewrite Hrun in E. eauto. Qed.

Section OtherWrites.

Variable P : event -> Prop.
Hypothesis MkDir_allowed : forall d, P (MkDir d).
Hypothesis WriteOrbit_allowed : forall f, P (WriteOrbit f).
Hypothesis WriteTess_allowed : forall f, P (WriteTess f).

Lemma emits_compute_orbit_with (PermissionToWrite MUTATED : bool) (cfg : dict) :
  emits P (compute_orbit fs PermissionToWrite MUTATED cfg).
Proof.
  unfold compute_orbit, getOrbit.
  emits_walk ltac:(first [apply emits_mkdir, MkDir_allowed
                          | apply emits_emit, WriteOrbit_allowed]).
Qed.

Lemma emits_tesselation (self : Athena) (cfg : dict) : emits P (tesselation self cfg).
Proof.
  unfold tesselation, tesselate.
  emits_walk ltac:(apply emits_emit, WriteTess_allowed).
Qed.

End OtherWrites.

(** The tesselation is followed by one write: the save file of the object,
    holding what the object holds. *)
Lemma ComputeTesselation_saves (self self' : Athena) (log log' : list event) :
  ComputeTesselation fs self log = (Ok self', log') ->
  exists before content,
    log' = log ++ before ++ [WriteSave (ExistentialFileName self') content]
    /\ no_save_write before
    /\ MyExistentialDict self' = Ok content
    /\ ExistentialFileName self' = ExistentialFileName self.
Proof.
  unfold ComputeTesselation. intros H.
  apply bindM_Ok in H as (v & l0 & Hv & H). done_lift Hv.
  apply bindM_Ok in H as (cfg & l1 & Hcfg & H).
  assert (l1 = log) as ->.
  { destruct (truthy v); [now done_lift Hcfg | now done_mret Hcfg]. }
  apply bindM_Ok in H as (cfg' & l2 & Htess & H).
  destruct (emits_run (fun e => is_save_write e = false) _ _ _ _
              (emits_tesselation _ (fun _ => eq_refl) self cfg) Htess)
    as (before & -> & Hbefore).
  apply bindM_Ok in H as (cfg'' & l3 & Href & H). done_lift Href.
  unfold ExistentialCrisis in H.
  apply bindM_Ok in H as (self1 & l4 & Hself & H). done_mret Hself.
  apply bindM_Ok in H as (content & l5 & Hcontent & H). done_lift Hcontent.
  apply bindM_Ok in H as (u & l6 & Hemit & H). apply mret_Ok in H as [-> ->].
  unfold emit, modify in Hemit. injection Hemit as <- <-.
  exists before, content. rewrite <- app_assoc. auto.
Qed.

(** Lines 181-340. *)
Lemma construct_saves (fuel : nat) (verbose : value) (PermissionToWrite : bool)
    (kw : kwargs) (r : resurrected) (log log' : list event) (self : Athena) :
  construct fs fuel verbose PermissionToWrite kw r log = (Ok self, log') ->
  saved_once log log' self.
Proof.
  unfold construct, saved_once. intros H.
  pose (P := fun e => is_save_write e = false).
  apply bindM_Ok in H as ([[go cfg] print_reminder] & l1 & Hmerge & H).
  destruct (emits_run P _ _ _ _ (emits_merge_kwargs P (fun _ => eq_refl) _ _ _ _) Hmerge)
    as (new1 & -> & H1).
  apply bindM_Ok in H as (cfg1 & l2 & Htess & H). done_lift Htess.
  apply bindM_Ok in H as (cfg2 & l3 & Hvtess & H). done_lift Hvtess.
  apply bindM_Ok in H as (cfg3 & l4 & Horbit & H).
  destruct (emits_run P _ _ _ _ (emits_name_orbitFile fs P (fun _ => eq_refl) _) Horbit)
    as (new2 & -> & H2).
  apply bindM_Ok in H as (cfg4 & l5 & Hvorbit & H). done_lift Hvorbit.
  destruct (GWEMOPTPathChecks go cfg4) as [go' cfg'].
  apply bindM_Ok in H as (cfg5 & l6 & Hcompute & H).
  destruct (emits_run P _ _ _ _
              (emits_compute_orbit_with P (fun _ => eq_refl) (fun _ => eq_refl) _ _ _)
              Hcompute)
    as (new3 & -> & H3).
  apply bindM_Ok in H as (name & l7 & Hname & H).
  assert (l7 = (log ++ new1) ++ new2 ++ new3) as ->.
  { rewrite app_assoc. destruct (r_ExistentialFileName r);
      [now done_mret Hname | now done_lift Hname]. }
  apply bindM_Ok in H as ([MutatedFrom name'] & l8 & Hmutated & H).
  assert (l8 = (log ++ new1) ++ new2 ++ new3) as ->.
  { destruct (MUTATED r); [|now done_mret Hmutated].
    apply bindM_Ok in Hmutated as (new & l9 & Hnew & Hmutated).
    done_lift Hnew. now done_mret Hmutated. }
  apply bindM_Ok in H as (u & l9 & Hmkdir & H).
  destruct (emits_run P _ _ _ _ (emits_mkdir fs P (fun _ => eq_refl) _) Hmkdir)
    as (new4 & -> & H4).
  apply bindM_Ok in H as (self1 & l10 & Hcompute_tess & H).
  apply ComputeTesselation_saves in Hcompute_tess
    as (new5 & content & -> & H5 & Hcontent & Hsame).
  apply bindM_Ok in H as (u' & l11 & Hprint & H).
  assert (Hprints : emits P (if print_reminder && truthy verbose
                             then emit PrintReminder else mret tt)).
  { destruct (print_reminder && truthy verbose);
      [now apply emits_emit | apply emits_mret]. }
  destruct (emits_run P _ _ _ _ Hprints Hprint) as (after & -> & Hafter).
  done_mret H.
  exists (new1 ++ new2 ++ new3 ++ new4 ++ new5), content, after.
  split; [|split; [|split]].
  - unfold set_ARF_file_loc_name. simpl. rewrite <- !app_assoc. reflexivity.
  - repeat (apply Forall_app; split); assumption.
  - exact Hafter.
  - unfold MyExistentialDict in *. exact Hcontent.
Qed.

(** Every construction that returns has written one save file: the one
    the new object names, after everything else it wrote, and holding the
    parameters, the coverage and the tiles of the new object. *)
Theorem constructor_saves_itself (fuel : nat) (MPI : option nat) (kw : kwargs)
    (log log' : list event) (self : Athena) :
  init fs fuel MPI kw log = (Ok self, log') -> saved_once log log' self.
Proof.
  unfold init. intros H.
  pose (P := fun e => is_save_write e = false).
  apply bindM_Ok in H as (kw1 & l1 & Hcheck & H).
  destruct (emits_run P _ _ _ _
              (emits_check_NewExistentialFileName fs P (fun _ => eq_refl) _) Hcheck)
    as (new1 & -> & H1).
  apply bindM_Ok in H as ([kw2 r] & l2 & Hres & H).
  destruct (emits_run P _ _ _ _ (emits_resurrect fs P (fun _ => eq_refl) _) Hres)
    as (new2 & -> & H2).
  apply construct_saves in H as (before & content & after & -> & Hbefore & Hafter & Hcontent).
  exists (new1 ++ new2 ++ before), content, after.
  split; [|split; [|split]]; try assumption.
  - rewrite <- !app_assoc. reflexivity.
  - repeat (apply Forall_app; split); assumption.
Qed.


(** ** The names of the save file *)

Lemma kw_get_kw_del (k k' : string) (kw : kwargs) :
  k <> k' -> kw_get k (kw_del k' kw) = kw_get k kw.
Proof.
  intros Hne. unfold kw_get, kw_del. induction kw as [|[key v] kw IH]; [reflexivity|].
  simpl. destruct (String.eqb_spec key k') as [->|Hk']; simpl.
  - destruct (String.eqb_spec k' k) as [->|_]; [congruence | exact IH].
  - destruct (String.eqb key k); [reflexivity | exact IH].
Qed.

Lemma kw_get_kw_set (k k' : string) (v : value) (kw : kwargs) :
  k <> k' -> kw_get k (kw_set k' v kw) = kw_get k kw.
Proof.
  intros Hne. unfold kw_get, kw_set. induction kw as [|[key w] kw IH]; [reflexivity|].
  simpl. destruct (String.eqb_spec key k') as [->|Hk']; simpl.
  - destruct (String.eqb_spec k' k) as [->|_]; [congruence | exact IH].
  - destruct (String.eqb key k); [reflexivity | exact IH].
Qed.

(** Lines 89-94 touch no other keyword argument. *)
Lemma check_NewExistentialFileName_others (kw kw1 : kwargs) (log log1 : list event)
    (k : string) :
  check_NewExistentialFileName fs kw log = (Ok kw1, log1) ->
  k <> "NewExistentialFileName" -> kw_get k kw1 = kw_get k kw.
Proof.
  unfold check_NewExistentialFileName. intros H Hne.
  destruct (kw_get "NewExistentialFileName" kw) as [v|]; [|now done_mret H].
  apply bindM_Ok in H as (name & l0 & Hname & H).
  apply bindM_Ok in H as ([|] & l1 & Hok & H); done_mret H; [reflexivity|].
  now apply kw_get_kw_set.
Qed.

(** The constructor, in its three stages. *)
Lemma init_stages (fuel : nat) (MPI : option nat) (kw : kwargs) (log log' : list event)
    (self : Athena) :
  init fs fuel MPI kw log = (Ok self, log') ->
  exists verbose PermissionToWrite kw1 log1 kw2 r log2,
    check_NewExistentialFileName fs (kw_del "verbose" kw) log = (Ok kw1, log1)
    /\ resurrect fs kw1 log1 = (Ok (kw2, r), log2)
    /\ construct fs fuel verbose PermissionToWrite kw2 r log2 = (Ok self, log').
Proof.
  unfold init. intros H.
  apply bindM_Ok in H as (kw1 & l1 & Hcheck & H).
  apply bindM_Ok in H as ([kw2 r] & l2 & Hres & H).
  eauto 10.
Qed.

(** Lines 297-324: the name of the save file and of its origin, for an
    instrument that was given a name. *)
Lemma construct_names (fuel : nat) (verbose : value) (PermissionToWrite : bool)
    (kw : kwargs) (r : resurrected) (log log' : list event) (self : Athena)
    (name : string) :
  construct fs fuel verbose PermissionToWrite kw r log = (Ok self, log') ->
  r_ExistentialFileName r = Some name ->
  if MUTATED r
  then version_ExistentialFileName fs fuel kw name = Ok (ExistentialFileName self)
       /\ MutatedFromTelescopeFile self = Some (Some name)
  else ExistentialFileName self = name
       /\ MutatedFromTelescopeFile self = r_MutatedFromTelescopeFile r.
Proof.
  unfold construct. intros H Hname.
  apply bindM_Ok in H as ([[go cfg] print_reminder] & l1 & Hmerge & H).
  apply bindM_Ok in H as (cfg1 & l2 & Htess & H).
  apply bindM_Ok in H as (cfg2 & l3 & Hvtess & H).
  apply bindM_Ok in H as (cfg3 & l4 & Horbit & H).
  apply bindM_Ok in H as (cfg4 & l5 & Hvorbit & H).
  destruct (GWEMOPTPathChecks go cfg4) as [go' cfg'].
  apply bindM_Ok in H as (cfg5 & l6 & Hcompute & H).
  apply bindM_Ok in H as (name0 & l7 & Hname0 & H).
  rewrite Hname in Hname0. apply mret_Ok in Hname0 as [-> ->].
  apply bindM_Ok in H as ([MutatedFrom name'] & l8 & Hmutated & H).
  apply bindM_Ok in H as (u & l9 & Hmkdir & H).
  apply bindM_Ok in H as (self1 & l10 & Hcompute_tess & H).
  apply bindM_Ok in H as (u' & l11 & Hprint & H).
  apply mret_Ok in H as [-> ->].
  apply ComputeTesselation_fields in Hcompute_tess as [cfg'' ->]. simpl.
  destruct (MUTATED r).
  - apply bindM_Ok in Hmutated as (new & l12 & Hnew & Hmutated).
    apply lift_Ok in Hnew as [Hnew ->]. apply mret_Ok in Hmutated as [[= -> ->] _].
    auto.
  - apply mret_Ok in Hmutated as [[= -> ->] _]. auto.
Qed.

(** Lines 96-171, for a save file that exists. *)
Lemma resurrect_existing (kw kw' : kwargs) (r : resurrected) (log log1 log' : list event)
    (v : value) (name : string) :
  kw_get "ExistentialFileName" kw = Some v ->
  check_ExistentialFileName fs v log = (Ok name, log1) ->
  isfile fs name = true ->
  resurrect fs kw log = (Ok (kw', r), log') ->
  kw' = kw_del "ExistentialFileName" kw
  /\ from_save_file fs name kw' = Ok r
  /\ r_ExistentialFileName r = Some name.
Proof.
  intros Hkw Hname Hfile H. unfold resurrect in H. rewrite Hkw in H.
  rewrite (bindM_run _ _ _ _ _ Hname), Hfile in H.
  apply bindM_Ok in H as (r' & l0 & Hsave & H).
  apply lift_Ok in Hsave as [Hsave ->]. apply mret_Ok in H as [[= -> ->] _].
  split; [reflexivity|]. split; [exact Hsave|].
  unfold from_save_file in Hsave. destruct (load_SavedDict fs name); [|discriminate].
  apply bind_Ok in Hsave as (go & _ & Hsave).
  apply bind_Ok in Hsave as (cfg & _ & Hsave).
  apply bind_Ok in Hsave as (mutated & _ & Hsave).
  destruct (backfill _ go cfg). now injection Hsave as <-.
Qed.

(** A mutation that the constructor detects never overwrites the save
    file the instrument was loaded from.  Unless the keyword arguments name
    the new save file, the new object is saved under a name that no file
    had, the save file of its origin is not written, and the object keeps
    the name of its origin in [MutatedFromTelescopeFile]. *)
Theorem detected_mutation_keeps_origin (fuel : nat) (MPI : option nat) (kw : kwargs)
    (log log1 log' : list event) (v : value) (name : string) (sd : SavedDict)
    (go cfg : dict) (self : Athena) :
  kw_get "NewExistentialFileName" kw = None ->
  kw_get "ExistentialFileName" kw = Some v ->
  check_ExistentialFileName fs v log = (Ok name, log1) ->
  isfile fs name = true ->
  load_SavedDict fs name = Some sd ->
  sd_telescope_go_params sd = Some go ->
  sd_telescope_config_struct sd = Some cfg ->
  decide_MUTATED (kw_del "ExistentialFileName" (kw_del "verbose" kw)) go cfg = Ok true ->
  init fs fuel MPI kw log = (Ok self, log') ->
  isfile fs (ExistentialFileName self) = false
  /\ MutatedFromTelescopeFile self = Some (Some name)
  /\ exists new, log' = log ++ new /\ forall content, ~ In (WriteSave name content) new.
Proof.
  intros HNew HEx Hname Hfile Hload Hgo Hcfg Hmut H.
  apply init_stages in H
    as (verbose & perm & kw1 & l1 & kw2 & r & l2 & Hcheck & Hres & H).
  assert (HNew' : kw_get "NewExistentialFileName" (kw_del "verbose" kw) = None)
    by (rewrite kw_get_kw_del by discriminate; exact HNew).
  unfold check_NewExistentialFileName in Hcheck. rewrite HNew' in Hcheck.
  apply mret_Ok in Hcheck as [-> ->].
  assert (HEx' : kw_get "ExistentialFileName" (kw_del "verbose" kw) = Some v)
    by (rewrite kw_get_kw_del by discriminate; exact HEx).
  destruct (emits_run (fun e => is_save_write e = false) _ _ _ _
              (emits_resurrect fs _ (fun _ => eq_refl) _) Hres) as (new1 & -> & Hnew1).
  destruct (resurrect_existing _ _ _ _ _ _ _ _ HEx' Hname Hfile Hres)
    as (-> & Hsave & Hr).
  destruct (from_save_file_snapshot fs _ _ _ _ Hload Hsave)
    as (go' & cfg' & Hgo' & Hcfg' & Hdecide & _).
  assert (go' = go) as -> by congruence. assert (cfg' = cfg) as -> by congruence.
  assert (Hm : MUTATED r = true) by congruence.
  pose proof (construct_names _ _ _ _ _ _ _ _ _ H Hr) as Hnames. rewrite Hm in Hnames.
  destruct Hnames as [Hversion Hfrom].
  unfold version_ExistentialFileName in Hversion.
  rewrite !kw_get_kw_del, HNew in Hversion by discriminate.
  apply versionPath_free in Hversion.
  split; [exact Hversion|]. split; [exact Hfrom|].
  apply construct_saves in H as (before & content & after & -> & Hbefore & Hafter & _).
  exists (new1 ++ before ++ WriteSave (ExistentialFileName self) content :: after).
  split; [now rewrite <- app_assoc|].
  assert (Hno : forall l c, no_save_write l -> ~ In (WriteSave name c) l).
  { intros l c Hl Hin. rewrite List.Forall_forall in Hl. apply Hl in Hin. discriminate Hin. }
  intros c Hin. apply in_app_or in Hin as [Hin|Hin]; [now apply Hno in Hin|].
  apply in_app_or in Hin as [Hin|[Hin|Hin]]; [now apply Hno in Hin| |now apply Hno in Hin].
  injection Hin as Heq _. rewrite Heq in Hversion. congruence.
Qed.


(** Lines 100-104, when the directory of the save file can be made. *)
Lemma check_ExistentialFileName_made (name : string) (log : list event) :
  mkdir_ok fs (dirname name) = true ->
  check_ExistentialFileName fs (VStr name) log = (Ok name, log ++ [MkDir (dirname name)]).
Proof.
  intros Hdir.
  cbv [check_ExistentialFileName try_mkdir mbind M_bind bindM lift splittable].
  rewrite Hdir. reflexivity.
Qed.

(** Lines 96-179, for a save file that does not exist. *)
Lemma resurrect_missing (kw kw' : kwargs) (r : resurrected) (log log' : list event)
    (name : string) :
  kw_get "ExistentialFileName" kw = Some (VStr name) ->
  mkdir_ok fs (dirname name) = true ->
  isfile fs name = false ->
  resurrect fs kw log = (Ok (kw', r), log') ->
  kw' = kw_del "ExistentialFileName" kw /\ r = from_defaults (Some name).
Proof.
  intros Hkw Hdir Hfile H. unfold resurrect in H. rewrite Hkw in H.
  rewrite (bindM_run _ _ _ _ _ (check_ExistentialFileName_made name log Hdir)), Hfile in H.
  now apply mret_Ok in H as [[= -> ->] _].
Qed.

(** The class documents that a save file that is named and does not exist
    is created (lines 44-45).  When the constructor returns, the new object
    has that name, no origin, no coverage and no tiles, and it has been
    saved under that name. *)
Theorem missing_save_file_is_created (fuel : nat) (MPI : option nat) (kw : kwargs)
    (log log' : list event) (name : string) (self : Athena) :
  kw_get "ExistentialFileName" kw = Some (VStr name) ->
  mkdir_ok fs (dirname name) = true ->
  isfile fs name = false ->
  init fs fuel MPI kw log = (Ok self, log') ->
  ExistentialFileName self = name
  /\ MutatedFromTelescopeFile self = None
  /\ telescope_source_coverage self = None
  /\ telescope_tile_struct self = None
  /\ exists before content after,
       log' = log ++ before ++ WriteSave name content :: after
       /\ MyExistentialDict self = Ok content.
Proof.
  intros HEx Hdir Hfile H.
  pose proof H as Hsaves.
  apply init_stages in H
    as (verbose & perm & kw1 & l1 & kw2 & r & l2 & Hcheck & Hres & H).
  assert (HEx1 : kw_get "ExistentialFileName" kw1 = Some (VStr name)).
  { rewrite (check_NewExistentialFileName_others _ _ _ _ _ Hcheck) by discriminate.
    rewrite kw_get_kw_del by discriminate. exact HEx. }
  destruct (resurrect_missing _ _ _ _ _ _ HEx1 Hdir Hfile Hres) as [-> ->].
  pose proof (construct_names _ _ _ _ _ _ _ _ _ H eq_refl) as [Hname Hfrom].
  pose proof (construct_coverage _ _ _ _ _ _ _ _ _ H) as [Hcov Htiles].
  simpl in *. repeat (split; [assumption|]).
  unfold init in Hsaves.
  apply bindM_Ok in Hsaves as (kw1' & l1' & Hcheck' & Hsaves).
  apply bindM_Ok in Hsaves as ([kw2' r'] & l2' & Hres' & Hsaves).
  destruct (emits_run (fun _ => True) _ _ _ _
              (emits_check_NewExistentialFileName fs _ (fun _ => I) _) Hcheck')
    as (new1 & -> & _).
  destruct (emits_run (fun _ => True) _ _ _ _ (emits_resurrect fs _ (fun _ => I) _) Hres')
    as (new2 & -> & _).
  apply construct_saves in Hsaves as (before & content & after & -> & _ & _ & Hcontent).
  exists (new1 ++ new2 ++ before), content, after. rewrite Hname in *.
  split; [now rewrite <- !app_assoc | exact Hcontent].
Qed.

End SaveFile.

(** [constructor_saves_itself] on the demo installation. *)
Lemma constructor_saves_itself_demo :
  exists self log',
    init Demo.files 2 None Demo.new_field_of_view [] = (Ok self, log')
    /\ saved_once [] log' self.
Proof.
  assert (Hok : is_ok (fst (init Demo.files 2 None Demo.new_field_of_view [])) = true)
    by (vm_compute; reflexivity).
  destruct (init Demo.files 2 None Demo.new_field_of_view []) as [[self|e] log'] eqn:Hinit;
    [|discriminate Hok].
  exists self, log'. split; [reflexivity|].
  exact (constructor_saves_itself Demo.files 2 None Demo.new_field_of_view [] log' self Hinit).
Defined.

(** [detected_mutation_keeps_origin] on the demo installation: the saved
    instrument is loaded with a new field of view and a magnitude. *)
Lemma detected_mutation_keeps_origin_demo :
  exists self log',
    init Demo.files 2 None Demo.new_field_of_view [] = (Ok self, log')
    /\ isfile Demo.files (ExistentialFileName self) = false
    /\ MutatedFromTelescopeFile self = Some (Some Demo.save_file)
    /\ exists new, log' = [] ++ new
                   /\ forall content, ~ In (WriteSave Demo.save_file content) new.
Proof.
  assert (Hok : is_ok (fst (init Demo.files 2 None Demo.new_field_of_view [])) = true)
    by (vm_compute; reflexivity).
  destruct (init Demo.files 2 None Demo.new_field_of_view []) as [[self|e] log'] eqn:Hinit;
    [|discriminate Hok].
  exists self, log'. split; [reflexivity|].
  assert (Hname : check_ExistentialFileName Demo.files (VStr Demo.save_file) []
                  = (Ok Demo.save_file, [MkDir "/opt/SYNEX/Saved_Telescope_Dicts"]))
    by (vm_compute; reflexivity).
  assert (Hfile : isfile Demo.files Demo.save_file = true) by (vm_compute; reflexivity).
  assert (Hload : load_SavedDict Demo.files Demo.save_file = Some Demo.snapshot)
    by (vm_compute; reflexivity).
  assert (Hmut : decide_MUTATED
                   (kw_del "ExistentialFileName" (kw_del "verbose" Demo.new_field_of_view))
                   Demo.go_params Demo.saved_config_struct = Ok true)
    by (vm_compute; reflexivity).
  exact (detected_mutation_keeps_origin Demo.files 2 None Demo.new_field_of_view
           [] _ log' (VStr Demo.save_file) Demo.save_file Demo.snapshot
           Demo.go_params Demo.saved_config_struct self
           eq_refl eq_refl Hname Hfile Hload eq_refl eq_refl Hmut Hinit).
Defined.

(** [missing_save_file_is_created] on the demo installation, which has no
    file [New.dat]. *)
Lemma missing_save_file_is_created_demo :
  exists self log',
    init Demo.files 2 None
      [("ExistentialFileName", VStr "/opt/SYNEX/Saved_Telescope_Dicts/New.dat")] []
    = (Ok self, log')
    /\ ExistentialFileName self = "/opt/SYNEX/Saved_Telescope_Dicts/New.dat"
    /\ MutatedFromTelescopeFile self = None
    /\ telescope_source_coverage self = None
    /\ telescope_tile_struct self = None
    /\ exists before content after,
         log' = [] ++ before
                ++ WriteSave "/opt/SYNEX/Saved_Telescope_Dicts/New.dat" content :: after
         /\ MyExistentialDict self = Ok content.
Proof.
  assert (Hok : is_ok (fst (init Demo.files 2 None
                   [("ExistentialFileName", VStr "/opt/SYNEX/Saved_Telescope_Dicts/New.dat")]
                   [])) = true)
    by (vm_compute; reflexivity).
  destruct (init Demo.files 2 None
              [("ExistentialFileName", VStr "/opt/SYNEX/Saved_Telescope_Dicts/New.dat")] [])
    as [[self|e] log'] eqn:Hinit; [|discriminate Hok].
  exists self, log'. split; [reflexivity|].
  assert (Hfile : isfile Demo.files "/opt/SYNEX/Saved_Telescope_Dicts/New.dat" = false)
    by (vm_compute; reflexivity).
  exact (missing_save_file_is_created Demo.files 2 None
           [("ExistentialFileName", VStr "/opt/SYNEX/Saved_Telescope_Dicts/New.dat")]
           [] log' "/opt/SYNEX/Saved_Telescope_Dicts/New.dat" self
           eq_refl eq_refl Hfile Hinit).
Defined.

(* ===================================================================== *)
(** * Saving and loading *)
(* ===================================================================== *)

Section RoundTrip.

Context `{Ext : Collaborators} (fs : filesystem).

(** What [ExistentialCrisis] has saved is what the constructor reads
    back.  After the object has been saved under its name, resurrecting that
    name alone finds the search parameters of the object, its configuration
    without the orbit and the tesselation, its tiles and its coverage (with
    the paths adapted as at every load), and detects no mutation. *)
Theorem saved_instrument_is_resurrected (self self' : Athena) (NewFileName : option string)
    (log log' : list event) :
  ExistentialCrisis fs self NewFileName log = (Ok self', log') ->
  mkdir_ok fs (dirname (ExistentialFileName self')) = true ->
  exists before content,
    log' = log ++ before ++ [WriteSave (ExistentialFileName self') content]
    /\ no_save_write before
    /\ reads_back fs self (ExistentialFileName self') content.
Proof.
  unfold ExistentialCrisis. intros H Hdir.
  apply bindM_Ok in H as (self1 & l1 & Hself & H).
  apply bindM_Ok in H as (content & l2 & Hcontent & H).
  apply lift_Ok in Hcontent as [Hcontent ->].
  apply bindM_Ok in H as (u & l3 & Hemit & H). apply mret_Ok in H as [-> ->].
  unfold emit, modify in Hemit. injection Hemit as <- <-.
  assert (Hbefore : exists before,
             l1 = log ++ before /\ no_save_write before
             /\ telescope_go_params self1 = telescope_go_params self
             /\ telescope_config_struct self1 = telescope_config_struct self
             /\ telescope_tile_struct self1 = telescope_tile_struct self
             /\ telescope_source_coverage self1 = telescope_source_coverage self).
  { destruct NewFileName as [name|].
    - apply bindM_Ok in Hself as (u' & l0 & Hmk & Hself). apply mret_Ok in Hself as [-> ->].
      destruct (emits_run (fun e => is_save_write e = false) _ _ _ _
                  (emits_mkdir fs _ (fun _ => eq_refl) _) Hmk) as (before & -> & Hb).
      exists before. simpl. auto 10.
    - apply mret_Ok in Hself as [-> ->]. exists []. rewrite app_nil_r. auto 10. }
  destruct Hbefore as (before & -> & Hb & Hgo & Hcfg & Htiles & Hcov).
  exists before, content. split; [now rewrite <- app_assoc|]. split; [exact Hb|].
  unfold reads_back. intros log2.
  unfold MyExistentialDict in Hcontent.
  apply bind_Ok in Hcontent as (cfg1 & Hcfg1 & Hcontent).
  apply bind_Ok in Hcontent as (cfg2 & Hcfg2 & Hcontent).
  unfold delitem in Hcfg1, Hcfg2.
  destruct (telescope_config_struct self1 !! "orbit_dict"); [|discriminate].
  injection Hcfg1 as <-.
  destruct (delete "orbit_dict" (telescope_config_struct self1) !! "tesselation");
    [|discriminate].
  injection Hcfg2 as <-. injection Hcontent as <-.
  eexists.
  unfold resurrect. cbn [kw_get List.find fst snd String.eqb Ascii.eqb Bool.eqb option_map].
  rewrite (bindM_run _ _ _ _ _
             (check_ExistentialFileName_made (with_save_file fs _ _) _ log2 Hdir)).
  cbn [isfile with_save_file]. rewrite String.eqb_refl. cbn [orb].
  unfold from_save_file. cbn [load_SavedDict with_save_file]. rewrite String.eqb_refl.
  cbn [sd_telescope_go_params sd_telescope_config_struct kw_del List.filter negb fst
       String.eqb Ascii.eqb Bool.eqb mbind result_bind bind decide_MUTATED kw_has existsb
       length Nat.ltb Nat.leb backfill fold_left].
  cbv [mbind M_bind bindM lift mret M_ret ret]. split; [reflexivity|]. cbn.
  rewrite Hgo, Hcfg, Htiles, Hcov.
  repeat match goal with |- _ /\ _ => split end; reflexivity.
Qed.

End RoundTrip.

(** [saved_instrument_is_resurrected] on the demo instrument, saved under
    a new name once its tesselation is there. *)
Lemma saved_instrument_is_resurrected_demo :
  exists self' log',
    ExistentialCrisis Demo.files
      (set_telescope_config_struct
         (<["tesselation" := VTable [[0%Q; 1%Q; 3%Q]]]>
            (telescope_config_struct Demo.single_exposure_instrument))
         Demo.single_exposure_instrument)
      (Some "/opt/SYNEX/Saved_Telescope_Dicts/run2/Athena.dat") []
    = (Ok self', log')
    /\ exists before content,
         log' = [] ++ before ++ [WriteSave (ExistentialFileName self') content]
         /\ no_save_write before
         /\ reads_back Demo.files
              (set_telescope_config_struct
                 (<["tesselation" := VTable [[0%Q; 1%Q; 3%Q]]]>
                    (telescope_config_struct Demo.single_exposure_instrument))
                 Demo.single_exposure_instrument)
              (ExistentialFileName self') content.
Proof.
  assert (Hok : is_ok (fst (ExistentialCrisis Demo.files
                   (set_telescope_config_struct
                      (<["tesselation" := VTable [[0%Q; 1%Q; 3%Q]]]>
                         (telescope_config_struct Demo.single_exposure_instrument))
                      Demo.single_exposure_instrument)
                   (Some "/opt/SYNEX/Saved_Telescope_Dicts/run2/Athena.dat") [])) = true)
    by (vm_compute; reflexivity).
  destruct (ExistentialCrisis Demo.files
              (set_telescope_config_struct
                 (<["tesselation" := VTable [[0%Q; 1%Q; 3%Q]]]>
                    (telescope_config_struct Demo.single_exposure_instrument))
                 Demo.single_exposure_instrument)
              (Some "/opt/SYNEX/Saved_Telescope_Dicts/run2/Athena.dat") [])
    as [[self'|e] log'] eqn:Hsave; [|discriminate Hok].
  exists self', log'. split; [reflexivity|].
  exact (saved_instrument_is_resurrected Demo.files _ self' _ [] log' Hsave eq_refl).
Defined.

(* ===================================================================== *)
(** * When the mutation decision fails *)
(* ===================================================================== *)

Section ComparisonFails.

(** When the values it compares with [!=] are plain, the comparison of
    lines 148-159 raises in one case only: [Tobs] is among two or more
    keyword arguments, none of them [NewExistentialFileName], and the saved
    search parameters have no [Tobs]; the exception is the [KeyError] of
    line 156. *)
Theorem decide_MUTATED_raises (kw : kwargs) (go cfg : dict) (e : exn) :
  plainly_compared kw go cfg = true ->
  (decide_MUTATED kw go cfg = Raise e <->
   e = KeyError "Tobs"
   /\ kw_has "NewExistentialFileName" kw = false
   /\ (2 <= length kw)%nat
   /\ (exists new, kw_get "Tobs" kw = Some new)
   /\ go !! "Tobs" = None).
Proof.
  intros _. unfold decide_MUTATED, getitem.
  destruct (kw_has "NewExistentialFileName" kw).
  { split; [discriminate | intros (_ & H & _); discriminate H]. }
  destruct (Nat.ltb_spec 1 (length kw)) as [Hlen|Hlen].
  2: { split; [discriminate | intros (_ & _ & H & _); lia]. }
  destruct (kw_get "Tobs" kw) as [new|].
  - destruct (go !! "Tobs") as [old|]; simpl.
    + split; [|intros (_ & _ & _ & _ & H); discriminate H].
      destruct (negb (array_equal new old)); [discriminate|].
      destruct (any _); discriminate.
    + split; [intros [= <-]; eauto 10 | intros (-> & _); reflexivity].
  - simpl. split; [|intros (_ & _ & _ & [new H] & _); discriminate H].
    destruct (any _); discriminate.
Qed.

End ComparisonFails.

(** [decide_MUTATED_raises] on a snapshot whose search parameters hold no
    [Tobs], loaded with a [Tobs] and another field of view. *)
Lemma decide_MUTATED_raises_demo :
  decide_MUTATED [("Tobs", VArr [0%Q; 9%Q]); ("FOV_type", VStr "square")]
    (list_to_map [("doSingleExposure", VBool false)])
    (list_to_map [("FOV_type", VStr "circle")])
  = Raise (KeyError "Tobs").
Proof.
  assert (Hplain : plainly_compared
                     [("Tobs", VArr [0%Q; 9%Q]); ("FOV_type", VStr "square")]
                     (list_to_map [("doSingleExposure", VBool false)])
                     (list_to_map [("FOV_type", VStr "circle")]) = true)
    by (vm_compute; reflexivity).
  apply (proj2 (decide_MUTATED_raises _ _ _ (KeyError "Tobs") Hplain)).
  split; [reflexivity|]. split; [reflexivity|]. split; [simpl; lia|].
  split; [eexists; reflexivity | reflexivity].
Defined.

(* ===================================================================== *)
(** * Lines 352-362: a field of view that is neither circle nor square *)
(* ===================================================================== *)

Section FieldOfView.

Context `{Ext : Collaborators}.

(** When the configuration names a tesselation file and a field of view
    that is neither ["circle"] nor ["square"], no tesselation routine runs and
    nothing is written.  For tiles of type ["galaxy"] the tesselation is the
    empty array of line 359; for every other type, line 362 reads the
    variable [ras] that no branch has assigned. *)
Theorem unknown_FOV_type (self : Athena) (cfg : dict) (FOV_type tilesType : value)
    (log : list event) :
  has_key cfg "tesselationFile" = true ->
  cfg !! "FOV_type" = Some FOV_type ->
  py_eq FOV_type (VStr "circle") = false ->
  py_eq FOV_type (VStr "square") = false ->
  telescope_go_params self !! "tilesType" = Some tilesType ->
  tesselation self cfg log
  = (if py_eq tilesType (VStr "galaxy")
     then Ok (<["tesselation" := VArr np_empty3]> cfg)
     else Raise (UnboundLocalError "ras"),
     log).
Proof.
  intros Hfile HFOV Hcircle Hsquare Htiles.
  unfold tesselation, getitem. rewrite Hfile, HFOV, Htiles.
  cbv [mbind M_bind bindM lift]. rewrite Hcircle. cbv [lift]. rewrite Hsquare.
  cbv [mret M_ret ret]. destruct (py_eq tilesType (VStr "galaxy")); reflexivity.
Qed.

End FieldOfView.

(** [unknown_FOV_type] on the demo instrument with a hexagonal field of
    view. *)
Lemma unknown_FOV_type_demo :
  tesselation Demo.single_exposure_instrument
    (<["FOV_type" := VStr "hexagon"]> Demo.saved_config_struct) []
  = (Raise (UnboundLocalError "ras"), []).
Proof.
  assert (Hfile : has_key (<["FOV_type" := VStr "hexagon"]> Demo.saved_config_struct)
                    "tesselationFile" = true) by (vm_compute; reflexivity).
  assert (HFOV : <["FOV_type" := VStr "hexagon"]> Demo.saved_config_struct !! "FOV_type"
                 = Some (VStr "hexagon")) by (vm_compute; reflexivity).
  assert (Htiles : telescope_go_params Demo.single_exposure_instrument !! "tilesType"
                   = Some (VStr "moc")) by (vm_compute; reflexivity).
  exact (unknown_FOV_type Demo.single_exposure_instrument _ (VStr "hexagon") (VStr "moc") []
           Hfile HFOV eq_refl eq_refl Htiles).
Defined.

(* ===================================================================== *)
(** * Lines 160-192: keyword arguments of a resurrected instrument *)
(* ===================================================================== *)

Section Backfill.

Context `{Ext : Collaborators}.

Lemma backfill_key_other (defaults d : dict) (key k : string) (v : value) :
  k <> key ->
  backfill_key defaults key v d !! k = d !! k
  /\ has_key (backfill_key defaults key v d) k = has_key d k.
Proof.
  intros Hne. unfold backfill_key, has_key.
  destruct (defaults !! key); [|auto].
  destruct (_ && _); rewrite lookup_insert_ne by congruence; auto.
Qed.

Lemma fold_backfill_key (defaults : dict) (kw : kwargs) :
  NoDup (map fst kw) ->
  forall d k,
    fold_left (fun d kv => backfill_key defaults (fst kv) (snd kv) d) kw d !! k
    = backfilled defaults kw d k.
Proof.
  induction kw as [|[key v] kw IH]; intros Hnodup d k; [reflexivity|].
  simpl in Hnodup. apply NoDup_cons in Hnodup as [Hnot Hnodup].
  simpl. rewrite (IH Hnodup). unfold backfilled. rewrite kw_get_cons.
  destruct (String.eqb_spec key k) as [<-|Hne].
  - rewrite (kw_get_absent key kw Hnot). unfold backfill_key.
    destruct (defaults !! key); [|reflexivity].
    destruct (_ && _); apply lookup_insert_eq.
  - destruct (backfill_key_other defaults d key k v) as [-> ->]; [congruence|reflexivity].
Qed.

Lemma backfill_folds (kw : kwargs) (go cfg : dict) :
  backfill kw go cfg
  = (fold_left (fun d kv => backfill_key go_params_default (fst kv) (snd kv) d) kw go,
     fold_left (fun d kv => backfill_key config_struct_default (fst kv) (snd kv) d) kw cfg).
Proof.
  unfold backfill. revert go cfg. induction kw as [|kv kw IH]; intros go cfg; [reflexivity|].
  simpl. apply IH.
Qed.

Lemma has_key_backfilled (defaults : dict) (kw : kwargs) (d d' : dict) (key : string)
    (v : value) :
  (forall k, d' !! k = backfilled defaults kw d k) ->
  kw_get key kw = Some v ->
  has_key d' key = has_key d key || has_key defaults key.
Proof.
  intros Hd' Hkw. unfold has_key. rewrite Hd'. unfold backfilled. rewrite Hkw.
  destruct (defaults !! key) as [dv|] eqn:Hdef.
  - rewrite (bool_decide_eq_true_2 (is_Some (Some dv))) by eauto.
    rewrite orb_true_r. destruct (_ && _); apply bool_decide_eq_true_2; eauto.
  - rewrite (bool_decide_eq_false_2 (is_Some None)) by (intros [x Hx]; discriminate Hx).
    now rewrite orb_false_r.
Qed.

Lemma kw_get_In (kw : kwargs) (key : string) (v : value) :
  NoDup (map fst kw) -> In (key, v) kw -> kw_get key kw = Some v.
Proof.
  induction kw as [|[key' v'] kw IH]; intros Hnodup Hin; [destruct Hin|].
  simpl in Hnodup. apply NoDup_cons in Hnodup as [Hnot Hnodup].
  rewrite kw_get_cons. destruct Hin as [[= -> ->]|Hin].
  - now rewrite String.eqb_refl.
  - destruct (String.eqb_spec key' key) as [->|_]; [|now apply IH].
    exfalso. apply Hnot. apply list_elem_of_In. now apply (in_map fst) in Hin.
Qed.

(** A resurrected instrument stores every keyword argument (Python
    gives them under distinct names), and never refuses one.  After lines
    160-192 the value is in the search parameters when the saved or the
    default search parameters have the key; otherwise it is in the
    configuration, unless the key is on the list of line 189 and unknown to
    the saved and the default configuration, in which case it is nowhere.
    The advisory is printed only for keyword arguments that neither the save
    file nor the defaults know. *)
Theorem resurrected_keywords_are_stored (verbose : value) (kw : kwargs) (go cfg : dict)
    (log : list event) :
  NoDup (map fst kw) ->
  exists go2 cfg2 print_reminder new,
    merge_kwargs verbose kw (fst (backfill kw go cfg)) (snd (backfill kw go cfg)) log
    = (Ok (go2, cfg2, print_reminder), log ++ new)
    /\ forall key v, In (key, v) kw ->
         let known_go := has_key go key || has_key go_params_default key in
         let known_cfg := has_key cfg key || has_key config_struct_default key in
         (known_go = true -> go2 !! key = Some v)
         /\ (known_go = false -> known_cfg || negb (is_not_gwemopt_key key) = true ->
             go2 !! key = None /\ cfg2 !! key = Some v)
         /\ (known_go = false -> known_cfg || negb (is_not_gwemopt_key key) = false ->
             go2 !! key = None /\ cfg2 !! key = None)
         /\ (In (PrintNewKey key) new -> known_go = false /\ known_cfg = false).
Proof.
  intros Hnodup. rewrite backfill_folds. cbn [fst snd].
  set (go1 := fold_left _ kw go). set (cfg1 := fold_left _ kw cfg).
  assert (Hgo1 : forall k, go1 !! k = backfilled go_params_default kw go k)
    by apply (fold_backfill_key _ _ Hnodup).
  assert (Hcfg1 : forall k, cfg1 !! k = backfilled config_struct_default kw cfg k)
    by apply (fold_backfill_key _ _ Hnodup).
  destruct (for_each_merge_key verbose kw Hnodup go1 cfg1 false log)
    as (go2 & cfg2 & pr & log2 & Hrun & [Hgo2 Hcfg2 Hpr Hlog]).
  exists go2, cfg2, pr. eexists. split; [unfold merge_kwargs; rewrite Hrun, Hlog; reflexivity|].
  intros key v Hin.
  set (known_go := has_key go key || has_key go_params_default key).
  set (known_cfg := has_key cfg key || has_key config_struct_default key).
  pose proof (kw_get_In kw key v Hnodup Hin) as Hkw.
  pose proof (has_key_backfilled _ _ _ _ _ _ Hgo1 Hkw) as Hkgo. fold known_go in Hkgo.
  pose proof (has_key_backfilled _ _ _ _ _ _ Hcfg1 Hkw) as Hkcfg. fold known_cfg in Hkcfg.
  specialize (Hgo2 key). specialize (Hcfg2 key). rewrite Hkw, Hkgo in Hgo2, Hcfg2.
  rewrite Hkcfg in Hcfg2.
  split; [|split; [|split]].
  - intros Hk. now rewrite Hk in Hgo2.
  - intros Hk Hc. rewrite Hk in Hgo2, Hcfg2. rewrite Hc in Hcfg2. auto.
  - intros Hk Hc. rewrite Hk in Hgo2, Hcfg2. rewrite Hc in Hcfg2. auto.
  - intros Hprinted. destruct (truthy verbose); [|destruct Hprinted].
    apply in_map_iff in Hprinted as ([key' v'] & [= ->] & Hf).
    apply filter_In in Hf as [_ Hf]. unfold is_unknown_key in Hf. simpl in Hf.
    rewrite Hkgo, Hkcfg in Hf. destruct known_go, known_cfg; try discriminate Hf. auto.
Qed.

End Backfill.

(** [resurrected_keywords_are_stored] on the demo installation: the save
    file lacks the default parameter [tilesType]; the keyword arguments name
    it, a saved parameter, and a key that nothing knows. *)
Lemma resurrected_keywords_are_stored_demo :
  exists go2 cfg2 print_reminder new,
    merge_kwargs (VBool true)
      [("tilesType", VStr "galaxy"); ("FOV_type", VStr "square"); ("colour", VStr "red")]
      (fst (backfill
              [("tilesType", VStr "galaxy"); ("FOV_type", VStr "square");
               ("colour", VStr "red")]
              (delete "tilesType" Demo.go_params) Demo.saved_config_struct))
      (snd (backfill
              [("tilesType", VStr "galaxy"); ("FOV_type", VStr "square");
               ("colour", VStr "red")]
              (delete "tilesType" Demo.go_params) Demo.saved_config_struct))
      []
    = (Ok (go2, cfg2, print_reminder), [] ++ new)
    /\ go2 !! "tilesType" = Some (VStr "galaxy")
    /\ cfg2 !! "FOV_type" = Some (VStr "square")
    /\ cfg2 !! "colour" = Some (VStr "red")
    /\ ~ In (PrintNewKey "tilesType") new.
Proof.
  assert (Hnodup : NoDup (map fst [("tilesType", VStr "galaxy"); ("FOV_type", VStr "square");
                                   ("colour", VStr "red")]))
    by (apply (bool_decide_unpack _); vm_compute; exact I).
  destruct (resurrected_keywords_are_stored (VBool true) _
              (delete "tilesType" Demo.go_params) Demo.saved_config_struct [] Hnodup)
    as (go2 & cfg2 & pr & new & Hrun & Hkeys).
  exists go2, cfg2, pr, new. split; [exact Hrun|].
  destruct (Hkeys "tilesType" (VStr "galaxy") ltac:(simpl; auto)) as (Htiles & _ & _ & Hquiet).
  destruct (Hkeys "FOV_type" (VStr "square") ltac:(simpl; auto)) as (_ & HFOV & _ & _).
  destruct (Hkeys "colour" (VStr "red") ltac:(simpl; auto)) as (_ & Hcolour & _ & _).
  assert (E1 : has_key (delete "tilesType" Demo.go_params) "tilesType"
               || has_key go_params_default "tilesType" = true) by (vm_compute; reflexivity).
  assert (E2 : has_key (delete "tilesType" Demo.go_params) "FOV_type"
               || has_key go_params_default "FOV_type" = false) by (vm_compute; reflexivity).
  assert (E3 : has_key Demo.saved_config_struct "FOV_type"
               || has_key config_struct_default "FOV_type"
               || negb (is_not_gwemopt_key "FOV_type") = true) by (vm_compute; reflexivity).
  assert (E4 : has_key (delete "tilesType" Demo.go_params) "colour"
               || has_key go_params_default "colour" = false) by (vm_compute; reflexivity).
  assert (E5 : has_key Demo.saved_config_struct "colour"
               || has_key config_struct_default "colour"
               || negb (is_not_gwemopt_key "colour") = true) by (vm_compute; reflexivity).
  split; [exact (Htiles E1)|]. split; [exact (proj2 (HFOV E2 E3))|].
  split; [exact (proj2 (Hcolour E4 E5))|].
  intros Hin. apply Hquiet in Hin as [Hno _]. rewrite E1 in Hno. discriminate Hno.
Defined.

(* ===================================================================== *)
(** * Lines 473-546: the run over the tiles *)
(* ===================================================================== *)

Section Tiles.

Context `{Ext : Collaborators}.

Ltac run_in H :=
  unfold mbind, M_bind, bindM, mret, M_ret, ret, get, modify, lift, raise, bound in H;
  simpl in H.

(** One turn of the loop that ends well. *)
Lemma observe_tile_Ok (src : source) (T_lat : Q) (t_is_merger phi_is_merger : list Q)
    (entry : tile_key * tvalue) (r r' : run) :
  observe_tile src T_lat t_is_merger phi_is_merger entry r = (Ok tt, r') ->
  exists t,
    snd entry = TTile t
    /\ ts r' = te r /\ te r' = (te r + T_lat)%Q
    /\ recorded r r'
    /\ if source_in_tile src t
       then exists ID, int_of_key (fst entry) = Ok ID /\ exposed t_is_merger ID r r'
       else run_exposures r' = run_exposures r /\ run_statistics r' = run_statistics r.
Proof.
  unfold observe_tile. intros H.
  destruct (snd entry) as [v|t|s]; try discriminate H.
  exists t. split; [reflexivity|].
  unfold mbind at 1, M_bind at 1, bindM at 1, lift at 1 in H. cbv beta iota in H.
  destruct (source_in_tile src t).
  - unfold count_photons, test_tile, accumulate, test_exposure, record_traces in H.
    run_in H.
    destruct (kuiper _) as [[k1 p1]|e1] in H; [|discriminate H]. simpl in H.
    destruct (int_of_key (fst entry)) as [ID|e2]; [|discriminate H]. simpl in H.
    destruct (kuiper _) as [[k2 p2]|e3] in H; [|discriminate H]. simpl in H.
    injection H as <-. simpl.
    split; [reflexivity|]. split; [reflexivity|]. split.
    + unfold recorded. simpl. eauto.
    + exists ID. split; [reflexivity|]. unfold exposed. simpl. eauto 10.
  - unfold record_traces in H. run_in H.
    destruct (tile_detection_p_val (run_statistics r)) as [td|] eqn:Htd; [|discriminate H].
    simpl in H.
    destruct (detection_p_val (run_statistics r)) as [d|] eqn:Hd; [|discriminate H].
    simpl in H. injection H as <-. simpl.
    split; [reflexivity|]. split; [reflexivity|]. split; [|auto].
    unfold recorded. simpl. eauto.
Qed.


Lemma observe_tiles_cons (src : source) (T_lat : Q) (t_is_merger phi_is_merger : list Q)
    (entry : tile_key * tvalue) (tiles : TileDict) (r r' : run) :
  observe_tiles src T_lat t_is_merger phi_is_merger (entry :: tiles) r = (Ok tt, r') ->
  exists r1,
    observe_tile src T_lat t_is_merger phi_is_merger entry r = (Ok tt, r1)
    /\ observe_tiles src T_lat t_is_merger phi_is_merger tiles r1 = (Ok tt, r').
Proof.
  unfold observe_tiles. simpl. intros H.
  apply bindM_Ok in H as ([] & r1 & H1 & H). eauto.
Qed.

Lemma observe_tiles_snoc (src : source) (T_lat : Q) (t_is_merger phi_is_merger : list Q)
    (tiles : TileDict) (entry : tile_key * tvalue) (r r' : run) :
  observe_tiles src T_lat t_is_merger phi_is_merger (tiles ++ [entry]) r = (Ok tt, r') ->
  exists r1,
    observe_tiles src T_lat t_is_merger phi_is_merger tiles r = (Ok tt, r1)
    /\ observe_tile src T_lat t_is_merger phi_is_merger entry r1 = (Ok tt, r').
Proof.
  revert r. induction tiles as [|first tiles IH]; intros r H.
  - apply observe_tiles_cons in H as (r1 & H1 & H). injection H as <-.
    exists r. split; [reflexivity | exact H1].
  - apply observe_tiles_cons in H as (r1 & H1 & H).
    apply IH in H as (r2 & H2 & H). exists r2. split; [|exact H].
    unfold observe_tiles in *. simpl. rewrite (bindM_run _ _ _ _ _ H1). exact H2.
Qed.

(** ** The exposures *)

Lemma observe_tiles_exposures (src : source) (T_lat : Q) (t_is_merger phi_is_merger : list Q)
    (tiles : TileDict) :
  forall r r',
    observe_tiles src T_lat t_is_merger phi_is_merger tiles r = (Ok tt, r') ->
    let e := run_exposures r in
    let e' := run_exposures r' in
    exists ids ns ks,
      numbered (hits src tiles) ids
      /\ length ns = length ids /\ length ks = length ids
      /\ n_exposures e' = n_exposures e + Z.of_nat (length ids)
      /\ exposure_tiles e' = exposure_tiles e ++ ids
      /\ self_n_photons e' = self_n_photons e ++ ns
      /\ kuipers e' = kuipers e ++ ks
      /\ exposure_photons e' = exposure_photons e + Zsum ns.
Proof.
  induction tiles as [|entry tiles IH]; intros r r' H; cbv zeta.
  - injection H as <-. exists [], [], []. simpl. rewrite !app_nil_r, !Z.add_0_r.
    repeat split. constructor.
  - apply observe_tiles_cons in H as (r1 & H1 & H).
    apply IH in H as (ids & ns & ks & Hids & Hns & Hks & Hn & Htiles & Hself & Hk & Hsum).
    apply observe_tile_Ok in H1 as (t & Ht & _ & _ & _ & Hexp).
    unfold hits. simpl. rewrite Ht. fold (hits src tiles).
    destruct (source_in_tile src t).
    + destruct Hexp as (ID & HID & Hphotons & Hself1 & Hn1 & Htiles1 & Hsum1 & k & Hk1).
      exists (ID :: ids), (n_photons (run_statistics r1) :: ns), (k :: ks).
      rewrite Hn, Htiles, Hself, Hk, Hsum, Hn1, Htiles1, Hself1, Hk1, Hsum1.
      rewrite <- Hphotons, <- !app_assoc. simpl.
      repeat split; try lia.
      constructor; [exact HID | exact Hids].
    + destruct Hexp as [He _]. rewrite He in *. exists ids, ns, ks. auto 10.
Qed.

(** For a run over the tiles that ends well, the exposures of the source
    are exactly the tiles that contain it: [n_exposures] counts them,
    [exposure_tiles] lists their numbers in order, [self.n_photons] and
    [kuipers] hold one entry for each (after the initial 0.1), and
    [exposure_photons] is the sum of [self.n_photons]. *)
Theorem exposures_are_the_hits (src : source) (T_lat ts : Q)
    (t_is_merger phi_is_merger : list Q) (tiles : TileDict) (final : run) :
  observe_tiles src T_lat t_is_merger phi_is_merger tiles (first_run ts T_lat)
  = (Ok tt, final) ->
  let e := run_exposures final in
  n_exposures e = Z.of_nat (length (hits src tiles))
  /\ numbered (hits src tiles) (exposure_tiles e)
  /\ length (self_n_photons e) = length (hits src tiles)
  /\ length (kuipers e) = S (length (hits src tiles))
  /\ exposure_photons e = Zsum (self_n_photons e).
Proof.
  intros H. apply observe_tiles_exposures in H
    as (ids & ns & ks & Hids & Hns & Hks & Hn & Htiles & Hself & Hk & Hsum).
  cbv zeta in *. rewrite Hn, Htiles, Hself, Hk, Hsum.
  pose proof (Forall2_length _ _ _ Hids) as Hlen.
  simpl. rewrite Hlen, Hns, Hks. auto.
Qed.

(** ** The windows *)

Lemma observe_tiles_windows (src : source) (T_lat : Q) (t_is_merger phi_is_merger : list Q)
    (tiles : TileDict) :
  forall r r',
    observe_tiles src T_lat t_is_merger phi_is_merger tiles r = (Ok tt, r') ->
    (te r == ts r + T_lat)%Q ->
    (ts r' == ts r + inject_Z (Z.of_nat (length tiles)) * T_lat)%Q
    /\ (te r' == ts r' + T_lat)%Q.
Proof.
  induction tiles as [|entry tiles IH]; intros r r' H Hte.
  - injection H as <-. split; [simpl; ring | exact Hte].
  - apply observe_tiles_cons in H as (r1 & H1 & H).
    apply observe_tile_Ok in H1 as (t & _ & Hts & Hte1 & _).
    apply IH in H as [Hts' Hte'].
    + split; [|exact Hte']. rewrite Hts', Hts, Hte. cbn [length].
      rewrite Nat2Z.inj_succ, <- Z.add_1_r, inject_Z_plus.
      change (inject_Z 1) with 1%Q. ring.
    + rewrite Hts, Hte1. reflexivity.
Qed.

(** Every tile consumes one window of length [T_lat], whether it contains
    the source or not: after a run over [n] tiles that ends well, the
    window starts [n] times [T_lat] after the first time of the series. *)
Theorem windows_advance (src : source) (T_lat ts0 : Q)
    (t_is_merger phi_is_merger : list Q) (tiles : TileDict) (final : run) :
  observe_tiles src T_lat t_is_merger phi_is_merger tiles (first_run ts0 T_lat)
  = (Ok tt, final) ->
  (ts final == ts0 + inject_Z (Z.of_nat (length tiles)) * T_lat)%Q
  /\ (te final == ts final + T_lat)%Q.
Proof.
  intros H. apply observe_tiles_windows in H; [exact H | reflexivity].
Qed.

(** ** Carry-forward *)

(** After a run over one tile or more that ended well, a tile without the
    source raises nothing, adds no exposure, and appends to each of the
    seven traces the record that the tile before it appended. *)
Theorem miss_repeats_last_record (src : source) (T_lat ts0 : Q)
    (t_is_merger phi_is_merger : list Q) (tiles : TileDict) (entry : tile_key * tvalue)
    (t : tile) (r : run) :
  tiles <> [] ->
  observe_tiles src T_lat t_is_merger phi_is_merger tiles (first_run ts0 T_lat)
  = (Ok tt, r) ->
  snd entry = TTile t ->
  source_in_tile src t = false ->
  exists r',
    observe_tile src T_lat t_is_merger phi_is_merger entry r = (Ok tt, r')
    /\ carried_forward (run_traces r) (run_traces r')
    /\ run_exposures r' = run_exposures r.
Proof.
  intros Hne H Ht Hmiss.
  destruct (exists_last Hne) as (pre & last & ->).
  apply observe_tiles_snoc in H as (r0 & _ & H).
  apply observe_tile_Ok in H as (_ & _ & _ & _ & (d & td & Hd & Htd & Htraces) & _).
  unfold observe_tile. rewrite Ht.
  unfold mbind at 1, M_bind at 1, bindM at 1, lift at 1. cbv beta iota. rewrite Hmiss.
  unfold record_traces.
  unfold mbind, M_bind, bindM, mret, M_ret, ret, get, modify, lift, raise, bound. simpl.
  rewrite Htd. simpl. rewrite Hd. simpl.
  eexists. split; [reflexivity|]. split; [|reflexivity].
  simpl. rewrite Htraces. simpl.
  unfold carried_forward, repeats_last. simpl.
  repeat match goal with |- _ /\ _ => split end;
    eexists; eexists; (split; [reflexivity|]); rewrite <- app_assoc; reflexivity.
Qed.

End Tiles.

(** [exposures_are_the_hits] on the demo installation: of two tiles, the
    first contains the source. *)
Lemma exposures_are_the_hits_demo :
  exists final,
    observe_tiles Demo.source_in 20 Demo.t_is Demo.phi_is
      [(KInt 0, TTile Demo.a_tile); (KInt 1, TTile Demo.far_tile)] (first_run (-50) 20)
    = (Ok tt, final)
    /\ n_exposures (run_exposures final) = 1
    /\ exposure_tiles (run_exposures final) = [0]
    /\ exposure_photons (run_exposures final) = Zsum (self_n_photons (run_exposures final)).
Proof.
  assert (Hok : is_ok (fst (observe_tiles Demo.source_in 20 Demo.t_is Demo.phi_is
                   [(KInt 0, TTile Demo.a_tile); (KInt 1, TTile Demo.far_tile)]
                   (first_run (-50) 20))) = true)
    by (lazy; reflexivity).
  destruct (observe_tiles Demo.source_in 20 Demo.t_is Demo.phi_is
              [(KInt 0, TTile Demo.a_tile); (KInt 1, TTile Demo.far_tile)]
              (first_run (-50) 20)) as [[[]|e] final] eqn:Hrun; [|discriminate Hok].
  exists final. split; [reflexivity|].
  destruct (exposures_are_the_hits Demo.source_in 20 (-50) Demo.t_is Demo.phi_is
              [(KInt 0, TTile Demo.a_tile); (KInt 1, TTile Demo.far_tile)] final Hrun)
    as (Hn & Hids & _ & _ & Hsum).
  split; [exact Hn|]. split; [|exact Hsum].
  inversion Hids as [|? ? ? ? Hid Hrest]; subst. inversion Hrest; subst.
  now injection Hid as <-.
Defined.

(** [windows_advance] on the demo installation: two tiles of 20 s from
    50 s before the merger. *)
Lemma windows_advance_demo :
  exists final,
    observe_tiles Demo.source_in 20 Demo.t_is Demo.phi_is
      [(KInt 0, TTile Demo.a_tile); (KInt 1, TTile Demo.far_tile)] (first_run (-50) 20)
    = (Ok tt, final)
    /\ (ts final == -50 + inject_Z (Z.of_nat 2) * 20)%Q
    /\ (te final == ts final + 20)%Q.
Proof.
  assert (Hok : is_ok (fst (observe_tiles Demo.source_in 20 Demo.t_is Demo.phi_is
                   [(KInt 0, TTile Demo.a_tile); (KInt 1, TTile Demo.far_tile)]
                   (first_run (-50) 20))) = true)
    by (lazy; reflexivity).
  destruct (observe_tiles Demo.source_in 20 Demo.t_is Demo.phi_is
              [(KInt 0, TTile Demo.a_tile); (KInt 1, TTile Demo.far_tile)]
              (first_run (-50) 20)) as [[[]|e] final] eqn:Hrun; [|discriminate Hok].
  exists final. split; [reflexivity|].
  exact (windows_advance Demo.source_in 20 (-50) Demo.t_is Demo.phi_is
           [(KInt 0, TTile Demo.a_tile); (KInt 1, TTile Demo.far_tile)] final Hrun).
Defined.

(** [miss_repeats_last_record] on the demo installation: after a tile
    with the source, a tile without it. *)
Lemma miss_repeats_last_record_demo :
  exists r r',
    observe_tiles Demo.source_in 20 Demo.t_is Demo.phi_is
      [(KInt 0, TTile Demo.a_tile)] (first_run (-50) 20) = (Ok tt, r)
    /\ observe_tile Demo.source_in 20 Demo.t_is Demo.phi_is (KInt 1, TTile Demo.far_tile) r
       = (Ok tt, r')
    /\ carried_forward (run_traces r) (run_traces r')
    /\ run_exposures r' = run_exposures r.
Proof.
  assert (Hok : is_ok (fst (observe_tiles Demo.source_in 20 Demo.t_is Demo.phi_is
                   [(KInt 0, TTile Demo.a_tile)] (first_run (-50) 20))) = true)
    by (lazy; reflexivity).
  destruct (observe_tiles Demo.source_in 20 Demo.t_is Demo.phi_is
              [(KInt 0, TTile Demo.a_tile)] (first_run (-50) 20))
    as [[[]|e] r] eqn:Hrun; [|discriminate Hok].
  destruct (miss_repeats_last_record Demo.source_in 20 (-50) Demo.t_is Demo.phi_is
              [(KInt 0, TTile Demo.a_tile)] (KInt 1, TTile Demo.far_tile) Demo.far_tile r
              ltac:(discriminate) Hrun eq_refl eq_refl) as (r' & Hr').
  exists r, r'. split; [reflexivity | exact Hr'].
Defined.

(* ===================================================================== *)
(** * Lines 412-421: what the selection of the tiles returns *)
(* ===================================================================== *)

Section Selection.

Lemma numbered_mapM {V : Type} (tiles : list (tile_key * V)) (ids : list Z) :
  mapM (fun kv => int_of_key (fst kv)) tiles = Ok ids -> numbered tiles ids.
Proof.
  revert ids. induction tiles as [|kv tiles IH]; intros ids H; simpl in H.
  - injection H as <-. constructor.
  - apply bind_Ok in H as (id & Hid & H). apply bind_Ok in H as (rest & Hrest & H).
    injection H as <-. constructor; [exact Hid | now apply IH].
Qed.

(** A dictionary comprehension keeps entries that pass its test. *)
Lemma dict_filter_kept {V : Type} (keep : tile_key -> result bool)
    (items reduced : list (tile_key * V)) :
  dict_filter keep items = Ok reduced ->
  Forall (fun kv => keep (fst kv) = Ok true /\ In kv items) reduced.
Proof.
  revert reduced. induction items as [|[k v] items IH]; intros reduced H; simpl in H.
  - injection H as <-. constructor.
  - apply bind_Ok in H as (b & Hb & H). apply bind_Ok in H as (rest & Hrest & H).
    injection H as <-. specialize (IH rest Hrest).
    assert (Hrest' : Forall (fun kv => keep (fst kv) = Ok true /\ In kv ((k, v) :: items)) rest).
    { eapply Forall_impl; [exact IH|]. simpl. intros kv [? ?]. auto. }
    destruct b; [|exact Hrest'].
    constructor; [|exact Hrest']. simpl. auto.
Qed.

Lemma fold_max_greatest (l : list Z) (x : Z) :
  In (fold_left Z.max l x) (x :: l)
  /\ Forall (fun y => y <= fold_left Z.max l x) (x :: l).
Proof.
  revert x. induction l as [|y l IH]; intros x; simpl.
  - split; [now left | repeat constructor; lia].
  - destruct (IH (Z.max x y)) as [Hin Hle].
    apply Forall_cons in Hle as [Hxy Hle]. split.
    + destruct Hin as [Hin|Hin]; [|now right; right].
      rewrite <- Hin. destruct (Z.max_spec x y) as [[_ ->]|[_ ->]]; auto.
    + repeat (apply Forall_cons; split); [lia | lia | exact Hle].
Qed.

Lemma py_max_Ok (l : list Z) (m : Z) :
  py_max l = Ok m -> In m l /\ Forall (fun y => y <= m) l.
Proof.
  destruct l as [|x l]; [discriminate|]. intros [= <-]. apply fold_max_greatest.
Qed.

(** The loop of line 415: what it leaves is the selection among the tiles
    of one telescope. *)
Lemma telescopes_fold_Ok (telescopes : list (string * list (tile_key * tile)))
    (n_times : Z) (start : result (option TileDict)) (reduced : TileDict) :
  fold_left
    (fun acc telescope =>
       _ ← acc;
       reduced ← dict_filter (fun k => n ← int_of_key k; Ok (n <? n_times)%Z)
                   (snd telescope);
       Ok (Some (List.map (fun kv => (fst kv, TTile (snd kv))) reduced)))
    telescopes start = Ok (Some reduced) ->
  start = Ok (Some reduced)
  \/ exists telescope tiles,
       In telescope telescopes
       /\ dict_filter (fun k => n ← int_of_key k; Ok (n <? n_times)%Z) (snd telescope)
          = Ok tiles
       /\ reduced = List.map (fun kv => (fst kv, TTile (snd kv))) tiles.
Proof.
  revert start. induction telescopes as [|telescope telescopes IH]; intros start H.
  - now left.
  - right. simpl in H. apply IH in H as [H|(telescope' & tiles & Hin & Htiles & ->)].
    + apply bind_Ok in H as (o & _ & H). apply bind_Ok in H as (tiles & Htiles & H).
      injection H as <-. exists telescope, tiles. simpl. auto.
    + exists telescope', tiles. simpl. auto.
Qed.

Lemma in_time (k : tile_key) (n_times : Z) :
  (n ← int_of_key k; Ok (n <? n_times)%Z) = Ok true ->
  exists n, int_of_key k = Ok n /\ n < n_times.
Proof.
  intros H. apply bind_Ok in H as (n & Hn & H). injection H as H.
  apply Z.ltb_lt in H. eauto.
Qed.

(** Whatever the tile dictionary holds, a selection that returns has kept
    only tiles whose number is below [n_times], at least one of them, and has
    lowered [n_times] to the greatest number it kept: the test of line 419
    always succeeds. *)
Theorem selected_tiles_are_in_time (td reduced : TileDict) (n_times n_times' : Z)
    (ids : list Z) :
  select_tiles td n_times = Ok (reduced, n_times', ids) ->
  numbered reduced ids
  /\ Forall (fun id => id < n_times) ids
  /\ In n_times' ids
  /\ Forall (fun id => id <= n_times') ids
  /\ n_times' < n_times.
Proof.
  unfold select_tiles. intros H.
  apply bind_Ok in H as ([reduced0|] & Hreduced & H); [|discriminate H].
  apply bind_Ok in H as (keys & Hkeys & H). apply bind_Ok in H as (max_key & Hmax & H).
  apply numbered_mapM in Hkeys. apply py_max_Ok in Hmax as [Hin Hle].
  assert (Hkept : Forall (fun kv => exists n, int_of_key (fst kv) = Ok n /\ n < n_times)
                    reduced0).
  { unfold reduce_TileDict in Hreduced.
    apply bind_Ok in Hreduced as (strat & _ & Hreduced).
    destruct (match strat with TVal v => py_eq v (VStr "MaxProb") | _ => false end).
    - apply bind_Ok in Hreduced as (kept & Hkept & [= <-]).
      apply dict_filter_kept in Hkept.
      eapply Forall_impl; [exact Hkept|]. simpl. intros kv [Hkeep _].
      destruct (in_Extra_keys (fst kv)); [discriminate|]. now apply in_time.
    - apply bind_Ok in Hreduced as (structs & _ & Hreduced).
      destruct structs as [| |telescopes]; try discriminate.
      apply telescopes_fold_Ok in Hreduced
        as [Hstart|(telescope & tiles & _ & Htiles & ->)]; [discriminate|].
      apply dict_filter_kept in Htiles. apply List.Forall_map.
      eapply Forall_impl; [exact Htiles|]. simpl. intros kv [Hkeep _].
      now apply in_time. }
  assert (Hall : Forall (fun id => id < n_times) keys).
  { clear -Hkeys Hkept. induction Hkeys as [|kv id tiles ids Hid _ IH]; [constructor|].
    apply Forall_cons in Hkept as [(n & Hn & Hlt) Hkept].
    constructor; [congruence | now apply IH]. }
  assert (Hlt : max_key < n_times).
  { rewrite List.Forall_forall in Hall. now apply Hall. }
  apply Z.ltb_lt in Hlt as Hltb. rewrite Hltb in H. injection H as <- <- <-.
  auto.
Qed.

(** When no tile of a [MaxProb] dictionary has a number below [n_times],
    and when it has no tile at all, the selection raises the [ValueError] of
    [max] on an empty list (line 418). *)
Theorem no_tile_in_time (td : TileDict) (n_times : Z) (strat : value) (ids : list Z) :
  td_getitem td "Tile Strat" = Ok (TVal strat) ->
  py_eq strat (VStr "MaxProb") = true ->
  numbered (tile_entries td) ids ->
  Forall (fun id => n_times <= id) ids ->
  select_tiles td n_times = Raise ValueError.
Proof.
  intros Hstrat HMaxProb Hnum Hlate.
  unfold select_tiles, reduce_TileDict. rewrite Hstrat. simpl. rewrite HMaxProb.
  assert (Hempty : dict_filter
                     (fun k => if in_Extra_keys k then Ok false
                               else n ← int_of_key k; Ok (n <? n_times)%Z) td = Ok []).
  { clear Hstrat. revert ids Hnum Hlate.
    induction td as [|[k v] td IH]; intros ids Hnum Hlate;
      [reflexivity|].
    unfold tile_entries in *. simpl in *.
    destruct (in_Extra_keys k); simpl in *.
    - now rewrite (IH ids Hnum Hlate).
    - inversion Hnum as [|? id ? ids' Hkv Hrest]; subst. simpl in Hkv.
      apply Forall_cons in Hlate as [Hid Hlate].
      rewrite Hkv. simpl. rewrite (IH ids' Hrest Hlate). simpl.
      apply Z.ltb_ge in Hid. now rewrite Hid. }
  rewrite Hempty. reflexivity.
Qed.

End Selection.

(** [selected_tiles_are_in_time] on a dictionary of four tiles, when the
    time to merger allows two. *)
Lemma selected_tiles_are_in_time_demo :
  numbered [(KStr "0", TTile Demo.a_tile); (KInt 1, TTile Demo.a_tile)] [0; 1]
  /\ Forall (fun id => id < 2) [0; 1]
  /\ In 1 [0; 1]
  /\ Forall (fun id => id <= 1) [0; 1]
  /\ 1 < 2.
Proof.
  apply (selected_tiles_are_in_time
           [(KStr "Tile Strat", TVal (VStr "MaxProb"));
            (KStr "0", TTile Demo.a_tile); (KInt 1, TTile Demo.a_tile);
            (KStr "2", TTile Demo.a_tile); (KInt 3, TTile Demo.a_tile)]).
  vm_compute. reflexivity.
Defined.

(** [no_tile_in_time] on a dictionary of two tiles, when the merger has
    passed. *)
Lemma no_tile_in_time_demo :
  select_tiles
    [(KStr "Tile Strat", TVal (VStr "MaxProb")); (KStr "0", TTile Demo.a_tile);
     (KInt 1, TTile Demo.a_tile)] 0
  = Raise ValueError.
Proof.
  apply (no_tile_in_time _ 0 (VStr "MaxProb") [0; 1]).
  - reflexivity.
  - reflexivity.
  - repeat constructor.
  - repeat constructor; lia.
Defined.

(* ===================================================================== *)
(** * The directive [NewExistentialFileName] *)
(* ===================================================================== *)

Section NewName.

Context `{Ext : Collaborators} (fs : filesystem).

Lemma kw_has_kw_get (k : string) (kw : kwargs) (v : value) :
  kw_get k kw = Some v -> kw_has k kw = true.
Proof.
  unfold kw_get, kw_has. induction kw as [|[key w] kw IH]; [discriminate|].
  simpl. destruct (String.eqb key k); [reflexivity | exact IH].
Qed.

(** Lines 89-94, when the directory of the new save file can be made. *)
Lemma check_NewExistentialFileName_made (kw : kwargs) (new : string) (log : list event) :
  kw_get "NewExistentialFileName" kw = Some (VStr new) ->
  mkdir_ok fs (dirname new) = true ->
  check_NewExistentialFileName fs kw log = (Ok kw, log ++ [MkDir (dirname new)]).
Proof.
  intros Hkw Hdir. unfold check_NewExistentialFileName. rewrite Hkw.
  cbv [try_mkdir mbind M_bind bindM lift splittable]. rewrite Hdir. reflexivity.
Qed.

(** A save file that exists, loaded with the name of a new one: the
    instrument counts as mutated whatever else the keyword arguments say.
    When the constructor returns, the new object has the new name (even if
    a file of that name exists), keeps the name of its origin, has lost the
    coverage and the tiles, and has been saved under the new name; the file
    of its origin is written only if it is the new name. *)
Theorem new_save_file_name_is_taken (fuel : nat) (MPI : option nat) (kw : kwargs)
    (log log' : list event) (name new : string) (self : Athena) :
  kw_get "NewExistentialFileName" kw = Some (VStr new) ->
  mkdir_ok fs (dirname new) = true ->
  kw_get "ExistentialFileName" kw = Some (VStr name) ->
  mkdir_ok fs (dirname name) = true ->
  isfile fs name = true ->
  init fs fuel MPI kw log = (Ok self, log') ->
  ExistentialFileName self = new
  /\ MutatedFromTelescopeFile self = Some (Some name)
  /\ telescope_source_coverage self = None
  /\ telescope_tile_struct self = None
  /\ saved_once log log' self.
Proof.
  intros HNew Hnewdir HEx Hdir Hfile H.
  apply init_stages in H
    as (verbose & perm & kw1 & l1 & kw2 & r & l2 & Hcheck & Hres & H).
  assert (HNew' : kw_get "NewExistentialFileName" (kw_del "verbose" kw) = Some (VStr new))
    by (rewrite kw_get_kw_del by discriminate; exact HNew).
  rewrite (check_NewExistentialFileName_made _ _ _ HNew' Hnewdir) in Hcheck.
  injection Hcheck as <- <-.
  assert (HEx' : kw_get "ExistentialFileName" (kw_del "verbose" kw) = Some (VStr name))
    by (rewrite kw_get_kw_del by discriminate; exact HEx).
  destruct (resurrect_existing fs _ _ _ _ _ _ _ _
              HEx' (check_ExistentialFileName_made fs name _ Hdir) Hfile Hres)
    as (-> & Hsave & Hr).
  assert (Hm : MUTATED r = true).
  { unfold from_save_file in Hsave. destruct (load_SavedDict fs name); [|discriminate].
    apply bind_Ok in Hsave as (go & _ & Hsave).
    apply bind_Ok in Hsave as (cfg & _ & Hsave).
    apply bind_Ok in Hsave as (mutated & Hmutated & Hsave).
    destruct (backfill _ go cfg). injection Hsave as <-. simpl.
    unfold decide_MUTATED in Hmutated.
    rewrite (kw_has_kw_get "NewExistentialFileName" _ (VStr new)) in Hmutated
      by (rewrite kw_get_kw_del by discriminate; exact HNew').
    now injection Hmutated as <-. }
  pose proof (construct_names fs _ _ _ _ _ _ _ _ _ H Hr) as Hnames. rewrite Hm in Hnames.
  destruct Hnames as [Hversion Hfrom].
  unfold version_ExistentialFileName in Hversion.
  rewrite !kw_get_kw_del, HNew in Hversion by discriminate. injection Hversion as Hversion.
  pose proof (construct_coverage fs _ _ _ _ _ _ _ _ H) as [Hcov Htiles].
  rewrite Hm in Hcov, Htiles.
  split; [now symmetry|]. split; [exact Hfrom|]. split; [exact Hcov|].
  split; [exact Htiles|].
  destruct (emits_run (fun e => is_save_write e = false) _ _ _ _
              (emits_resurrect fs _ (fun _ => eq_refl) _) Hres) as (new2 & -> & Hnew2).
  apply construct_saves in H as (before & content & after & -> & Hb & Ha & Hcontent).
  exists ([MkDir (dirname new)] ++ new2 ++ before), content, after.
  split; [now rewrite <- !app_assoc|].
  split; [|split; [exact Ha | exact Hcontent]].
  repeat (apply Forall_app; split); try assumption; repeat constructor.
Qed.

(** ** Line 196 *)

Lemma kw_get_kw_del_same (k : string) (kw : kwargs) : kw_get k (kw_del k kw) = None.
Proof.
  unfold kw_get, kw_del. induction kw as [|[key v] kw IH]; [reflexivity|].
  simpl. destruct (String.eqb key k) eqn:E; simpl; [exact IH|]. now rewrite E.
Qed.

(** The keyword arguments that lines 96-179 hand on never hold
    [ExistentialFileName]: line 99 has deleted it, so the test of line 196 is
    never true.  A tesselation file that is not set is named after the
    telescope, never after the save file. *)
Theorem tesselationFile_ignores_save_file (kw kw' : kwargs) (r : resurrected)
    (log log' : list event) (cfg : dict) (telescope : string) :
  resurrect fs kw log = (Ok (kw', r), log') ->
  cfg !! "tesselationFile" = Some VNone ->
  cfg !! "telescope" = Some (VStr telescope) ->
  kw_get "ExistentialFileName" kw' = None
  /\ default_tesselationFile kw' cfg
     = Ok (<["tesselationFile" :=
               VStr (SYNEX_PATH +:+ "/gwemopt_tess_files/" +:+ telescope +:+ ".tess")]> cfg).
Proof.
  intros H Htf Htel.
  assert (Hgone : kw_get "ExistentialFileName" kw' = None).
  { unfold resurrect in H. destruct (kw_get "ExistentialFileName" kw) as [v|] eqn:Hkw.
    - apply bindM_Ok in H as (name & l1 & _ & H).
      destruct (isfile fs name).
      + apply bindM_Ok in H as (r' & l2 & _ & H). apply mret_Ok in H as [[= -> _] _].
        apply kw_get_kw_del_same.
      + apply mret_Ok in H as [[= -> _] _]. apply kw_get_kw_del_same.
    - apply mret_Ok in H as [[= -> _] _]. exact Hkw. }
  split; [exact Hgone|].
  unfold default_tesselationFile, getitem. rewrite Htf, Hgone, Htel. reflexivity.
Qed.


(** ** What the saving asks of the configuration *)

(** [ComputeTesselation] returns only for an object whose configuration
    already holds the orbit, and that names a tesselation file or already
    holds a tesselation: the guard of line 352 skips the tesselation, and the
    saving of line 379 then fails on the key it deletes at line 574. *)
Theorem ComputeTesselation_needs_orbit (self self' : Athena) (log log' : list event) :
  ComputeTesselation fs self log = (Ok self', log') ->
  has_key (telescope_config_struct self) "orbit_dict" = true
  /\ has_key (telescope_config_struct self) "tesselationFile"
     || has_key (telescope_config_struct self) "tesselation" = true.
Proof.
  unfold ComputeTesselation. intros H.
  apply bindM_Ok in H as (v & l0 & Hv & H).
  apply bindM_Ok in H as (cfg1 & l1 & Hcfg1 & H).
  apply bindM_Ok in H as (cfg2 & l2 & Htess & H).
  apply bindM_Ok in H as (cfg3 & l3 & Href & H). apply lift_Ok in Href as [Href ->].
  unfold ExistentialCrisis in H.
  apply bindM_Ok in H as (self1 & l4 & Hself & H). apply mret_Ok in Hself as [-> ->].
  apply bindM_Ok in H as (content & l5 & Hcontent & H). apply lift_Ok in Hcontent as [Hcontent _].
  unfold MyExistentialDict, delitem in Hcontent. simpl in Hcontent.
  destruct (cfg3 !! "orbit_dict") as [orbit|] eqn:Horbit; [|discriminate Hcontent].
  simpl in Hcontent. rewrite lookup_delete_ne in Hcontent by discriminate.
  destruct (cfg3 !! "tesselation") as [tess|] eqn:Htess3; [|discriminate Hcontent].
  clear Hcontent H.
  assert (Hsame1 : forall k, k <> "exposuretime" -> k <> "magnitude" ->
                     cfg1 !! k = telescope_config_struct self !! k).
  { intros k Hk1 Hk2. destruct (truthy v).
    - apply lift_Ok in Hcfg1 as [Hcfg1 _].
      apply single_exposure_result in Hcfg1
        as (e & q & b & bq & m & mq & _ & _ & _ & _ & _ & _ & ->).
      rewrite !lookup_insert_ne by congruence. reflexivity.
    - now apply mret_Ok in Hcfg1 as [-> _]. }
  rewrite (reference_images_other_keys _ _ "orbit_dict" Href) in Horbit by discriminate.
  rewrite (tesselation_other_keys _ _ _ _ _ "orbit_dict" Htess) in Horbit by discriminate.
  rewrite Hsame1 in Horbit by discriminate.
  rewrite (reference_images_other_keys _ _ "tesselation" Href) in Htess3 by discriminate.
  split; [unfold has_key; rewrite Horbit; apply bool_decide_eq_true_2; eauto|].
  unfold has_key at 1. rewrite <- (Hsame1 "tesselationFile") by discriminate.
  fold (has_key cfg1 "tesselationFile").
  destruct (has_key cfg1 "tesselationFile") eqn:Hfile; [reflexivity|].
  unfold tesselation in Htess. rewrite Hfile in Htess. apply mret_Ok in Htess as [-> _].
  rewrite Hsame1 in Htess3 by discriminate.
  unfold has_key. rewrite Htess3. apply bool_decide_eq_true_2. eauto.
Qed.

End NewName.

(** [new_save_file_name_is_taken] on the demo installation. *)
Lemma new_save_file_name_is_taken_demo :
  exists self log',
    init Demo.files 2 None
      [("ExistentialFileName", VStr Demo.save_file);
       ("NewExistentialFileName", VStr "/opt/SYNEX/Saved_Telescope_Dicts/Twin.dat")] []
    = (Ok self, log')
    /\ ExistentialFileName self = "/opt/SYNEX/Saved_Telescope_Dicts/Twin.dat"
    /\ MutatedFromTelescopeFile self = Some (Some Demo.save_file)
    /\ telescope_source_coverage self = None
    /\ telescope_tile_struct self = None
    /\ saved_once [] log' self.
Proof.
  assert (Hok : is_ok (fst (init Demo.files 2 None
                   [("ExistentialFileName", VStr Demo.save_file);
                    ("NewExistentialFileName",
                     VStr "/opt/SYNEX/Saved_Telescope_Dicts/Twin.dat")] [])) = true)
    by (vm_compute; reflexivity).
  destruct (init Demo.files 2 None
              [("ExistentialFileName", VStr Demo.save_file);
               ("NewExistentialFileName",
                VStr "/opt/SYNEX/Saved_Telescope_Dicts/Twin.dat")] [])
    as [[self|e] log'] eqn:Hinit; [|discriminate Hok].
  exists self, log'. split; [reflexivity|].
  assert (Hfile : isfile Demo.files Demo.save_file = true) by (vm_compute; reflexivity).
  exact (new_save_file_name_is_taken Demo.files 2 None
           [("ExistentialFileName", VStr Demo.save_file);
            ("NewExistentialFileName", VStr "/opt/SYNEX/Saved_Telescope_Dicts/Twin.dat")]
           [] log' Demo.save_file "/opt/SYNEX/Saved_Telescope_Dicts/Twin.dat" self
           eq_refl eq_refl eq_refl eq_refl Hfile Hinit).
Defined.

(** [tesselationFile_ignores_save_file] on the demo installation: a new
    instrument that is to be saved as [New.dat] gets the tesselation file of
    every [Athena]. *)
Lemma tesselationFile_ignores_save_file_demo :
  exists kw' r log',
    resurrect Demo.files
      [("ExistentialFileName", VStr "/opt/SYNEX/Saved_Telescope_Dicts/New.dat")] []
    = (Ok (kw', r), log')
    /\ kw_get "ExistentialFileName" kw' = None
    /\ default_tesselationFile kw' Demo.config_struct
       = Ok (<["tesselationFile" :=
                 VStr (SYNEX_PATH +:+ "/gwemopt_tess_files/" +:+ "Athena" +:+ ".tess")]>
               Demo.config_struct).
Proof.
  assert (Hok : is_ok (fst (resurrect Demo.files
                   [("ExistentialFileName", VStr "/opt/SYNEX/Saved_Telescope_Dicts/New.dat")]
                   [])) = true)
    by (vm_compute; reflexivity).
  destruct (resurrect Demo.files
              [("ExistentialFileName", VStr "/opt/SYNEX/Saved_Telescope_Dicts/New.dat")] [])
    as [[[kw' r]|e] log'] eqn:Hres; [|discriminate Hok].
  exists kw', r, log'. split; [reflexivity|].
  assert (Htf : Demo.config_struct !! "tesselationFile" = Some VNone)
    by (vm_compute; reflexivity).
  assert (Htel : Demo.config_struct !! "telescope" = Some (VStr "Athena"))
    by (vm_compute; reflexivity).
  exact (tesselationFile_ignores_save_file Demo.files _ kw' r [] log' Demo.config_struct
           "Athena" Hres Htf Htel).
Defined.

(** [ComputeTesselation_needs_orbit] on the demo instrument. *)
Lemma ComputeTesselation_needs_orbit_demo :
  has_key (telescope_config_struct Demo.single_exposure_instrument) "orbit_dict" = true
  /\ has_key (telescope_config_struct Demo.single_exposure_instrument) "tesselationFile"
     || has_key (telescope_config_struct Demo.single_exposure_instrument) "tesselation"
     = true.
Proof.
  assert (Hok : is_ok (fst (ComputeTesselation Demo.files Demo.single_exposure_instrument []))
                = true)
    by (vm_compute; reflexivity).
  destruct (ComputeTesselation Demo.files Demo.single_exposure_instrument [])
    as [[self'|e] log'] eqn:Hrun; [|discriminate Hok].
  exact (ComputeTesselation_needs_orbit Demo.files Demo.single_exposure_instrument self'
           [] log' Hrun).
Defined.

(* ===================================================================== *)
(** * A version number is read back as it was written *)
(* ===================================================================== *)

Section VersionNumbers.

Context `{Ext : Collaborators} (fs : filesystem).

Import PyFacts.

(** ** [int(str(n))] *)

Lemma parse_digits_acc (d : Decimal.uint) (acc : positive) :
  parse_digits (NilEmpty.string_of_uint d) (Z.pos acc) true
  = Some (Z.pos (Pos.of_uint_acc d acc)).
Proof.
  revert acc. induction d; intros acc; cbn [NilEmpty.string_of_uint Pos.of_uint_acc];
    [reflexivity|..];
    cbn [parse_digits digit_of]; simpl;
    match goal with |- parse_digits _ ?z true = Some (Z.pos (Pos.of_uint_acc _ ?p)) =>
      replace z with (Z.pos p) by lia end; apply IHd.
Qed.

Lemma parse_digits_uint (d : Decimal.uint) :
  parse_digits (NilEmpty.string_of_uint d) 0 true = Some (Z.of_N (Pos.of_uint d)).
Proof.
  induction d; cbn [NilEmpty.string_of_uint Pos.of_uint]; [reflexivity|..];
    cbn [parse_digits digit_of]; simpl; first [exact IHd | apply parse_digits_acc].
Qed.

Lemma parse_digits_string_of_uint (d : Decimal.uint) :
  parse_digits (NilZero.string_of_uint d) 0 false = Some (Z.of_uint d).
Proof.
  unfold Z.of_uint. destruct d; cbn [NilZero.string_of_uint NilEmpty.string_of_uint];
    [reflexivity|..];
    cbn [parse_digits digit_of]; simpl;
    first [apply parse_digits_uint | apply parse_digits_acc].
Qed.

Lemma is_space_no_digit (c : ascii) :
  is_space c = true -> digit_of c = None /\ c <> "-"%char /\ c <> "+"%char.
Proof.
  destruct c as [[] [] [] [] [] [] [] []]; intros H; try discriminate H;
    repeat split; discriminate.
Qed.

Lemma rstrip_same (s : string) :
  (forall c, is_space c = true -> lacks c s = true) -> rstrip s = s.
Proof.
  induction s as [|d s IH]; intros H; [reflexivity|].
  assert (Hd : is_space d = false).
  { destruct (is_space d) eqn:E; [|reflexivity].
    specialize (H d E). simpl in H. now rewrite Ascii.eqb_refl in H. }
  simpl. rewrite IH.
  - destruct s; [now rewrite Hd | reflexivity].
  - intros c Hc. specialize (H c Hc). simpl in H. now apply andb_prop in H as [_ H].
Qed.

Lemma lstrip_same (s : string) :
  (forall c, is_space c = true -> lacks c s = true) -> lstrip s = s.
Proof.
  destruct s as [|d s]; intros H; [reflexivity|].
  simpl. destruct (is_space d) eqn:E; [|reflexivity].
  specialize (H d E). simpl in H. now rewrite Ascii.eqb_refl in H.
Qed.

Lemma str_of_int_lacks_space (n : Z) (c : ascii) :
  is_space c = true -> lacks c (str_of_int n) = true.
Proof.
  intros Hc. destruct (is_space_no_digit c Hc) as (Hd & Hm & _).
  now apply lacks_str_of_int.
Qed.

(** What [str] writes, [int] reads. *)
Lemma int_of_str_of_int (n : Z) : int_of_str (str_of_int n) = Some n.
Proof.
  unfold int_of_str.
  rewrite (rstrip_same _ (str_of_int_lacks_space n)),
          (lstrip_same _ (str_of_int_lacks_space n)).
  rewrite <- (DecimalZ.of_to n) at 2.
  unfold str_of_int, NilZero.string_of_int. destruct (Z.to_int n) as [d|d]; simpl Z.of_int.
  - rewrite <- parse_digits_string_of_uint.
    destruct d; cbn [NilZero.string_of_uint NilEmpty.string_of_uint]; reflexivity.
  - cbv iota beta. rewrite parse_digits_string_of_uint. reflexivity.
Qed.

(** ** The suffix of a versioned name *)

Lemma version_suffix_versioned (X ext : string) (n : Z) :
  lacks "_" ext = true -> version_suffix (versioned X n ext) = Some n.
Proof.
  intros Hu. unfold version_suffix, versioned.
  change (X +:+ "_" +:+ ?t) with (X +:+ String "_" t).
  rewrite last_item_split by (apply lacks_version_tail; done).
  change (str_of_int n +:+ "." +:+ ext) with (str_of_int n +:+ String "." ext).
  rewrite first_item_split by (apply lacks_str_of_int; done).
  apply int_of_str_of_int.
Qed.

(** The versioning reads back the numbers it writes.  From a name
    [X_k.ext] that a mutation has produced ([ext] is a file extension: it
    holds no ['_'] and no ['.']), the [try] of lines 213-216 finds version [k]
    and keeps the name; when the versions [k] to [k+m-1] exist and version
    [k+m] does not, the next mutation is given [X_(k+m).ext], and [m]
    iterations of the loop suffice. *)
Theorem versions_continue (X ext : string) (k : Z) (m fuel : nat) :
  lacks "_" ext = true -> lacks "." ext = true ->
  (forall i, k <= i < k + Z.of_nat m -> isfile fs (versioned X i ext) = true) ->
  isfile fs (versioned X (k + Z.of_nat m) ext) = false ->
  (m <= fuel)%nat ->
  version_suffix (versioned X k ext) = Some k
  /\ version_start (versioned X k ext) = (k, versioned X k ext)
  /\ versionPath fs fuel (versioned X k ext) = Ok (versioned X (k + Z.of_nat m) ext).
Proof.
  intros Hu Hp Hex Hfree Hfuel.
  pose proof (version_suffix_versioned X ext k Hu) as Hsuffix.
  assert (Hstart : version_start (versioned X k ext) = (k, versioned X k ext))
    by (unfold version_start; now rewrite Hsuffix).
  split; [exact Hsuffix|]. split; [exact Hstart|].
  unfold versionPath. rewrite Hstart.
  now apply first_free_version_walk.
Qed.

End VersionNumbers.

(** [versions_continue] on the demo installation, from version 1 of the
    tesselation file. *)
Lemma versions_continue_demo :
  versionPath Demo.files 2 "/opt/SYNEX/gwemopt_tess_files/Athena_1.tess"
  = Ok "/opt/SYNEX/gwemopt_tess_files/Athena_3.tess".
Proof.
  assert (Hex : forall i, 1 <= i < 1 + Z.of_nat 2 ->
                  isfile Demo.files (versioned Demo.tess_stem i "tess") = true).
  { intros i Hi. assert (Hcases : i = 1 \/ i = 2) by lia.
    destruct Hcases; subst i; reflexivity. }
  exact (proj2 (proj2 (versions_continue Demo.files Demo.tess_stem "tess" 1 2 2
                         eq_refl eq_refl Hex eq_refl (le_n 2)))).
Defined.
